(** * ml-foundations-notebook: the notebook cells and the library routines
      they call, embedded in Rocq.

    The repository is a set of Jupyter notebooks.  Its code is the glue
    written in the code cells; the numerical work is done by NumPy, pandas
    and scikit-learn.  The development has three layers:

    - [Py]: exceptions and the result type of fallible Python code;
    - [np], [pd], [sklearn]: executable models of the library routines the
      cells call, following the libraries' documented algorithms
      (float64 values are idealised as exact rationals [Q], a NaN is [None];
      the sine and cosine of the date-time notebook live in [R]);
    - [Notebook]: the code cells, transcribed statement by statement, run
      against a kernel made of a namespace and a heap of objects.

    The definitions come first; the properties of the cells and of the
    routines they call follow, topic by topic. *)

From Stdlib Require Import QArith Qminmax Qround Qabs Reals Psatz String Ascii.
From stdpp Require Import base option list gmap strings sorting.

Open Scope Q_scope.

(** ** Python exceptions and results *)

Module Py.

Inductive exn : Type :=
| ValueError
| KeyError
| IndexError
| NameError
| TypeError
| AttributeError
| ZeroDivisionError.

Inductive result (A : Type) : Type :=
| Ok (a : A)
| Raise (e : exn).

Arguments Ok {A} a.
Arguments Raise {A} e.

Definition bind {A B} (r : result A) (k : A -> result B) : result B :=
  match r with
  | Ok a => k a
  | Raise e => Raise e
  end.

Definition is_ok {A} (r : result A) : bool :=
  match r with Ok _ => true | Raise _ => false end.

End Py.

Import Py.

Notation "'let*' x ':=' c 'in' k" := (Py.bind c (fun x => k))
  (at level 10, x pattern, c at level 100, k at level 200).

(** ** NumPy: two-dimensional float arrays and the reductions along axis 0 *)

Module np.

(** An [ndarray] of shape (n_samples, n_features) is the list of its rows. *)
Abbreviation ndarray := (list (list Q)).

Definition n_features (X : ndarray) : nat := length (hd [] X).

(** [np.array(rows)]: rows of unequal length do not form a 2-D array. *)
Definition array (rows : list (list Q)) : result ndarray :=
  if forallb (fun r => Nat.eqb (length r) (n_features rows)) rows
  then Ok rows else Raise ValueError.

Definition column (X : ndarray) (j : nat) : list Q :=
  map (fun r => nth j r 0) X.

(** The columns of [X], i.e. the slices a reduction along [axis=0] sees. *)
Definition columns (X : ndarray) : list (list Q) :=
  map (column X) (seq 0 (n_features X)).

(** [np.min] / [np.max] of a one-dimensional array. *)
Definition amin (a : list Q) : Q := fold_right Qmin (hd 0 a) (tl a).
Definition amax (a : list Q) : Q := fold_right Qmax (hd 0 a) (tl a).

(** [np.sort] of a one-dimensional array (ascending). *)
#[global] Instance Qle_dec (x y : Q) : Decision (x <= y).
Proof. destruct (Qlt_le_dec y x); [right; apply Qlt_not_le; assumption | left; assumption]. Defined.

Definition sort (a : list Q) : list Q := merge_sort Qle a.

#[global] Instance Q_eq_dec : EqDecision Q.
Proof. solve_decision. Defined.

(** [np.sum] and [np.mean] of a one-dimensional array. *)
Definition sum (a : list Q) : Q := fold_right Qplus 0 a.

Definition mean (a : list Q) : Q := sum a / inject_Z (Z.of_nat (length a)).

(** [np.median]: the middle element of the sorted data, or the mean of the
    two middle elements when the length is even. *)
Definition median (a : list Q) : Q :=
  let s := sort a in
  let n := length s in
  if Nat.even n
  then (nth (n / 2 - 1) s 0 + nth (n / 2) s 0) / 2
  else nth (n / 2) s 0.

(** The interpolation step of [np.percentile] with [method='linear']. *)
Definition lerp (a b t : Q) : Q := a + (b - a) * t.

(** [np.percentile(a, q)] with the default linear interpolation: the
    virtual index [q/100 * (n-1)] is split in its floor and its fractional
    part, and the two neighbouring order statistics are interpolated. *)
Definition percentile (a : list Q) (q : Q) : Q :=
  let s := sort a in
  let n := length s in
  let virtual_index := (q / 100) * inject_Z (Z.of_nat (n - 1)) in
  let previous := Z.to_nat (Qfloor virtual_index) in
  let next := Nat.min (previous + 1) (n - 1) in
  let gamma := virtual_index - inject_Z (Z.of_nat previous) in
  lerp (nth previous s 0) (nth next s 0) gamma.

(** *** Arrays with missing values *)

(** A float array that may hold NaN: a missing entry is [None]. *)
Abbreviation nanarray := (list (list (option Q))).

Definition is_missing {A} (x : option A) : bool :=
  match x with Some _ => false | None => true end.

(** The present (non-NaN) values of a one-dimensional array. *)
Definition present {A} (v : list (option A)) : list A :=
  omap (fun x : option A => x) v.

(** [np.nanmean]: the mean of the present values, NaN when there is none. *)
Definition nanmean (v : list (option Q)) : option Q :=
  match present v with
  | [] => None
  | xs => Some (mean xs)
  end.

End np.

(** ** scikit-learn: the scalers of [sklearn.preprocessing] *)

Module sklearn.

Import np.

(** [check_array]: an estimator refuses an array with no sample or no
    feature. *)
Definition check_array (X : ndarray) : result ndarray :=
  match X with
  | [] => Raise ValueError
  | [] :: _ => Raise ValueError
  | _ => Ok X
  end.

(** [_handle_zeros_in_scale]: a zero scale is replaced by 1 so that a
    constant feature is left alone instead of dividing by zero.  (On
    float64 the library tests the scale against ten machine epsilons; on
    exact rationals the test is against zero.) *)
Definition _handle_zeros_in_scale (scale : Q) : Q :=
  if Qeq_bool scale 0 then 1 else scale.

(** *** MinMaxScaler *)

Record MinMaxScaler : Type := {
  feature_range : Q * Q;
  mm_scale_ : list Q;
  mm_min_ : list Q;
  data_min_ : list Q;
  data_max_ : list Q
}.

(** [MinMaxScaler()] with the default [feature_range=(0, 1)], not fitted. *)
Definition MinMaxScaler_new : MinMaxScaler :=
  {| feature_range := (0, 1); mm_scale_ := []; mm_min_ := [];
     data_min_ := []; data_max_ := [] |}.

(** [fit]: per feature, [scale_ = (hi - lo) / handle_zeros(max - min)] and
    [min_ = lo - data_min * scale_]. *)
Definition MinMaxScaler_fit (self : MinMaxScaler) (X : ndarray)
  : result MinMaxScaler :=
  let* X := check_array X in
  let '(lo, hi) := feature_range self in
  let data_min := map amin (columns X) in
  let data_max := map amax (columns X) in
  let data_range := zip_with Qminus data_max data_min in
  let scale := map (fun r => (hi - lo) / _handle_zeros_in_scale r) data_range in
  let min_ := zip_with (fun mn s => lo - mn * s) data_min scale in
  Ok {| feature_range := (lo, hi); mm_scale_ := scale; mm_min_ := min_;
        data_min_ := data_min; data_max_ := data_max |}.

(** [transform]: [X *= scale_; X += min_], broadcast along the rows. *)
Definition MinMaxScaler_transform (self : MinMaxScaler) (X : ndarray)
  : result ndarray :=
  let* X := check_array X in
  Ok (map (fun row =>
             zip_with Qplus (zip_with Qmult row (mm_scale_ self)) (mm_min_ self))
          X).

(** [fit_transform] fits the estimator and transforms the data it was
    fitted on: it leaves the estimator fitted and returns the array. *)
Definition MinMaxScaler_fit_transform (self : MinMaxScaler) (X : ndarray)
  : result (MinMaxScaler * ndarray) :=
  let* fitted := MinMaxScaler_fit self X in
  let* Y := MinMaxScaler_transform fitted X in
  Ok (fitted, Y).

(** *** RobustScaler *)

Record RobustScaler : Type := {
  quantile_range : Q * Q;
  center_ : list Q;
  rb_scale_ : list Q
}.

(** [RobustScaler()] with the default [quantile_range=(25.0, 75.0)]. *)
Definition RobustScaler_new : RobustScaler :=
  {| quantile_range := (25, 75); center_ := []; rb_scale_ := [] |}.

(** [fit]: per feature, [center_] is the median and [scale_] the difference
    of the two percentiles of [quantile_range], zero scales handled. *)
Definition RobustScaler_fit (self : RobustScaler) (X : ndarray)
  : result RobustScaler :=
  let* X := check_array X in
  let '(q_min, q_max) := quantile_range self in
  let center := map median (columns X) in
  let scale :=
    map (fun c => _handle_zeros_in_scale (percentile c q_max - percentile c q_min))
        (columns X) in
  Ok {| quantile_range := (q_min, q_max); center_ := center; rb_scale_ := scale |}.

(** [transform]: [X -= center_; X /= scale_]. *)
Definition RobustScaler_transform (self : RobustScaler) (X : ndarray)
  : result ndarray :=
  let* X := check_array X in
  Ok (map (fun row =>
             zip_with Qdiv (zip_with Qminus row (center_ self)) (rb_scale_ self))
          X).

Definition RobustScaler_fit_transform (self : RobustScaler) (X : ndarray)
  : result (RobustScaler * ndarray) :=
  let* fitted := RobustScaler_fit self X in
  let* Y := RobustScaler_transform fitted X in
  Ok (fitted, Y).

(** *** StandardScaler (over the reals: the scale is a square root) *)

Definition Rsum (a : list R) : R := fold_right Rplus 0%R a.

Definition Rmean (a : list R) : R := (Rsum a / INR (length a))%R.

(** The population variance [np.var]. *)
Definition Rvar (a : list R) : R :=
  Rmean (map (fun x => ((x - Rmean a) * (x - Rmean a))%R) a).

(** [fit_transform] of [StandardScaler()]: [(X - mean_) / scale_] with
    [scale_ = sqrt(var_)] per feature. *)
Definition StandardScaler_fit_transform (X : ndarray)
  : result (list (list R)) :=
  let* X := check_array X in
  let cols := map (map Q2R) (columns X) in
  Ok (map (fun row =>
             zip_with (fun x c => ((Q2R x - Rmean c) / sqrt (Rvar c))%R) row cols)
          X).

(** *** LabelEncoder and OrdinalEncoder *)

Definition str_le (x y : string) : Prop := String.leb x y = true.

#[global] Instance str_le_dec (x y : string) : Decision (str_le x y).
Proof. unfold str_le. apply _. Defined.

(** The position of [x] in [l]. *)
Fixpoint index_of (x : string) (l : list string) : option nat :=
  match l with
  | [] => None
  | y :: l' => if String.eqb x y then Some 0%nat else S <$> index_of x l'
  end.

Fixpoint sequence {A} (l : list (result A)) : result (list A) :=
  match l with
  | [] => Ok []
  | r :: l' => let* a := r in let* l'' := sequence l' in Ok (a :: l'')
  end.

Definition encode (classes : list string) (x : string) : result Q :=
  match index_of x classes with
  | Some i => Ok (inject_Z (Z.of_nat i))
  | None => Raise ValueError
  end.

(** [LabelEncoder().fit_transform(y)]: [classes_] are the sorted distinct
    labels, and each label is replaced by its position in [classes_]. *)
Definition LabelEncoder_fit_transform (y : list string)
  : result (list string * list Q) :=
  let classes_ := merge_sort str_le (remove_dups y) in
  let* codes := sequence (map (encode classes_) y) in
  Ok (classes_, codes).

(** [OrdinalEncoder(categories=cats).fit_transform(X)]: feature [j] is
    encoded by the position in [cats[j]]; a value outside the given
    categories is an error ([handle_unknown='error']). *)
Definition OrdinalEncoder_fit_transform (cats : list (list string))
    (X : list (list string)) : result ndarray :=
  match X with
  | [] => Raise ValueError
  | row0 :: _ =>
      if negb (Nat.eqb (length cats) (length row0)) then Raise ValueError
      else sequence
             (map (fun row =>
                     if Nat.eqb (length row) (length cats)
                     then sequence (zip_with encode cats row)
                     else Raise ValueError)
                  X)
  end.

(** *** KNNImputer *)

(** The squared [nan_euclidean] distance of two rows: the squared
    differences over the coordinates present in both, scaled by the share
    of such coordinates; NaN when the rows share none.  The distance
    itself is the square root, which orders the same way. *)
Definition nan_sq_dist (x y : list (option Q)) : option Q :=
  let common :=
    omap (fun ab => match ab with
                    | (Some a, Some b) => Some ((a - b) * (a - b))
                    | _ => None
                    end) (zip x y) in
  match common with
  | [] => None
  | _ => Some (inject_Z (Z.of_nat (length x)) / inject_Z (Z.of_nat (length common))
               * np.sum common)
  end.

(** Donors are ordered by distance, the undefined distances last. *)
Definition dist_le (a b : option Q * Q) : Prop :=
  match fst a, fst b with
  | Some x, Some y => x <= y
  | Some _, None => True
  | None, Some _ => False
  | None, None => True
  end.

#[global] Instance dist_le_dec a b : Decision (dist_le a b).
Proof. unfold dist_le. destruct (fst a), (fst b); apply _. Defined.

(** The potential donors of feature [j]: the rows of the fitted data that
    have it, each with its distance to [row] and its value of the
    feature. *)
Definition potential_donors (fit_X : nanarray) (row : list (option Q)) (j : nat)
  : list (option Q * Q) :=
  omap (fun d => match d !! j with
                 | Some (Some v) => Some (nan_sq_dist row d, v)
                 | _ => None
                 end) fit_X.

(** The value imputed for feature [j] of [row]: the mean of the feature
    over the [n_neighbors] nearest donors (uniform weights; a donor at an
    undefined distance weighs nothing), or the mean of the whole feature
    when every distance is undefined.  [np.argpartition] leaves the choice
    among equidistant donors open; here the sort decides. *)
Definition impute_entry (n_neighbors : nat) (fit_X : nanarray)
    (row : list (option Q)) (j : nat) : option Q :=
  let donors := potential_donors fit_X row j in
  if forallb (fun d => is_missing (fst d)) donors
  then nanmean (map (fun r => mjoin (r !! j)) fit_X)
  else
    let nearest := take (Nat.min n_neighbors (length donors)) (merge_sort dist_le donors) in
    let used := filter (fun d => is_missing (fst d) = false) nearest in
    Some (mean (map snd used)).

(** The features that have at least one present value in the fitted data;
    the others are dropped from the output ([keep_empty_features=False]). *)
Definition valid_features (fit_X : nanarray) : list nat :=
  filter (fun j => existsb (fun r => negb (is_missing (mjoin (r !! j)))) fit_X = true)
         (seq 0 (length (hd [] fit_X))).

(** [KNNImputer(n_neighbors=k).fit_transform(X)]: every missing entry of a
    valid feature is imputed from the original data, every present entry is
    copied. *)
Definition KNNImputer_fit_transform (n_neighbors : nat) (X : nanarray)
  : result nanarray :=
  match X with
  | [] => Raise ValueError
  | [] :: _ => Raise ValueError
  | _ =>
      Ok (map (fun row =>
                 map (fun j => match mjoin (row !! j) with
                               | Some v => Some v
                               | None => impute_entry n_neighbors X row j
                               end)
                     (valid_features X))
              X)
  end.

(** *** model_selection: the stratified train/test split *)

(** NumPy's [RandomState], as far as the split uses it.  The generator is
    abstract: the split is specified for whatever [permutation] and
    [choice] deliver. *)
Class RandomState (G : Type) : Type := {
  (** [RandomState(seed)] *)
  seeded : Z -> G;
  (** [rng.permutation(n)]: a permutation of [range(n)] *)
  permutation : G -> nat -> list nat * G;
  (** [rng.choice(a, size=k, replace=False)] *)
  choice : G -> list nat -> nat -> list nat * G
}.

(** [a.take(idx, mode='clip')] *)
Definition take_clip (a : list nat) (idx : list nat) : list nat :=
  map (fun i => nth (Nat.min i (length a - 1)) a 0%nat) idx.

(** [rng.permutation(x)] for an array [x]: a shuffled copy. *)
Definition shuffled {G} `{RandomState G} (g : G) (x : list nat) : list nat * G :=
  let (p, g') := permutation g (length x) in (take_clip x p, g').

Definition nat_sum (l : list nat) : nat := fold_right Nat.add 0%nat l.

Definition Qnat (n : nat) : Q := inject_Z (Z.of_nat n).

(** [floored[inds] += 1] *)
Definition increment (floored : list nat) (inds : list nat) : list nat :=
  imap (fun i f => if bool_decide (i ∈ inds) then S f else f) floored.

(** [_approximate_mode(class_counts, n_draws, rng)]: the draws are shared
    out in proportion to the class counts, rounded down; what is left is
    given to the classes with the largest remainders, ties resolved by the
    generator. *)
Definition _approximate_mode {G} `{RandomState G}
    (class_counts : list nat) (n_draws : nat) (g : G) : list nat * G :=
  let total := Qnat (nat_sum class_counts) in
  let continuous := map (fun c => Qnat c / total * Qnat n_draws) class_counts in
  let floored := map (fun x => Z.to_nat (Qfloor x)) continuous in
  let need_to_add := (n_draws - nat_sum floored)%nat in
  if Nat.eqb need_to_add 0 then (floored, g)
  else
    let remainder := zip_with (fun x f => Qred (x - Qnat f)) continuous floored in
    let values := reverse (np.sort (remove_dups remainder)) in
    let '(floored, _, g) :=
      fold_left
        (fun st value =>
           let '(floored, need, g) := st in
           if Nat.eqb need 0 then st
           else
             let inds :=
               filter (fun i => Qeq_bool (nth i remainder 0) value = true)
                      (seq 0 (length remainder)) in
             let add_now := Nat.min (length inds) need in
             let (chosen, g') := choice g inds add_now in
             (increment floored chosen, (need - add_now)%nat, g'))
        values (floored, need_to_add, g) in
    (floored, g).

(** The samples of each class, in increasing order: what the stable
    [np.argsort] of the labels, split at the class boundaries, yields. *)
Definition class_indices (y : list nat) (classes : list nat) : list (list nat) :=
  map (fun c => filter (fun i => y !! i = Some c) (seq 0 (length y))) classes.

(** One class after the other: a permutation of the class, its first
    [n_i] samples to the training set, the next [t_i] to the test set. *)
Fixpoint assign_classes {G} `{RandomState G} (g : G)
    (per_class : list (list nat * (nat * nat)))
  : (list nat * list nat) * G :=
  match per_class with
  | [] => (([], []), g)
  | (indices, (n_i, t_i)) :: rest =>
      let (p, g1) := permutation g (length indices) in
      let perm_indices := take_clip indices p in
      let '((train, test), g2) := assign_classes g1 rest in
      ((take n_i perm_indices ++ train,
        take t_i (drop n_i perm_indices) ++ test), g2)
  end.

(** The first split of [StratifiedShuffleSplit(test_size=n_test,
    train_size=n_train, random_state=g)] on the labels [y]. *)
Definition StratifiedShuffleSplit_split {G} `{RandomState G} (g : G)
    (y : list nat) (n_train n_test : nat) : result (list nat * list nat) :=
  let classes := merge_sort le (remove_dups y) in
  let n_classes := length classes in
  let class_counts := map (fun c => length (filter (fun l => l = c) y)) classes in
  if decide (foldr Nat.min (hd 0%nat class_counts) class_counts < 2)%nat
  then Raise ValueError
  else if decide (n_train < n_classes)%nat then Raise ValueError
  else if decide (n_test < n_classes)%nat then Raise ValueError
  else
    let (n_i, g1) := _approximate_mode class_counts n_train g in
    let class_counts_remaining := zip_with Nat.sub class_counts n_i in
    let (t_i, g2) := _approximate_mode class_counts_remaining n_test g1 in
    let '((train, test), g3) :=
      assign_classes g2 (zip (class_indices y classes) (zip n_i t_i)) in
    let (train, g4) := shuffled g3 train in
    let (test, _) := shuffled g4 test in
    Ok (train, test).

(** [_validate_shuffle_split] for a fractional [test_size] and no
    [train_size]: the test set gets the ceiling of its share. *)
Definition _validate_shuffle_split (n_samples : nat) (test_size : Q)
  : result (nat * nat) :=
  if Qle_bool test_size 0 || Qle_bool 1 test_size then Raise ValueError
  else
    let n_test := Z.to_nat (Qceiling (test_size * Qnat n_samples)) in
    let n_train := (n_samples - n_test)%nat in
    if Nat.eqb n_train 0 then Raise ValueError else Ok (n_train, n_test).

(** [_safe_indexing(a, indices)] *)
Definition _safe_indexing {A} (a : list A) (indices : list nat) : list A :=
  omap (fun i => a !! i) indices.

(** The index sets [train_test_split(X, y, test_size=..., stratify=...,
    random_state=seed)] selects. *)
Definition split_indices {G} `{RandomState G} (n_samples : nat) (test_size : Q)
    (stratify : list nat) (seed : Z) : result (list nat * list nat) :=
  if negb (Nat.eqb (length stratify) n_samples) then Raise ValueError
  else
    let* sizes := _validate_shuffle_split n_samples test_size in
    StratifiedShuffleSplit_split (seeded seed) stratify (fst sizes) (snd sizes).

(** [train_test_split(X, y, test_size=..., stratify=..., random_state=seed)]
    returns [X_train, X_test, y_train, y_test]. *)
Definition train_test_split {G} `{RandomState G} {A B} (X : list A) (y : list B)
    (test_size : Q) (stratify : list nat) (seed : Z)
  : result ((list A * list A) * (list B * list B)) :=
  if negb (Nat.eqb (length y) (length X)) then Raise ValueError
  else
    let* idx := split_indices (length X) test_size stratify seed in
    let (train, test) := idx in
    Ok ((_safe_indexing X train, _safe_indexing X test),
        (_safe_indexing y train, _safe_indexing y test)).

(** [accuracy_score(y_true, y_pred)]: the share of equal labels. *)
Definition accuracy_score (y_true y_pred : list nat) : result Q :=
  if negb (Nat.eqb (length y_true) (length y_pred)) then Raise ValueError
  else match y_true with
       | [] => Raise ValueError
       | _ => Ok (Qnat (length (filter (fun p => fst p = snd p) (zip y_true y_pred)))
                  / Qnat (length y_true))
       end.

(** [load_iris().target]: 150 samples, the three species in blocks of 50. *)
Definition iris_target : list nat :=
  replicate 50 0%nat ++ replicate 50 1%nat ++ replicate 50 2%nat.

End sklearn.


(** ** pandas: Series, DataFrame and the routines the cells call *)

Module pd.

Import np.
Import sklearn (str_le, sequence, Qnat).

Record Timestamp : Type := mkTimestamp {
  year : Z; month : Z; day : Z; hour : Z; minute : Z; second : Z
}.

(** A Python scalar as it is read from, or written to, a table. *)
Inductive scalar : Type :=
| SNum (q : Q)
| SStr (s : string)
| SBool (b : bool)
| STime (t : Timestamp)
| SReal (r : R)
| SNaN.

(** A Series with the default [RangeIndex], by dtype.  [Numeric] stands for
    int64 and float64, [Object] for a column of [str]; in both a missing
    value (NaN) is [None].  [Real] is a float64 column whose entries come
    out of [np.sin] / [np.cos]. *)
Inductive Series : Type :=
| Numeric (values : list (option Q))
| Object (values : list (option string))
| Boolean (values : list bool)
| Datetime (values : list Timestamp)
| Real (values : list (option R)).

Definition size (s : Series) : nat :=
  match s with
  | Numeric v => length v
  | Object v => length v
  | Boolean v => length v
  | Datetime v => length v
  | Real v => length v
  end.

Definition num_scalar (x : option Q) : scalar :=
  match x with Some q => SNum q | None => SNaN end.
Definition str_scalar (x : option string) : scalar :=
  match x with Some s => SStr s | None => SNaN end.
Definition real_scalar (x : option R) : scalar :=
  match x with Some r => SReal r | None => SNaN end.

(** [s.iloc[i]]: the entry at position [i], if there is one. *)
Definition iloc (s : Series) (i : nat) : option scalar :=
  match s with
  | Numeric v => num_scalar <$> v !! i
  | Object v => str_scalar <$> v !! i
  | Boolean v => SBool <$> v !! i
  | Datetime v => STime <$> v !! i
  | Real v => real_scalar <$> v !! i
  end.

(** [s.isnull()]. *)
Definition isnull (s : Series) : list bool :=
  match s with
  | Numeric v => map is_missing v
  | Object v => map is_missing v
  | Boolean v => map (fun _ => false) v
  | Datetime v => map (fun _ => false) v
  | Real v => map is_missing v
  end.

(** A Series whose index is a list of [str] labels: what
    [groupby(...).mean()] and [value_counts()] return. *)
Abbreviation Labelled := (list (string * option Q)).

Definition label_lookup (m : Labelled) (k : string) : option Q :=
  match find (fun kv => String.eqb (fst kv) k) m with
  | Some kv => snd kv
  | None => None
  end.

(** A DataFrame: the length of its [RangeIndex] and its columns, in
    order. *)
Record DataFrame : Type := mkFrame {
  n_rows : nat;
  cols : list (string * Series)
}.

Definition column_names (df : DataFrame) : list string := map fst (cols df).

(** A frame as pandas builds it from a dict: every column is as long as
    the index, and no two columns share a name. *)
Definition well_formed (df : DataFrame) : bool :=
  forallb (fun c => Nat.eqb (size (snd c)) (n_rows df)) (cols df)
  && bool_decide (NoDup (column_names df)).

(** [pd.DataFrame(data)] from a dict of columns. *)
Definition DataFrame_new (data : list (string * Series)) : result DataFrame :=
  match data with
  | [] => Ok (mkFrame 0 [])
  | (_, s) :: _ =>
      if forallb (fun c => Nat.eqb (size (snd c)) (size s)) data
      then Ok (mkFrame (size s) data)
      else Raise ValueError
  end.

Definition find_col (cs : list (string * Series)) (col : string) : option Series :=
  snd <$> find (fun c => String.eqb (fst c) col) cs.

(** [df[col]]. *)
Definition getitem (df : DataFrame) (col : string) : result Series :=
  match find_col (cols df) col with
  | Some s => Ok s
  | None => Raise KeyError
  end.

Fixpoint update_col (cs : list (string * Series)) (col : string) (s : Series)
  : list (string * Series) :=
  match cs with
  | [] => [(col, s)]
  | (c, old) :: cs' =>
      if String.eqb c col then (c, s) :: cs' else (c, old) :: update_col cs' col s
  end.

(** [df[col] = s]: the column is replaced in place, or appended when new.
    The cells only assign Series computed from the frame's own columns,
    which carry the frame's index; a Series of another length would be
    re-indexed by pandas, which is not modelled and reported as
    [ValueError]. *)
Definition setitem (df : DataFrame) (col : string) (s : Series)
  : result DataFrame :=
  match cols df with
  | [] => Ok (mkFrame (size s) [(col, s)])
  | _ =>
      if Nat.eqb (size s) (n_rows df)
      then Ok (mkFrame (n_rows df) (update_col (cols df) col s))
      else Raise ValueError
  end.

(** [df.at[i, col]]: one entry of the table. *)
Definition entry (df : DataFrame) (col : string) (i : nat) : option scalar :=
  match find_col (cols df) col with
  | Some s => iloc s i
  | None => None
  end.

(** *** Order and de-duplication of labels *)

(** The distinct labels of a column, sorted: the groups of [groupby], the
    categories of [get_dummies]. *)
Definition categories (v : list (option string)) : list string :=
  merge_sort str_le (remove_dups (present v)).

Definition count_label (v : list (option string)) (k : string) : nat :=
  length (filter (fun x => x = Some k) v).

(** *** Reductions *)

Definition bool_num (b : bool) : option Q := Some (if b then 1 else 0).

(** [s.mean()].  A column of [str] cannot be averaged; a column of
    timestamps can in pandas, which is not modelled. *)
Definition Series_mean (s : Series) : result scalar :=
  match s with
  | Numeric v => Ok (num_scalar (nanmean v))
  | Boolean v => Ok (num_scalar (nanmean (map bool_num v)))
  | Object v => match present v with [] => Ok SNaN | _ => Raise TypeError end
  | Datetime _ => Raise TypeError
  | Real v =>
      Ok (match present v with
          | [] => SNaN
          | xs => SReal (fold_right Rplus 0%R xs / INR (length xs))%R
          end)
  end.

(** [s.mode()]: the most frequent present values, sorted; empty when all
    values are missing.  (Modes of timestamps and of [Real] columns are not
    modelled.) *)
Definition mode_labels (v : list (option string)) : list string :=
  let cats := categories v in
  let best := max_list (map (count_label v) cats) in
  filter (fun k => count_label v k = best) cats.

Definition count_value (v : list (option Q)) (q : Q) : nat :=
  length (filter (fun x => Qeq_bool x q = true) (present v)).

Definition distinct_values (v : list (option Q)) : list Q :=
  sort (remove_dups (map Qred (present v))).

Definition mode_values (v : list (option Q)) : list Q :=
  let vals := distinct_values v in
  let best := max_list (map (count_value v) vals) in
  filter (fun q => count_value v q = best) vals.

Definition mode_bools (v : list bool) : list bool :=
  let t := length (filter (fun b => b = true) v) in
  let f := length (filter (fun b => b = false) v) in
  match v with
  | [] => []
  | _ => (if decide (t <= f)%nat then [false] else [])
         ++ (if decide (f <= t)%nat then [true] else [])
  end.

Definition Series_mode (s : Series) : result Series :=
  match s with
  | Numeric v => Ok (Numeric (map Some (mode_values v)))
  | Object v => Ok (Object (map Some (mode_labels v)))
  | Boolean v => Ok (Boolean (mode_bools v))
  | Datetime _ => Raise TypeError
  | Real _ => Raise TypeError
  end.

(** [s[0]] on the default index: the label 0 must exist. *)
Definition Series_getitem0 (s : Series) : result scalar :=
  match iloc s 0 with
  | Some x => Ok x
  | None => Raise KeyError
  end.

Definition fill {A} (value : A) (x : option A) : option A :=
  match x with Some _ => x | None => Some value end.

(** [s.fillna(value)].  A NaN fill value fills nothing.  A fill value of a
    type foreign to the column would turn it into an object column of
    mixed content, which is not modelled. *)
Definition Series_fillna (s : Series) (value : scalar) : result Series :=
  match s, value with
  | _, SNaN => Ok s
  | Numeric v, SNum q => Ok (Numeric (map (fill q) v))
  | Object v, SStr k => Ok (Object (map (fill k) v))
  | Real v, SReal r => Ok (Real (map (fill r) v))
  | Real v, SNum q => Ok (Real (map (fill (Q2R q)) v))
  | Boolean _, _ => Ok s
  | Datetime _, _ => Ok s
  | _, _ => Raise TypeError
  end.

(** *** Group-by, value counts and map *)

Definition as_numeric (s : Series) : result (list (option Q)) :=
  match s with
  | Numeric v => Ok v
  | Boolean v => Ok (map bool_num v)
  | _ => Raise TypeError
  end.

(** The target values of the rows whose key is [k]. *)
Definition group_values (keys : list (option string)) (vals : list (option Q))
    (k : string) : list (option Q) :=
  map snd (filter (fun kv => fst kv = Some k) (zip keys vals)).

(** [df.groupby(by)]: a lazy grouping of the frame by the key column.
    (Keys other than [str] are not modelled.) *)
Record DataFrameGroupBy : Type := mkGroupBy {
  grouped : DataFrame;
  keys : list (option string)
}.

Definition groupby (df : DataFrame) (by_ : string) : result DataFrameGroupBy :=
  let* ks := getitem df by_ in
  match ks with
  | Object keys => Ok (mkGroupBy df keys)
  | _ => Raise TypeError
  end.

(** [g[col]]: the grouping restricted to one column. *)
Record SeriesGroupBy : Type := mkSeriesGroupBy {
  group_keys : list (option string);
  selected : Series
}.

Definition GroupBy_getitem (g : DataFrameGroupBy) (col : string)
  : result SeriesGroupBy :=
  let* vs := getitem (grouped g) col in
  Ok (mkSeriesGroupBy (keys g) vs).

(** [sg.mean()]: one entry per distinct present key, in sorted order,
    holding the mean of the present values of that group. *)
Definition SeriesGroupBy_mean (sg : SeriesGroupBy) : result Labelled :=
  let* vals := as_numeric (selected sg) in
  Ok (map (fun k => (k, nanmean (group_values (group_keys sg) vals k)))
          (categories (group_keys sg))).

Definition count_ge (v : list (option string)) (a b : string) : Prop :=
  (count_label v b <= count_label v a)%nat.

#[global] Instance count_ge_dec v a b : Decision (count_ge v a b).
Proof. unfold count_ge. apply _. Defined.

(** [s.value_counts()]: the number of occurrences of each present label,
    most frequent first.  (Labels other than [str] are not modelled.) *)
Definition value_counts (s : Series) : result Labelled :=
  match s with
  | Object v =>
      Ok (map (fun k => (k, Some (inject_Z (Z.of_nat (count_label v k)))))
              (merge_sort (count_ge v) (remove_dups (present v))))
  | _ => Raise TypeError
  end.

(** [s.map(m)] with a labelled Series [m]: each label is replaced by the
    value [m] holds for it, NaN when [m] has none or the label is missing. *)
Definition Series_map (s : Series) (m : Labelled) : result Series :=
  match s with
  | Object v => Ok (Numeric (map (fun x => x ≫= label_lookup m) v))
  | _ => Raise TypeError
  end.

(** *** One-hot encoding *)

(** [pd.get_dummies(s)]: one boolean column per category, in sorted order;
    a missing entry gets [False] everywhere ([dummy_na=False]).
    (Categories other than [str] are not modelled.) *)
Definition get_dummies (s : Series) : result DataFrame :=
  match s with
  | Object v =>
      Ok (mkFrame (length v)
            (map (fun c => (c, Boolean (map (fun x => bool_decide (x = Some c)) v)))
                 (categories v)))
  | _ => Raise TypeError
  end.

(** *** Missing values in a frame *)

(** [df.isnull()]: the mask of the missing entries, column by column. *)
Definition DataFrame_isnull (df : DataFrame) : list (string * list bool) :=
  map (fun c => (fst c, isnull (snd c))) (cols df).

(** [mask.sum()]: the number of [True] entries of each column. *)
Definition mask_sum (mask : list (string * list bool)) : list (string * nat) :=
  map (fun c => (fst c, length (filter (fun b => b = true) (snd c)))) mask.

(** The rows of a Series selected by a boolean mask. *)
Definition select {A} (mask : list bool) (v : list A) : list A :=
  map snd (filter (fun bx => fst bx = true) (zip mask v)).

Definition Series_select (mask : list bool) (s : Series) : Series :=
  match s with
  | Numeric v => Numeric (select mask v)
  | Object v => Object (select mask v)
  | Boolean v => Boolean (select mask v)
  | Datetime v => Datetime (select mask v)
  | Real v => Real (select mask v)
  end.

(** [df.dropna()]: the rows without any missing entry.  (The frame that
    comes back keeps the labels of the surviving rows in pandas; here it
    is re-indexed.) *)
Definition dropna (df : DataFrame) : DataFrame :=
  let complete :=
    map (fun i => forallb (fun c => negb (nth i (isnull (snd c)) false)) (cols df))
        (seq 0 (n_rows df)) in
  mkFrame (length (filter (fun b => b = true) complete))
          (map (fun c => (fst c, Series_select complete (snd c))) (cols df)).

(** [df.dropna(axis=1, thresh=t)]: the columns with at least [t] present
    entries. *)
Definition dropna_columns (df : DataFrame) (thresh : nat) : DataFrame :=
  mkFrame (n_rows df)
          (filter (fun c => (thresh <= length (filter (fun b => b = false) (isnull (snd c))))%nat)
                  (cols df)).

(** [int(len(df) * 0.5)] *)
Definition half_len (df : DataFrame) : nat :=
  Z.to_nat (Qfloor (Qnat (n_rows df) * (1 # 2))).

(** [df.select_dtypes(include=['float64', 'int64']).columns] *)
Definition numeric_columns (df : DataFrame) : list string :=
  omap (fun c => match snd c with Numeric _ => Some (fst c) | _ => None end)
       (cols df).

(** [df[names]]: the sub-frame of the listed columns. *)
Definition getitems (df : DataFrame) (names : list string) : result DataFrame :=
  let* cs := sequence (map (fun n => let* s := getitem df n in Ok (n, s)) names) in
  Ok (mkFrame (n_rows df) cs).

(** The float array behind a frame, as an estimator reads it. *)
Definition to_numpy (df : DataFrame) : result nanarray :=
  let* columns := sequence (map (fun c => as_numeric (snd c)) (cols df)) in
  Ok (map (fun i => map (fun c => mjoin (c !! i)) columns) (seq 0 (n_rows df))).

(** [pd.DataFrame(a, columns=names)] from a two-dimensional array: the
    number of names must be the number of columns of the array. *)
Definition DataFrame_from_array (a : nanarray) (names : list string)
  : result DataFrame :=
  if forallb (fun row => Nat.eqb (length row) (length names)) a
  then Ok (mkFrame (length a)
             (imap (fun j n => (n, Numeric (map (fun row => mjoin (row !! j)) a)))
                   names))
  else Raise ValueError.

(** [df[names] = value]: the columns of [value] are assigned, in order, to
    the listed columns of [df]. *)
Fixpoint assign_columns (df : DataFrame) (names : list string)
    (value : list (string * Series)) : result DataFrame :=
  match names, value with
  | [], [] => Ok df
  | n :: names', (_, s) :: value' =>
      let* df' := setitem df n s in assign_columns df' names' value'
  | _, _ => Raise ValueError
  end.

Definition setitems (df : DataFrame) (names : list string) (value : DataFrame)
  : result DataFrame :=
  if Nat.eqb (length names) (length (cols value))
  then assign_columns df names (cols value)
  else Raise ValueError.

(** *** Timestamps *)

Definition digit (c : ascii) : option Z :=
  let n := nat_of_ascii c in
  if (48 <=? n)%nat && (n <=? 57)%nat then Some (Z.of_nat (n - 48)) else None.

Definition number (cs : list ascii) : option Z :=
  foldl (fun acc c => a ← acc; d ← digit c; Some (10 * a + d)%Z) (Some 0%Z) cs.

Definition is_leap (y : Z) : bool :=
  ((y mod 4 =? 0) && negb (y mod 100 =? 0) || (y mod 400 =? 0))%Z.

Definition days_in_month (y m : Z) : Z :=
  if (m =? 2)%Z then (if is_leap y then 29 else 28)%Z
  else if ((m =? 4) || (m =? 6) || (m =? 9) || (m =? 11))%Z then 30%Z
  else 31%Z.

Definition valid_timestamp (t : Timestamp) : bool :=
  ((1 <=? month t) && (month t <=? 12)
   && (1 <=? day t) && (day t <=? days_in_month (year t) (month t))
   && (hour t <=? 23) && (minute t <=? 59) && (second t <=? 59))%Z.

(** One string of the form [YYYY-MM-DD HH:MM:SS], the form the notebook
    uses; the other forms [pd.to_datetime] understands are not
    modelled. *)
Definition parse_timestamp (s : string) : result Timestamp :=
  match list_ascii_of_string s with
  | [y1; y2; y3; y4; "-"; m1; m2; "-"; d1; d2; " ";
     h1; h2; ":"; n1; n2; ":"; s1; s2]%char =>
      match number [y1; y2; y3; y4], number [m1; m2], number [d1; d2],
            number [h1; h2], number [n1; n2], number [s1; s2] with
      | Some y, Some m, Some d, Some h, Some n, Some sec =>
          let t := mkTimestamp y m d h n sec in
          if valid_timestamp t then Ok t else Raise ValueError
      | _, _, _, _, _, _ => Raise ValueError
      end
  | _ => Raise ValueError
  end.

(** [pd.to_datetime(strings)] *)
Definition to_datetime (l : list string) : result Series :=
  let* ts := sequence (map parse_timestamp l) in Ok (Datetime ts).

(** Days since 1970-01-01 in the proleptic Gregorian calendar. *)
Definition days_from_civil (y m d : Z) : Z :=
  let y := (if m <=? 2 then y - 1 else y)%Z in
  let era := (y / 400)%Z in
  let yoe := (y - era * 400)%Z in
  let doy := ((153 * (if m >? 2 then m - 3 else m + 9) + 2) / 5 + d - 1)%Z in
  let doe := (yoe * 365 + yoe / 4 - yoe / 100 + doy)%Z in
  (era * 146097 + doe - 719468)%Z.

(** [Timestamp.weekday()]: Monday is 0, Sunday is 6. *)
Definition weekday (t : Timestamp) : Z :=
  ((days_from_civil (year t) (month t) (day t) + 3) mod 7)%Z.

(** [s.dt.year], [s.dt.month], ...: one integer column out of a column of
    timestamps. *)
Definition dt (field : Timestamp -> Z) (s : Series) : result Series :=
  match s with
  | Datetime v => Ok (Numeric (map (fun t => Some (inject_Z (field t))) v))
  | _ => Raise TypeError
  end.

(** *** Arithmetic on a column, and NumPy's universal functions *)

(** [c * s] for a Python float [c]. *)
Definition Series_rmul (c : R) (s : Series) : result Series :=
  match s with
  | Numeric v => Ok (Real (map (fun x => (fun q => (c * Q2R q)%R) <$> x) v))
  | Real v => Ok (Real (map (fun x => (fun r => (c * r)%R) <$> x) v))
  | Boolean v => Ok (Real (map (fun b : bool => Some (if b then c else 0%R)) v))
  | _ => Raise TypeError
  end.

(** [s / k] for a Python int [k].  pandas answers a zero divisor with
    [inf], which the model does not have: it is reported as
    [ZeroDivisionError]. *)
Definition Series_truediv (s : Series) (k : Z) : result Series :=
  if (k =? 0)%Z then Raise ZeroDivisionError
  else match s with
       | Numeric v => Ok (Numeric (map (fun x => (fun q => q / inject_Z k) <$> x) v))
       | Real v => Ok (Real (map (fun x => (fun r => (r / IZR k)%R) <$> x) v))
       | _ => Raise TypeError
       end.

(** [np.sin(s)], [np.cos(s)]: element by element. *)
Definition ufunc (f : R -> R) (s : Series) : result Series :=
  match s with
  | Numeric v => Ok (Real (map (fun x => (fun q => f (Q2R q)) <$> x) v))
  | Real v => Ok (Real (map (fun x => f <$> x) v))
  | _ => Raise TypeError
  end.

End pd.

(** ** The notebook kernel and the code cells *)

Module Notebook.

Import np sklearn pd.

Open Scope string_scope.

(** Estimator objects, with the state [fit] leaves in them. *)
Inductive estimator : Type :=
| EMinMax (s : MinMaxScaler)
| EStandard (fitted : bool)
| ERobust (s : RobustScaler)
| ELabel (classes_ : list string)
| EOrdinal (categories : list (list string))
| EKNN (n_neighbors : nat) (fit_X : option nanarray)
| ELogistic (max_iter : nat)
| EKFold (n_splits : nat) (random_state : Z)
| EGrid (max_iter : nat) (param_grid : list Q) (n_splits : nat)
        (random_state : Z) (best : option (Q * (ndarray -> list nat))).

(** The Python objects the cells bind to names or print. *)
Inductive obj : Type :=
| PyModule (name : string)
| PyCallable (name : string)
| Frame (df : DataFrame)
| Column (s : Series)
| Table (m : Labelled)
| Counts (c : list (string * nat))
| Names (l : list string)
| ColumnDict (d : list (string * Series))
| Array (a : ndarray)
| RealArray (a : list (list R))
| Vector (a : list Q)
| Labels (y : list nat)
| StrList (l : list string)
| StrRows (l : list (list string))
| ParamGrid (C : list Q)
| Bunch (data : ndarray) (target : list nat)
| Estimator (e : estimator)
| Predictor (predict : ndarray -> list nat)
| Text (s : string)
| Number (q : Q)
| Figure (title : string) (mask : list (string * list bool)).

(** What a library call is for in a cell: building an input or an
    estimator, selecting from or assigning into a table, transforming
    data, or showing a result. *)
Inductive role : Type := Construct | Access | Transform | Output.

#[global] Instance role_eq_dec : EqDecision role.
Proof. solve_decision. Defined.

(** The kernel: the global namespace binds names to objects on the heap;
    [stdout] and [calls] collect what the running cell prints and which
    library routines it invokes. *)
Record kernel : Type := mkKernel {
  globals : gmap string nat;
  heap : list obj;
  stdout : list obj;
  calls : list (role * string)
}.

(** A fresh kernel. *)
Definition fresh : kernel := mkKernel ∅ [] [] [].

(** Code running in the kernel: it yields a value or raises, and leaves
    the kernel in a new state either way. *)
Definition Cell (A : Type) : Type := kernel -> result A * kernel.

#[global] Instance Cell_ret : MRet Cell := fun A a k => (Ok a, k).

#[global] Instance Cell_bind : MBind Cell := fun A B f m k =>
  match m k with
  | (Ok a, k') => f a k'
  | (Raise e, k') => (Raise e, k')
  end.

(** A call into a library routine: it is recorded, then its result (or
    exception) is the cell's. *)
Definition logged (r : role) (routine : string) (k : kernel) : kernel :=
  mkKernel (globals k) (heap k) (stdout k) (calls k ++ [(r, routine)]).

Definition call {A} (r : role) (routine : string) (res : result A) : Cell A :=
  fun k => (res, logged r routine k).

(** An operation of the Python language itself (attribute access on an
    object of the wrong kind, [int(...)], arithmetic on floats). *)
Definition python {A} (res : result A) : Cell A := fun k => (res, k).

(** The object a name stands for. *)
Definition value_of (k : kernel) (x : string) : option obj :=
  l ← globals k !! x; heap k !! l.

(** Reading the name [x]. *)
Definition load (x : string) : Cell obj := fun k =>
  match value_of k x with
  | Some v => (Ok v, k)
  | None => (Raise NameError, k)
  end.

(** [x = v]: a new object is allocated and the name is bound to it. *)
Definition alloc (x : string) (v : obj) (k : kernel) : kernel :=
  mkKernel (<[x := length (heap k)]> (globals k)) (heap k ++ [v])
           (stdout k) (calls k).

Definition store (x : string) (v : obj) : Cell unit := fun k => (Ok tt, alloc x v k).

(** The object bound to [x] is changed in place ([x[col] = ...], or a
    method that updates its receiver). *)
Definition updated (l : nat) (v : obj) (k : kernel) : kernel :=
  mkKernel (globals k) (<[l := v]> (heap k)) (stdout k) (calls k).

Definition mutate (x : string) (v : obj) : Cell unit := fun k =>
  match globals k !! x with
  | Some l =>
      if decide (l < length (heap k))%nat
      then (Ok tt, updated l v k)
      else (Raise NameError, k)
  | None => (Raise NameError, k)
  end.

(** Output shown under the cell. *)
Definition shown (vs : list obj) (k : kernel) : kernel :=
  mkKernel (globals k) (heap k) (stdout k ++ vs) (calls k).

Definition display (vs : list obj) : Cell unit := fun k => (Ok tt, shown vs k).

(** [import module as x] and [from module import x] *)
Definition import_as (module x : string) : Cell unit := store x (PyModule module).
Definition from_import (module x : string) : Cell unit :=
  store x (PyCallable (module ++ "." ++ x)).

(** A name that is only dereferenced ([np.array], [pd.DataFrame], a
    class that is instantiated). *)
Definition use (x : string) : Cell unit := _ ← load x; mret tt.

(** *** Objects of the expected kind *)

Definition as_frame (o : obj) : result DataFrame :=
  match o with Frame df => Ok df | _ => Raise AttributeError end.
Definition as_table (o : obj) : result Labelled :=
  match o with Table m => Ok m | _ => Raise TypeError end.
Definition as_array (o : obj) : result ndarray :=
  match o with Array a => Ok a | _ => Raise ValueError end.
Definition as_labels (o : obj) : result (list nat) :=
  match o with Labels y => Ok y | _ => Raise ValueError end.
Definition as_strlist (o : obj) : result (list string) :=
  match o with StrList l => Ok l | _ => Raise ValueError end.
Definition as_strrows (o : obj) : result (list (list string)) :=
  match o with StrRows l => Ok l | _ => Raise ValueError end.
Definition as_names (o : obj) : result (list string) :=
  match o with Names l => Ok l | _ => Raise KeyError end.
Definition as_dict (o : obj) : result (list (string * Series)) :=
  match o with ColumnDict d => Ok d | _ => Raise ValueError end.
Definition as_estimator (o : obj) : result estimator :=
  match o with Estimator e => Ok e | _ => Raise AttributeError end.
Definition as_bunch (o : obj) : result (ndarray * list nat) :=
  match o with Bunch X y => Ok (X, y) | _ => Raise AttributeError end.
Definition as_predictor (o : obj) : result (ndarray -> list nat) :=
  match o with Predictor f => Ok f | _ => Raise AttributeError end.

Definition load_frame (x : string) : Cell DataFrame :=
  v ← load x; python (as_frame v).

(** [x[col]] for a frame bound to [x] *)
Definition column_of (x col : string) : Cell Series :=
  df ← load_frame x; call Access "DataFrame.__getitem__" (getitem df col).

(** [x[col] = s] for a frame bound to [x]: the frame is updated in place. *)
Definition set_column (x col : string) (s : Series) : Cell unit :=
  df ← load_frame x;
  df' ← call Access "DataFrame.__setitem__" (setitem df col s);
  mutate x (Frame df').

(** [print(v, ...)] *)
Definition print (vs : list obj) : Cell unit :=
  call Output "print" (Ok tt) ;; display vs.

(** *** numeric_scaling.ipynb *)

Definition data_scaling : list (list Q) :=
  [[10; 1000]; [15; 1500]; [20; 2000]; [25; 2500]; [30; 3000]].

Definition data_outlier : list (list Q) :=
  [[10; 1000]; [15; 1500]; [20; 2000]; [25; 2500]; [1000; 3000]].

(** <<
from sklearn.preprocessing import MinMaxScaler
import numpy as np
data = np.array([[10, 1000], [15, 1500], [20, 2000], [25, 2500], [30, 3000]])
scaler = MinMaxScaler()
scaled_data = scaler.fit_transform(data)
print(scaled_data)
>> *)
Definition minmax_cell : Cell unit :=
  from_import "sklearn.preprocessing" "MinMaxScaler" ;;
  import_as "numpy" "np" ;;
  use "np" ;;
  data ← call Construct "np.array" (np.array data_scaling) ;
  store "data" (Array data) ;;
  use "MinMaxScaler" ;;
  scaler ← call Construct "MinMaxScaler" (Ok MinMaxScaler_new) ;
  store "scaler" (Estimator (EMinMax scaler)) ;;
  scaler ← load "scaler" ;
  self ← python (match scaler with
                 | Estimator (EMinMax s) => Ok s
                 | _ => Raise AttributeError
                 end) ;
  data ← load "data" ;
  out ← call Transform "MinMaxScaler.fit_transform"
          (let* X := as_array data in MinMaxScaler_fit_transform self X) ;
  mutate "scaler" (Estimator (EMinMax (fst out))) ;;
  store "scaled_data" (Array (snd out)) ;;
  v ← load "scaled_data" ;
  print [v].

(** <<
from sklearn.preprocessing import StandardScaler
import numpy as np
data = np.array([[10, 1000], [15, 1500], [20, 2000], [25, 2500], [30, 3000]])
scaler = StandardScaler()
scaled_data = scaler.fit_transform(data)
print(scaled_data)
>> *)
Definition standard_cell : Cell unit :=
  from_import "sklearn.preprocessing" "StandardScaler" ;;
  import_as "numpy" "np" ;;
  use "np" ;;
  data ← call Construct "np.array" (np.array data_scaling) ;
  store "data" (Array data) ;;
  use "StandardScaler" ;;
  scaler ← call Construct "StandardScaler" (Ok (EStandard false)) ;
  store "scaler" (Estimator scaler) ;;
  scaler ← load "scaler" ;
  _ ← python (match scaler with
              | Estimator (EStandard _) => Ok tt
              | _ => Raise AttributeError
              end) ;
  data ← load "data" ;
  out ← call Transform "StandardScaler.fit_transform"
          (let* X := as_array data in StandardScaler_fit_transform X) ;
  mutate "scaler" (Estimator (EStandard true)) ;;
  store "scaled_data" (RealArray out) ;;
  v ← load "scaled_data" ;
  print [v].

(** <<
from sklearn.preprocessing import RobustScaler
import numpy as np
data = np.array([[10, 1000], [15, 1500], [20, 2000], [25, 2500], [1000, 3000]])
scaler = RobustScaler()
scaled_data = scaler.fit_transform(data)
print(scaled_data)
>> *)
Definition robust_cell : Cell unit :=
  from_import "sklearn.preprocessing" "RobustScaler" ;;
  import_as "numpy" "np" ;;
  use "np" ;;
  data ← call Construct "np.array" (np.array data_outlier) ;
  store "data" (Array data) ;;
  use "RobustScaler" ;;
  scaler ← call Construct "RobustScaler" (Ok RobustScaler_new) ;
  store "scaler" (Estimator (ERobust scaler)) ;;
  scaler ← load "scaler" ;
  self ← python (match scaler with
                 | Estimator (ERobust s) => Ok s
                 | _ => Raise AttributeError
                 end) ;
  data ← load "data" ;
  out ← call Transform "RobustScaler.fit_transform"
          (let* X := as_array data in RobustScaler_fit_transform self X) ;
  mutate "scaler" (Estimator (ERobust (fst out))) ;;
  store "scaled_data" (Array (snd out)) ;;
  v ← load "scaled_data" ;
  print [v].

(** *** categorical_encoding.ipynb *)

(** <<
from sklearn.preprocessing import LabelEncoder
data = ['red', 'green', 'blue', 'green', 'red']
le = LabelEncoder()
encoded = le.fit_transform(data)
print(encoded)
>> *)
Definition label_cell : Cell unit :=
  from_import "sklearn.preprocessing" "LabelEncoder" ;;
  store "data" (StrList ["red"; "green"; "blue"; "green"; "red"]) ;;
  use "LabelEncoder" ;;
  le ← call Construct "LabelEncoder" (Ok (ELabel [])) ;
  store "le" (Estimator le) ;;
  le ← load "le" ;
  _ ← python (match le with
              | Estimator (ELabel _) => Ok tt
              | _ => Raise AttributeError
              end) ;
  data ← load "data" ;
  out ← call Transform "LabelEncoder.fit_transform"
          (let* y := as_strlist data in LabelEncoder_fit_transform y) ;
  mutate "le" (Estimator (ELabel (fst out))) ;;
  store "encoded" (Vector (snd out)) ;;
  v ← load "encoded" ;
  print [v].

Definition colors : list (option string) :=
  [Some "red"; Some "green"; Some "blue"; Some "green"; Some "red"].

(** <<
import pandas as pd
df = pd.DataFrame({'color': ['red', 'green', 'blue', 'green', 'red']})
one_hot = pd.get_dummies(df['color'])
print(one_hot)
>> *)
Definition one_hot_cell : Cell unit :=
  import_as "pandas" "pd" ;;
  use "pd" ;;
  df ← call Construct "pd.DataFrame" (DataFrame_new [("color", Object colors)]) ;
  store "df" (Frame df) ;;
  use "pd" ;;
  color ← column_of "df" "color" ;
  one_hot ← call Transform "pd.get_dummies" (get_dummies color) ;
  store "one_hot" (Frame one_hot) ;;
  v ← load "one_hot" ;
  print [v].

(** <<
from sklearn.preprocessing import OrdinalEncoder
data = [['low'], ['medium'], ['high'], ['medium'], ['low']]
encoder = OrdinalEncoder(categories=[['low', 'medium', 'high']])
encoded = encoder.fit_transform(data)
print(encoded)
>> *)
Definition ordinal_cell : Cell unit :=
  from_import "sklearn.preprocessing" "OrdinalEncoder" ;;
  store "data" (StrRows [["low"]; ["medium"]; ["high"]; ["medium"]; ["low"]]) ;;
  use "OrdinalEncoder" ;;
  encoder ← call Construct "OrdinalEncoder" (Ok (EOrdinal [["low"; "medium"; "high"]])) ;
  store "encoder" (Estimator encoder) ;;
  encoder ← load "encoder" ;
  cats ← python (match encoder with
                 | Estimator (EOrdinal cats) => Ok cats
                 | _ => Raise AttributeError
                 end) ;
  data ← load "data" ;
  out ← call Transform "OrdinalEncoder.fit_transform"
          (let* X := as_strrows data in OrdinalEncoder_fit_transform cats X) ;
  store "encoded" (Array out) ;;
  v ← load "encoded" ;
  print [v].

Definition category_column : list (option string) :=
  [Some "A"; Some "B"; Some "A"; Some "C"; Some "B"].

Definition target_column : list (option Q) :=
  [Some 10; Some 20; Some 15; Some 10; Some 25].

(** The two statements that encode the [category] column of whatever
    table [df] is bound to:
<<
target_means = df.groupby('category')['target'].mean()
df['category_encoded'] = df['category'].map(target_means)
>> *)
Definition target_encoding_step : Cell unit :=
  df ← load_frame "df" ;
  g ← call Transform "DataFrame.groupby" (groupby df "category") ;
  sg ← call Access "DataFrameGroupBy.__getitem__" (GroupBy_getitem g "target") ;
  means ← call Transform "SeriesGroupBy.mean" (SeriesGroupBy_mean sg) ;
  store "target_means" (Table means) ;;
  category ← column_of "df" "category" ;
  target_means ← load "target_means" ;
  encoded ← call Transform "Series.map"
              (let* m := as_table target_means in Series_map category m) ;
  set_column "df" "category_encoded" encoded.

(** <<
import pandas as pd
df = pd.DataFrame({'category': ['A', 'B', 'A', 'C', 'B'],
                   'target': [10, 20, 15, 10, 25]})
target_means = df.groupby('category')['target'].mean()
df['category_encoded'] = df['category'].map(target_means)
print(df)
>> *)
Definition target_encoding_cell : Cell unit :=
  import_as "pandas" "pd" ;;
  use "pd" ;;
  df ← call Construct "pd.DataFrame"
         (DataFrame_new [("category", Object category_column);
                         ("target", Numeric target_column)]) ;
  store "df" (Frame df) ;;
  target_encoding_step ;;
  v ← load "df" ;
  print [v].

(** <<
freq = df['category'].value_counts()
df['category_freq'] = df['category'].map(freq)
print(df)
>> *)
Definition frequency_encoding_cell : Cell unit :=
  category ← column_of "df" "category" ;
  freq ← call Transform "Series.value_counts" (value_counts category) ;
  store "freq" (Table freq) ;;
  category ← column_of "df" "category" ;
  freq ← load "freq" ;
  encoded ← call Transform "Series.map"
              (let* m := as_table freq in Series_map category m) ;
  set_column "df" "category_freq" encoded ;;
  v ← load "df" ;
  print [v].

(** *** missing_values.ipynb *)

Definition sample_data : list (string * Series) :=
  [("Age", Numeric [Some 25; Some 30; None; Some 22; Some 28; None; Some 35]);
   ("Gender", Object [Some "Male"; Some "Female"; Some "Female"; None;
                      Some "Male"; Some "Female"; None]);
   ("Income", Numeric [Some 50000; Some 60000; Some 55000; Some 52000; None;
                       Some 58000; Some 60000]);
   ("City", Object [Some "London"; Some "Manchester"; Some "Bristol";
                    Some "London"; Some "Bristol"; None; Some "Manchester"])].

(** <<
import pandas as pd
import numpy as np
import seaborn as sns
import matplotlib.pyplot as plt
data = {'Age': [25, 30, np.nan, 22, 28, np.nan, 35], 'Gender': [...],
        'Income': [...], 'City': [...]}
df = pd.DataFrame(data)
print(df)
print(df.isnull().sum())
sns.heatmap(df.isnull(), cbar=False)
plt.title('Missing Values Heatmap')
plt.show()
>> *)
Definition detection_cell : Cell unit :=
  import_as "pandas" "pd" ;;
  import_as "numpy" "np" ;;
  import_as "seaborn" "sns" ;;
  import_as "matplotlib.pyplot" "plt" ;;
  use "np" ;;
  store "data" (ColumnDict sample_data) ;;
  use "pd" ;;
  data ← load "data" ;
  df ← call Construct "pd.DataFrame"
         (match data with ColumnDict d => DataFrame_new d | _ => Raise ValueError end) ;
  store "df" (Frame df) ;;
  v ← load "df" ;
  print [v] ;;
  df ← load_frame "df" ;
  mask ← call Transform "DataFrame.isnull" (Ok (DataFrame_isnull df)) ;
  counts ← call Transform "DataFrame.sum" (Ok (mask_sum mask)) ;
  print [Counts counts] ;;
  use "sns" ;;
  df ← load_frame "df" ;
  mask ← call Transform "DataFrame.isnull" (Ok (DataFrame_isnull df)) ;
  figure ← call Output "sns.heatmap" (Ok (Figure "" mask)) ;
  use "plt" ;;
  figure ← call Output "plt.title"
             (match figure with
              | Figure _ m => Ok (Figure "Missing Values Heatmap" m)
              | _ => Raise AttributeError
              end) ;
  use "plt" ;;
  call Output "plt.show" (Ok tt) ;;
  display [figure].

(** <<
df_drop_rows = df.dropna()
df_drop_cols = df.dropna(axis=1, thresh=int(len(df) * 0.5))
>> *)
Definition dropna_cell : Cell unit :=
  df ← load_frame "df" ;
  rows ← call Transform "DataFrame.dropna" (Ok (dropna df)) ;
  store "df_drop_rows" (Frame rows) ;;
  df ← load_frame "df" ;
  df_len ← load_frame "df" ;
  thresh ← python (Ok (half_len df_len)) ;
  columns ← call Transform "DataFrame.dropna" (Ok (dropna_columns df thresh)) ;
  store "df_drop_cols" (Frame columns).

(** <<
df['Age'] = df['Age'].fillna(df['Age'].mean())
df['Gender'] = df['Gender'].fillna(df['Gender'].mode()[0])
>> *)
Definition fillna_cell : Cell unit :=
  age ← column_of "df" "Age" ;
  age' ← column_of "df" "Age" ;
  mean ← call Transform "Series.mean" (Series_mean age') ;
  filled ← call Transform "Series.fillna" (Series_fillna age mean) ;
  set_column "df" "Age" filled ;;
  gender ← column_of "df" "Gender" ;
  gender' ← column_of "df" "Gender" ;
  modes ← call Transform "Series.mode" (Series_mode gender') ;
  mode ← call Access "Series.__getitem__" (Series_getitem0 modes) ;
  filled ← call Transform "Series.fillna" (Series_fillna gender mode) ;
  set_column "df" "Gender" filled.

(** <<
from sklearn.impute import KNNImputer
num_cols = df.select_dtypes(include=['float64', 'int64']).columns
df_num = df[num_cols]
imputer = KNNImputer(n_neighbors=3)
df_num_imputed = pd.DataFrame(imputer.fit_transform(df_num), columns=num_cols)
df[num_cols] = df_num_imputed
>> *)
Definition knn_cell : Cell unit :=
  from_import "sklearn.impute" "KNNImputer" ;;
  df ← load_frame "df" ;
  names ← call Access "DataFrame.select_dtypes" (Ok (numeric_columns df)) ;
  store "num_cols" (Names names) ;;
  df ← load_frame "df" ;
  num_cols ← load "num_cols" ;
  df_num ← call Access "DataFrame.__getitem__"
             (let* names := as_names num_cols in getitems df names) ;
  store "df_num" (Frame df_num) ;;
  use "KNNImputer" ;;
  imputer ← call Construct "KNNImputer" (Ok (EKNN 3 None)) ;
  store "imputer" (Estimator imputer) ;;
  use "pd" ;;
  imputer ← load "imputer" ;
  n_neighbors ← python (match imputer with
                        | Estimator (EKNN n _) => Ok n
                        | _ => Raise AttributeError
                        end) ;
  df_num ← load "df_num" ;
  out ← call Transform "KNNImputer.fit_transform"
          (let* X := match df_num with
                     | Frame d => to_numpy d
                     | _ => Raise ValueError
                     end in
           let* Y := KNNImputer_fit_transform n_neighbors X in
           Ok (X, Y)) ;
  mutate "imputer" (Estimator (EKNN n_neighbors (Some (fst out)))) ;;
  num_cols ← load "num_cols" ;
  imputed ← call Construct "pd.DataFrame"
              (let* names := as_names num_cols in
               DataFrame_from_array (snd out) names) ;
  store "df_num_imputed" (Frame imputed) ;;
  value ← load "df_num_imputed" ;
  df ← load_frame "df" ;
  num_cols ← load "num_cols" ;
  df' ← call Access "DataFrame.__setitem__"
          (let* names := as_names num_cols in
           let* value := match value with
                         | Frame d => Ok d
                         | _ => Raise ValueError
                         end in
           setitems df names value) ;
  mutate "df" (Frame df').

(** *** date_time_processing.ipynb *)

Definition timestamps : list string :=
  ["2025-07-12 14:30:00"; "2025-07-13 09:15:00"; "2025-07-14 20:45:00"].

(** [df[col] = df['timestamp'].dt.<field>] *)
Definition extract (col : string) (field : Timestamp -> Z) : Cell unit :=
  ts ← column_of "df" "timestamp" ;
  values ← call Transform ("Series.dt." ++ col) (dt field ts) ;
  set_column "df" col values.

(** [2 * np.pi * df['hour'] / 24] *)
Definition hour_angle : Cell Series :=
  use "np" ;;
  two_pi ← python (Ok (2 * PI)%R) ;
  hours ← column_of "df" "hour" ;
  scaled ← call Transform "Series.__rmul__" (Series_rmul two_pi hours) ;
  call Transform "Series.__truediv__" (Series_truediv scaled 24).

(** <<
import pandas as pd
import numpy as np
df = pd.DataFrame({'timestamp': pd.to_datetime(['2025-07-12 14:30:00',
        '2025-07-13 09:15:00', '2025-07-14 20:45:00'])})
df['year'] = df['timestamp'].dt.year
df['month'] = df['timestamp'].dt.month
df['day'] = df['timestamp'].dt.day
df['weekday'] = df['timestamp'].dt.weekday  # Monday=0, Sunday=6
df['hour'] = df['timestamp'].dt.hour
df['hour_sin'] = np.sin(2 * np.pi * df['hour'] / 24)
df['hour_cos'] = np.cos(2 * np.pi * df['hour'] / 24)
print(df)
>> *)
Definition datetime_cell : Cell unit :=
  import_as "pandas" "pd" ;;
  import_as "numpy" "np" ;;
  use "pd" ;;
  use "pd" ;;
  ts ← call Construct "pd.to_datetime" (to_datetime timestamps) ;
  df ← call Construct "pd.DataFrame" (DataFrame_new [("timestamp", ts)]) ;
  store "df" (Frame df) ;;
  extract "year" year ;;
  extract "month" month ;;
  extract "day" day ;;
  extract "weekday" weekday ;;
  extract "hour" hour ;;
  use "np" ;;
  angle ← hour_angle ;
  hour_sin ← call Transform "np.sin" (ufunc sin angle) ;
  set_column "df" "hour_sin" hour_sin ;;
  use "np" ;;
  angle ← hour_angle ;
  hour_cos ← call Transform "np.cos" (ufunc cos angle) ;
  set_column "df" "hour_cos" hour_cos ;;
  v ← load "df" ;
  print [v].

(** *** The data splitting and hyperparameter tuning notebook *)

(** What scikit-learn delivers there and is taken as given: the
    measurements of the iris data set, and the fitting of a classifier by
    cross-validated grid search, which returns the best [C] and the
    refitted model as its prediction function. *)
Class External : Type := {
  iris_data : ndarray;
  iris_data_len : length iris_data = 150%nat;
  GridSearchCV_fit :
    nat -> list Q -> nat -> Z -> ndarray -> list nat
    -> result (Q * (ndarray -> list nat))
}.

Section Splitting.

Context {G : Type} {rng : RandomState G} {ext : External}.

(** <<
from sklearn.datasets import load_iris
from sklearn.model_selection import train_test_split
iris = load_iris()
X, y = iris.data, iris.target
X_train, X_test, y_train, y_test = train_test_split(
    X, y, test_size=0.2, stratify=y, random_state=42)
>> *)
Definition split_cell : Cell unit :=
  from_import "sklearn.datasets" "load_iris" ;;
  from_import "sklearn.model_selection" "train_test_split" ;;
  use "load_iris" ;;
  iris ← call Construct "load_iris" (Ok (Bunch iris_data iris_target)) ;
  store "iris" iris ;;
  iris ← load "iris" ;
  data ← python (let* b := as_bunch iris in Ok (fst b)) ;
  iris ← load "iris" ;
  target ← python (let* b := as_bunch iris in Ok (snd b)) ;
  store "X" (Array data) ;;
  store "y" (Labels target) ;;
  use "train_test_split" ;;
  X ← load "X" ;
  y ← load "y" ;
  stratify ← load "y" ;
  parts ← call Transform "train_test_split"
            (let* X := as_array X in
             let* y := as_labels y in
             let* stratify := as_labels stratify in
             train_test_split X y (1 # 5) stratify 42) ;
  store "X_train" (Array (fst (fst parts))) ;;
  store "X_test" (Array (snd (fst parts))) ;;
  store "y_train" (Labels (fst (snd parts))) ;;
  store "y_test" (Labels (snd (snd parts))).

(** <<
from sklearn.linear_model import LogisticRegression
from sklearn.model_selection import GridSearchCV, StratifiedKFold
param_grid = {'C': [0.1, 1, 10]}
cv = StratifiedKFold(n_splits=5, shuffle=True, random_state=42)
grid = GridSearchCV(LogisticRegression(max_iter=1000),
                    param_grid=param_grid, cv=cv, scoring='accuracy')
grid.fit(X_train, y_train)
print("Best parameters:", grid.best_params_)
>> *)
Definition grid_search_cell : Cell unit :=
  from_import "sklearn.linear_model" "LogisticRegression" ;;
  from_import "sklearn.model_selection" "GridSearchCV" ;;
  from_import "sklearn.model_selection" "StratifiedKFold" ;;
  store "param_grid" (ParamGrid [1 # 10; 1; 10]) ;;
  use "StratifiedKFold" ;;
  cv ← call Construct "StratifiedKFold" (Ok (EKFold 5 42)) ;
  store "cv" (Estimator cv) ;;
  use "GridSearchCV" ;;
  use "LogisticRegression" ;;
  model ← call Construct "LogisticRegression" (Ok (ELogistic 1000)) ;
  param_grid ← load "param_grid" ;
  cv ← load "cv" ;
  grid ← call Construct "GridSearchCV"
           (match model, param_grid, cv with
            | ELogistic max_iter, ParamGrid Cs, Estimator (EKFold n seed) =>
                Ok (EGrid max_iter Cs n seed None)
            | _, _, _ => Raise TypeError
            end) ;
  store "grid" (Estimator grid) ;;
  grid ← load "grid" ;
  X_train ← load "X_train" ;
  y_train ← load "y_train" ;
  fitted ← match grid with
           | Estimator (EGrid max_iter Cs n seed _) =>
               best ← call Transform "GridSearchCV.fit"
                        (let* X := as_array X_train in
                         let* y := as_labels y_train in
                         GridSearchCV_fit max_iter Cs n seed X y) ;
               mret (EGrid max_iter Cs n seed (Some best))
           | _ => python (Raise AttributeError)
           end ;
  mutate "grid" (Estimator fitted) ;;
  grid ← load "grid" ;
  best_C ← python (match grid with
                   | Estimator (EGrid _ _ _ _ (Some best)) => Ok (fst best)
                   | _ => Raise AttributeError
                   end) ;
  print [Text "Best parameters:"; ParamGrid [best_C]].

(** <<
from sklearn.metrics import accuracy_score
best_model = grid.best_estimator_
y_pred = best_model.predict(X_test)
print("Test accuracy:", accuracy_score(y_test, y_pred))
>> *)
Definition evaluation_cell : Cell unit :=
  from_import "sklearn.metrics" "accuracy_score" ;;
  grid ← load "grid" ;
  best ← python (match grid with
                 | Estimator (EGrid _ _ _ _ (Some best)) => Ok (snd best)
                 | _ => Raise AttributeError
                 end) ;
  store "best_model" (Predictor best) ;;
  best_model ← load "best_model" ;
  predict ← python (as_predictor best_model) ;
  X_test ← load "X_test" ;
  y_pred ← call Transform "LogisticRegression.predict"
             (let* X := as_array X_test in Ok (predict X)) ;
  store "y_pred" (Labels y_pred) ;;
  use "accuracy_score" ;;
  y_test ← load "y_test" ;
  y_pred ← load "y_pred" ;
  score ← call Transform "accuracy_score"
            (let* t := as_labels y_test in
             let* p := as_labels y_pred in
             accuracy_score t p) ;
  print [Text "Test accuracy:"; Number score].

End Splitting.

(** *** Running cells *)

(** Running a cell in a kernel: its output area and its record of library
    calls start empty. *)
Definition run (c : Cell unit) (k : kernel) : result unit * kernel :=
  c (mkKernel (globals k) (heap k) [] []).

(** Running cells one after the other, as "Run All" does; a cell that
    raises stops the run. *)
Fixpoint run_all (cs : list (Cell unit)) (k : kernel) : result unit * kernel :=
  match cs with
  | [] => (Ok tt, k)
  | c :: cs' =>
      match run c k with
      | (Ok _, k') => run_all cs' k'
      | (Raise e, k') => (Raise e, k')
      end
  end.

(** The library routines a cell has called to transform data. *)
Definition transform_calls (k : kernel) : list string :=
  map snd (filter (fun c => fst c = Transform) (calls k)).

End Notebook.


(** * The vocabulary of the properties *)

Section Vocabulary.

Import np sklearn pd Notebook.

Context {G : Type} {rng : RandomState G} {ext : External}.

(** ** Scaling *)

Definition minmax_expected : ndarray :=
  [[0; 0]; [1 # 4; 1 # 4]; [1 # 2; 1 # 2]; [3 # 4; 3 # 4]; [1; 1]].

Definition outlier_column : list Q := [10; 15; 20; 25; 1000].

(** ** Cyclical encoding *)

(** The angle of hour [h] on the 24-hour dial. *)
Definition dial (h : Z) : R := (2 * PI * IZR h / 24)%R.

(** The pair the date-time cell writes into [hour_sin] and [hour_cos] for
    an hour [h]. *)
Definition hour_encoding (h : Z) : R * R := (sin (dial h), cos (dial h)).

(** ** One-hot encoding *)

(** The number of [True] entries of a boolean column of a frame. *)
Definition true_count (df : DataFrame) (col : string) : option nat :=
  match find_col (cols df) col with
  | Some (Boolean v) => Some (length (filter (fun b => b = true) v))
  | _ => None
  end.

(** ** The kernel *)

(** The name [x] is bound to location [l], which holds [v]. *)
Definition points (k : kernel) (x : string) (l : nat) (v : obj) : Prop :=
  globals k !! x = Some l /\ heap k !! l = Some v.

(** ** Imputation *)

(** Every present entry of [df] is found unchanged in [df']. *)
Definition preserved (df df' : DataFrame) : Prop :=
  forall col i x, entry df col i = Some x -> x <> SNaN -> entry df' col i = Some x.

(** Every present entry of the column [s] is found unchanged in [s']. *)
Definition kept (s s' : Series) : Prop :=
  forall i x, iloc s i = Some x -> x <> SNaN -> iloc s' i = Some x.

(** The table bound to [df] sits at [l] and keeps the present entries of
    [df0]. *)
Definition keeps (l : nat) (df0 : DataFrame) (k : kernel) : Prop :=
  exists df, points k "df" l (Frame df) /\ preserved df0 df.

(** ** Target encoding *)

(** The rows of a table, as pairs of key and value, that carry the
    key [c]. *)
Definition rows_of (kv : list (string * Q)) (c : string) : list (string * Q) :=
  filter (fun p => fst p = c) kv.

(** [df[col].mean()] *)
Definition column_mean (df : DataFrame) (col : string) : result scalar :=
  let* s := getitem df col in Series_mean s.

(** Two means agree: both are the same number, or both are NaN. *)
Definition mean_agree (a b : result scalar) : Prop :=
  match a, b with
  | Ok (SNum x), Ok (SNum y) => x == y
  | Ok SNaN, Ok SNaN => True
  | _, _ => False
  end.

(** The mean of the encoded column is the mean of the target column. *)
Definition encoding_keeps_mean (df : DataFrame) : Prop :=
  mean_agree (column_mean df "category_encoded") (column_mean df "target").

(** ** The stratified split *)

(** What [assign_classes] hands out, class by class. *)
Definition class_parts (per_class : list (list nat * (nat * nat)))
    (parts : list (list nat * list nat)) : Prop :=
  Forall2 (fun pc part =>
             fst part ++ snd part ≡ₚ fst pc /\
             length (fst part) = fst (snd pc) /\
             length (snd part) = snd (snd pc)) per_class parts.

(** The class of sample [i] of the iris data. *)
Definition iris_class (c : nat) (i : nat) : Prop := iris_target !! i = Some c.

#[global] Instance iris_class_dec c i : Decision (iris_class c i).
Proof. unfold iris_class. apply _. Defined.

(** The number of samples of class [c] among the samples [idx]. *)
Definition class_count (c : nat) (idx : list nat) : nat :=
  length (filter (iris_class c) idx).

Definition iris_blocks : list (list nat * (nat * nat)) :=
  [(seq 0 50, (40, 10)); (seq 50 50, (40, 10)); (seq 100 50, (40, 10))]%nat.

(** ** Which state a cell depends on *)

(** Two kernels show the same output. *)
Definition same_output (k1 k2 : kernel) : Prop :=
  stdout k1 = stdout k2 /\ calls k1 = calls k2.

(** The names [W] are bound in both kernels, to equal objects, and no two
    of them to the same object. *)
Definition same_bindings (W : list string) (k1 k2 : kernel) : Prop :=
  (forall x, x ∈ W -> exists l1 l2 v, points k1 x l1 v /\ points k2 x l2 v) /\
  (forall x y l, x ∈ W -> y ∈ W ->
     globals k1 !! x = Some l -> globals k1 !! y = Some l -> x = y) /\
  (forall x y l, x ∈ W -> y ∈ W ->
     globals k2 !! x = Some l -> globals k2 !! y = Some l -> x = y).

Definition agree (W : list string) (k1 k2 : kernel) : Prop :=
  same_output k1 k2 /\ same_bindings W k1 k2.

(** Run from two kernels that agree on [W], the code [m] behaves the
    same: same result or exception, same output, and if it returns, the
    kernels agree on [W']. *)
Definition independent {A} (W W' : list string) (m : Cell A) : Prop :=
  forall k1 k2, agree W k1 k2 ->
    fst (m k1) = fst (m k2) /\
    same_output (snd (m k1)) (snd (m k2)) /\
    (forall a, fst (m k1) = Ok a -> agree W' (snd (m k1)) (snd (m k2))).

(** What is seen of a run: whether it returned or raised, what it printed,
    which routines it called and, if it returned, the objects bound to the
    names [names]. *)
Definition outcome (names : list string) (r : result unit * kernel)
  : result unit * list obj * list (role * string) * list (option obj) :=
  (fst r, stdout (snd r), calls (snd r),
   if is_ok (fst r) then map (value_of (snd r)) names else []).

(** The cell behaves the same from any two kernels that agree on the
    names [reads]. *)
Definition depends_only_on (reads defines : list string) (c : Cell unit) : Prop :=
  forall k1 k2, same_bindings reads k1 k2 ->
    outcome defines (run c k1) = outcome defines (run c k2).

(** The cell behaves the same from any two kernels. *)
Definition self_contained (defines : list string) (c : Cell unit) : Prop :=
  forall k1 k2, outcome defines (run c k1) = outcome defines (run c k2).

(** The names [W] are bound to objects allocated after the first [n0]. *)
Definition owned (n0 : nat) (W : list string) (k : kernel) : Prop :=
  forall x, x ∈ W -> exists l, globals k !! x = Some l /\ (n0 <= l)%nat.

(** The code [m] leaves every object that existed before it as it was:
    run where the names [W] are bound to objects allocated after [h0],
    it keeps [h0] a prefix of the heap. *)
Definition local {A} (W W' : list string) (m : Cell A) : Prop :=
  forall (h0 : list obj) k,
    h0 `prefix_of` heap k -> owned (length h0) W k ->
    h0 `prefix_of` heap (snd (m k)) /\
    (forall a, fst (m k) = Ok a -> owned (length h0) W' (snd (m k))).

(** A cell that is local from the start keeps the heap it finds. *)
Definition keeps_heap (c : Cell unit) : Prop :=
  forall k, heap k `prefix_of` heap (snd (run c k)).

(** The cell is self-contained and changes no object it did not create. *)
Definition isolated (defines : list string) (c : Cell unit) : Prop :=
  (exists W', independent [] W' c /\ defines ⊆ W') /\ (exists W', local [] W' c).

(** The cell behaves the same from any two kernels that agree on [reads],
    and changes no object it did not create. *)
Definition reader (reads defines : list string) (c : Cell unit) : Prop :=
  (exists W', independent reads W' c /\ defines ⊆ W') /\ (exists W', local [] W' c).

(** The cell behaves the same from any two kernels that agree on
    [reads]. *)
Definition updater (reads defines : list string) (c : Cell unit) : Prop :=
  exists W', independent reads W' c /\ defines ⊆ W'.

(** The kernel the frequency-encoding cell finds when the notebook is run
    in order. *)
Definition after_target_encoding : kernel := snd (run target_encoding_cell fresh).

(** ** The notebooks *)

(** The transforming library calls of each cell of a notebook run in
    order. *)
Fixpoint traces (cs : list (Cell unit)) (k : kernel) : list (list string) :=
  match cs with
  | [] => []
  | c :: cs' =>
      let r := run c k in
      transform_calls (snd r)
      :: match fst r with
         | Ok _ => traces cs' (snd r)
         | Raise _ => []
         end
  end.

Definition numeric_scaling : list (Cell unit) :=
  [minmax_cell; standard_cell; robust_cell].

Definition categorical_encoding : list (Cell unit) :=
  [label_cell; one_hot_cell; ordinal_cell; target_encoding_cell;
   frequency_encoding_cell].

Definition missing_values : list (Cell unit) :=
  [detection_cell; dropna_cell; fillna_cell; knn_cell].

Definition date_time_processing : list (Cell unit) := [datetime_cell].

Definition splitting_and_tuning : list (Cell unit) :=
  [split_cell; grid_search_cell; evaluation_cell].

(** What is assumed of the library routines the notebook calls. *)
Definition library_contract : Prop :=
  (forall (g : G) (n : nat), fst (permutation g n) ≡ₚ seq 0 n) /\
  (forall X y, is_ok (GridSearchCV_fit 1000 [1 # 10; 1; 10] 5 42 X y) = true) /\
  (forall X y C predict (X' : ndarray),
     GridSearchCV_fit 1000 [1 # 10; 1; 10] 5 42 X y = Ok (C, predict) ->
     length (predict X') = length X').

(** The kernel the imputation cells find when the notebook is run in
    order. *)
Definition after_detection : kernel := snd (run detection_cell fresh).

Definition table_with_missing_label : DataFrame :=
  mkFrame 2 [("category", Object [Some "A"; None]);
             ("target", Numeric [Some 10; Some 20])].

(** The cell makes exactly one transforming library call. *)
Definition single_call (c : Cell unit) (k : kernel) : Prop :=
  exists routine, transform_calls (snd (run c k)) = [routine].

(** What the cell, run in a fresh kernel, leaves under the name [x]. *)
Definition bound_by (c : Cell unit) (x : string) : option obj :=
  value_of (snd (run c fresh)) x.

(** What a library routine returned, as the object [wrap] makes of it. *)
Definition returned {A} (wrap : A -> obj) (r : result A) : option obj :=
  match r with
  | Ok a => Some (wrap a)
  | Raise _ => None
  end.

(** The cells that need nothing from the kernel, with the names they
    define. *)
Definition self_contained_cells : list (list string * Cell unit) :=
  [(["data"; "scaler"; "scaled_data"], minmax_cell);
   (["data"; "scaler"; "scaled_data"], standard_cell);
   (["data"; "scaler"; "scaled_data"], robust_cell);
   (["data"; "le"; "encoded"], label_cell);
   (["df"; "one_hot"], one_hot_cell);
   (["data"; "encoder"; "encoded"], ordinal_cell);
   (["df"; "target_means"], target_encoding_cell);
   (["data"; "df"], detection_cell);
   (["df"], datetime_cell);
   (["iris"; "X"; "y"; "X_train"; "X_test"; "y_train"; "y_test"], split_cell)].

(** What [df['Gender'].mode()[0]] evaluates to on the table of the
    missing-values notebook. *)
Definition gender_mode : result scalar :=
  let* df := DataFrame_new sample_data in
  let* gender := getitem df "Gender" in
  let* modes := Series_mode gender in
  Series_getitem0 modes.

(** ** Instances *)

(** A generator that leaves every array in its order. *)
Definition identity_rng : RandomState unit :=
  {| seeded := fun _ => tt;
     permutation := fun _ n => (seq 0 n, tt);
     choice := fun _ a k => (take k a, tt) |}.

(** A library whose search returns [C = 1] and a model that predicts
    class 0 for every row. *)
Definition constant_model : External :=
  {| iris_data := replicate 150 [0; 0; 0; 0];
     iris_data_len := eq_refl;
     GridSearchCV_fit := fun _ _ _ _ _ _ => Ok (1, fun X => map (fun _ => 0%nat) X) |}.

(** The kernel that holds only the table the target-encoding cell left. *)
Definition encoded_table_only : kernel :=
  match value_of after_target_encoding "df" with
  | Some v => alloc "df" v fresh
  | None => fresh
  end.

(** The kernel in which only [np] and a table of three hours exist. *)
Definition three_hours : kernel :=
  alloc "df" (Frame (mkFrame 3 [("hour", Numeric [Some 14; Some 9; Some 20])]))
        (alloc "np" (PyModule "numpy") fresh).

(** The kernel in which only the table of the target-encoding cell
    exists. *)
Definition category_and_target : kernel :=
  alloc "df" (Frame (mkFrame 5 [("category", Object category_column);
                                ("target", Numeric target_column)])) fresh.

(** ** Columns of real arrays *)

(** Column [j] of an array of reals. *)
Definition Rcolumn (Y : list (list R)) (j : nat) : list R :=
  map (fun r => nth j r 0%R) Y.

(** ** Distances on the dial *)

(** The squared distance of two points of the plane. *)
Definition sq_dist (p q : R * R) : R :=
  ((fst p - fst q) * (fst p - fst q) + (snd p - snd q) * (snd p - snd q))%R.

(** ** Missing entries *)

(** The position of the [i]-th [true] of a mask, counting from 0. *)
Fixpoint nth_true (mask : list bool) (i : nat) : option nat :=
  match mask with
  | [] => None
  | true :: m => match i with
                 | O => Some 0%nat
                 | S i' => S <$> nth_true m i'
                 end
  | false :: m => S <$> nth_true m i
  end.

(** The number of missing entries of a column, as [isnull().sum()]
    counts them. *)
Definition missing_count (s : Series) : nat :=
  length (filter (fun b => b = true) (isnull s)).

(** The mask of the complete rows that [dropna] computes. *)
Definition complete_rows (df : DataFrame) : list bool :=
  map (fun i => forallb (fun c => negb (nth i (isnull (snd c)) false)) (cols df))
      (seq 0 (n_rows df)).

(** A numeric column with its missing entries replaced by the mean of
    the present ones, as [s.fillna(s.mean())] returns it. *)
Definition fill_with_mean (v : list (option Q)) : list (option Q) :=
  match nanmean v with
  | Some m => map (fill m) v
  | None => v
  end.

(** The table after [df[col] = s]. *)
Definition with_column (df : DataFrame) (col : string) (s : Series) : DataFrame :=
  mkFrame (n_rows df) (update_col (cols df) col s).

(** A table of two rows in which no gender is known. *)
Definition no_gender_known : DataFrame :=
  mkFrame 2 [("Age", Numeric [Some 20; None]); ("Gender", Object [None; None])].

(** Feature [j] of an array with missing values. *)
Definition feature (X : nanarray) (j : nat) : list (option Q) :=
  map (fun r => mjoin (r !! j)) X.

(** The numeric columns of the missing-values notebook, [Age] and
    [Income], as the array the imputer is given: the first hole of
    [Age] is in the third row. *)
Definition age_and_income : nanarray :=
  [[Some 25; Some 50000]; [Some 30; Some 60000]; [None; Some 55000];
   [Some 22; Some 52000]; [Some 28; None]; [None; Some 58000];
   [Some 35; Some 60000]].

(** ** The calendar *)

(** The day after the day of [t], at the same time of day. *)
Definition next_day (t : Timestamp) : Timestamp :=
  if (day t <? days_in_month (year t) (month t))%Z
  then mkTimestamp (year t) (month t) (day t + 1)%Z (hour t) (minute t) (second t)
  else if (month t <? 12)%Z
       then mkTimestamp (year t) (month t + 1)%Z 1%Z (hour t) (minute t) (second t)
       else mkTimestamp (year t + 1)%Z 1%Z 1%Z (hour t) (minute t) (second t).

(** The day count of a date in the proleptic Gregorian calendar. *)
Definition day_number (t : Timestamp) : Z :=
  days_from_civil (year t) (month t) (day t).

End Vocabulary.

(** * Properties *)

(** ** Arrays *)

Section Arrays.

Import np.

Lemma array_row_length (X : ndarray) i row :
  np.array X = Ok X -> X !! i = Some row -> length row = n_features X.
Proof.
  unfold np.array. intros HX Hi.
  destruct (forallb _ X) eqn:E; [|discriminate].
  rewrite forallb_forall in E.
  apply Nat.eqb_eq, E, list_elem_of_In, list_elem_of_lookup. eauto.
Qed.

Lemma columns_lookup (X : ndarray) j :
  (j < n_features X)%nat -> columns X !! j = Some (column X j).
Proof.
  intros Hj. unfold columns.
  rewrite list_lookup_fmap, lookup_seq_lt by assumption. reflexivity.
Qed.

Lemma columns_length (X : ndarray) : length (columns X) = n_features X.
Proof. unfold columns. rewrite length_map, length_seq. reflexivity. Qed.

End Arrays.

(** ** Scaling *)

Section Scaling.

Import np sklearn.

Lemma handle_zeros_nonzero (r : Q) : ~ r == 0 -> _handle_zeros_in_scale r = r.
Proof.
  intros Hr. unfold _handle_zeros_in_scale.
  destruct (Qeq_bool r 0) eqn:E; [|reflexivity].
  apply Qeq_bool_iff in E. contradiction.
Qed.

Lemma check_array_ok (X Y : ndarray) : check_array X = Ok Y -> Y = X.
Proof. destruct X as [|[|] ?]; simpl; congruence. Qed.

(** The affine form the scaler applies, [x * scale_ + min_], is the
    textbook quotient. *)
Lemma minmax_affine (x mn mx : Q) :
  mn < mx ->
  x * ((1 - 0) / (mx - mn)) + (0 - mn * ((1 - 0) / (mx - mn)))
  == (x - mn) / (mx - mn).
Proof. intros H. field. intros E. lra. Qed.


End Scaling.

Section RobustScaling.

Import np sklearn.


End RobustScaling.

(** ** Cyclical encoding *)

Section Cyclical.

Import np pd Notebook.

Open Scope R_scope.

Lemma Q2R_inject_Z (z : Z) : Q2R (inject_Z z) = IZR z.
Proof. unfold Q2R, inject_Z. simpl. field. Qed.

Lemma cos_eq_1_small (d : R) : - (2 * PI) < d < 2 * PI -> cos d = 1 -> d = 0.
Proof.
  intros [Hlo Hhi] Hcos.
  assert (Hsin : sin d = 0).
  { pose proof (sin2_cos2 d) as H. rewrite Hcos in H. unfold Rsqr in H. nra. }
  destruct (sin_eq_0_0 d Hsin) as [k Hk].
  pose proof PI_RGT_0 as Hpi.
  assert (Hk2 : (-2 < k < 2)%Z).
  { split; apply lt_IZR; subst d; nra. }
  assert (Hcases : k = (-1)%Z \/ k = 0%Z \/ k = 1%Z) by lia.
  destruct Hcases as [-> | [-> | ->]].
  - subst d. replace (-1 * PI) with (- PI) in Hcos by ring.
    rewrite cos_neg, cos_PI in Hcos. lra.
  - subst d. ring.
  - subst d. replace (1 * PI) with PI in Hcos by ring.
    rewrite cos_PI in Hcos. lra.
Qed.

Lemma dial_range (h : Z) : (0 <= h < 24)%Z -> 0 <= dial h < 2 * PI.
Proof.
  intros [Hlo Hhi]. unfold dial.
  pose proof PI_RGT_0 as Hpi.
  apply IZR_le in Hlo. apply IZR_lt in Hhi.
  split.
  - apply Rmult_le_pos; [nra | lra].
  - apply Rmult_lt_reg_r with 24; [lra|].
    replace (2 * PI * IZR h / 24 * 24) with (2 * PI * IZR h) by field.
    nra.
Qed.

Lemma cyclical_entry (f : R -> R) (h : Z) :
  f (2 * PI * Q2R (inject_Z h) / IZR 24) = f (dial h).
Proof. rewrite Q2R_inject_Z. reflexivity. Qed.


End Cyclical.

(** ** One-hot encoding *)

Section OneHot.

Import np sklearn pd.

Lemma present_somes {A} (l : list A) : present (map Some l) = l.
Proof.
  unfold present. induction l as [|a l IH]; [reflexivity|].
  cbn. f_equal. exact IH.
Qed.

Lemma categories_NoDup (v : list (option string)) : NoDup (categories v).
Proof.
  unfold categories.
  rewrite merge_sort_Permutation. apply NoDup_remove_dups.
Qed.

Lemma categories_elem (v : list (option string)) (c : string) :
  c ∈ categories v <-> Some c ∈ v.
Proof.
  unfold categories.
  rewrite merge_sort_Permutation, elem_of_remove_dups.
  unfold present. rewrite list_elem_of_omap. split.
  - intros (x & Hx & Hc). destruct x; cbn in Hc; [|discriminate].
    injection Hc as ->. exact Hx.
  - intros H. exists (Some c). split; [exact H | reflexivity].
Qed.

(** Looking a key up in a table built by mapping over its keys. *)
Lemma find_tabulated {B} (f : string -> B) (ks : list string) (c : string) :
  c ∈ ks ->
  find (fun kv : string * B => String.eqb (fst kv) c) (map (fun k => (k, f k)) ks)
  = Some (c, f c).
Proof.
  induction ks as [|k ks IH]; intros Hc.
  - apply elem_of_nil in Hc. contradiction.
  - cbn. destruct (String.eqb_spec k c) as [->|Hne]; [reflexivity|].
    apply IH. apply elem_of_cons in Hc. destruct Hc; [congruence | assumption].
Qed.

Lemma find_tabulated_none {B} (f : string -> B) (ks : list string) (c : string) :
  c ∉ ks ->
  find (fun kv : string * B => String.eqb (fst kv) c) (map (fun k => (k, f k)) ks)
  = None.
Proof.
  induction ks as [|k ks IH]; intros Hc; [reflexivity|].
  cbn. destruct (String.eqb_spec k c) as [->|Hne].
  - exfalso. apply Hc. left.
  - apply IH. intros H. apply Hc. right. exact H.
Qed.

Lemma count_indicator (v : list (option string)) (c : string) :
  length (filter (fun b => b = true) (map (fun x => bool_decide (x = Some c)) v))
  = count_label v c.
Proof.
  unfold count_label. induction v as [|x v IH]; [reflexivity|].
  rewrite fmap_cons, !filter_cons.
  destruct (decide (x = Some c)) as [->|Hne].
  - rewrite bool_decide_eq_true_2 by reflexivity.
    rewrite decide_True by reflexivity. cbn. f_equal. exact IH.
  - rewrite bool_decide_eq_false_2 by assumption.
    rewrite decide_False by discriminate. exact IH.
Qed.

(** C8.  In the one-hot encoding of a column of labels, each row has a
    [True] in the column named by its own label and [False] in every other
    column, so exactly one [True]; the columns are pairwise distinct, and
    the number of [True] entries of a column is the number of occurrences
    of its label in the input.  On the colours of the notebook the table
    is the one the cell prints. *)
Theorem one_hot_rows_and_sums :
  (forall data : list string,
     exists df, get_dummies (Object (map Some data)) = Ok df /\
       NoDup (column_names df) /\
       (forall c, c ∈ column_names df <-> c ∈ data) /\
       (forall i c, data !! i = Some c ->
          entry df c i = Some (SBool true) /\
          forall c', c' ∈ column_names df -> c' <> c ->
                     entry df c' i = Some (SBool false)) /\
       (forall c, c ∈ column_names df ->
          true_count df c = Some (count_label (map Some data) c)))
  /\ get_dummies (Object Notebook.colors)
     = Ok (mkFrame 5 [("blue", Boolean [false; false; true; false; false]);
                      ("green", Boolean [false; true; false; true; false]);
                      ("red", Boolean [true; false; false; false; true])]).
Proof.
  split; [|vm_compute; reflexivity].
  intros data. eexists. split; [reflexivity|].
  set (v := map Some data).
  assert (Hnames : forall f : string -> Series,
             map fst (map (fun c => (c, f c)) (categories v)) = categories v).
  { intros f. rewrite map_map. cbn. apply map_id. }
  unfold column_names. cbn [cols]. rewrite Hnames.
  assert (Hin : forall c, c ∈ categories v <-> c ∈ data).
  { intros c. rewrite categories_elem. unfold v. rewrite list_elem_of_fmap. split.
    - intros (y & Hy & Hin). injection Hy as ->. exact Hin.
    - intros H. exists c. split; [reflexivity | exact H]. }
  split; [apply categories_NoDup|]. split; [exact Hin|]. split.
  - intros i c Hi.
    assert (Hv : v !! i = Some (Some c)).
    { unfold v. rewrite list_lookup_fmap, Hi. reflexivity. }
    split.
    + unfold entry, find_col. cbn [cols].
      rewrite (find_tabulated _ (categories v) c)
        by (apply Hin; eapply list_elem_of_lookup_2; eauto).
      cbn. rewrite list_lookup_fmap, Hv. cbn.
      rewrite bool_decide_eq_true_2 by reflexivity. reflexivity.
    + intros c' Hc' Hne.
      unfold entry, find_col. cbn [cols].
      rewrite (find_tabulated _ (categories v) c') by exact Hc'.
      cbn. rewrite list_lookup_fmap, Hv. cbn.
      rewrite bool_decide_eq_false_2 by congruence. reflexivity.
  - intros c Hc. unfold true_count, find_col. cbn [cols].
    rewrite (find_tabulated _ (categories v) c) by exact Hc.
    cbn. rewrite count_indicator. reflexivity.
Qed.

End OneHot.

(** ** Reasoning about code that runs in the kernel *)

Section KernelFacts.

Import Notebook.

Lemma points_value k x l v : points k x l v -> value_of k x = Some v.
Proof. intros [Hg Hh]. unfold value_of. rewrite Hg. exact Hh. Qed.

Lemma points_lt k x l v : points k x l v -> (l < length (heap k))%nat.
Proof. intros [_ Hh]. eapply lookup_lt_Some; eauto. Qed.

Lemma points_alloc_eq x v k : points (alloc x v k) x (length (heap k)) v.
Proof.
  split; cbn.
  - apply lookup_insert_eq.
  - apply list_lookup_middle. reflexivity.
Qed.

Lemma points_alloc_ne x y v k l w :
  x <> y -> points k y l w -> points (alloc x v k) y l w.
Proof.
  intros Hne [Hg Hh]. split; cbn.
  - rewrite lookup_insert_ne by exact Hne. exact Hg.
  - apply lookup_app_l_Some. exact Hh.
Qed.

Lemma points_logged r n k x l v : points k x l v -> points (logged r n k) x l v.
Proof. intros H. exact H. Qed.

Lemma points_shown vs k x l v : points k x l v -> points (shown vs k) x l v.
Proof. intros H. exact H. Qed.

Lemma points_updated_eq k x l w v : points k x l w -> points (updated l v k) x l v.
Proof.
  intros [Hg Hh]. split; cbn; [exact Hg|].
  apply list_lookup_insert_eq. eapply lookup_lt_Some; eauto.
Qed.

Lemma points_updated_ne k y l l' w v :
  l' <> l -> points k y l' w -> points (updated l v k) y l' w.
Proof.
  intros Hne [Hg Hh]. split; cbn; [exact Hg|].
  rewrite list_lookup_insert_ne by congruence. exact Hh.
Qed.

Lemma points_updated_ne' k y l l' w v :
  points k y l' w -> l' <> l -> points (updated l v k) y l' w.
Proof. intros H Hne. apply points_updated_ne; assumption. Qed.

Lemma points_cleared k x l v s c :
  points k x l v -> points (mkKernel (globals k) (heap k) s c) x l v.
Proof. intros H. exact H. Qed.

Lemma load_points k x l v : points k x l v -> load x k = (Ok v, k).
Proof. intros H. unfold load. rewrite (points_value _ _ _ _ H). reflexivity. Qed.

Lemma mutate_points k x l w v :
  points k x l w -> mutate x v k = (Ok tt, updated l v k).
Proof.
  intros H. unfold mutate. destruct H as [Hg Hh]. rewrite Hg.
  rewrite decide_True by (eapply lookup_lt_Some; eauto). reflexivity.
Qed.

Lemma bind_ok {A B} (m : Cell A) (f : A -> Cell B) k a k' :
  m k = (Ok a, k') -> (m ≫= f) k = f a k'.
Proof. intros H. unfold mbind, Cell_bind. rewrite H. reflexivity. Qed.

Lemma bind_raise {A B} (m : Cell A) (f : A -> Cell B) k e k' :
  m k = (Raise e, k') -> (m ≫= f) k = (Raise e, k').
Proof. intros H. unfold mbind, Cell_bind. rewrite H. reflexivity. Qed.

Lemma bind_assoc {A B C} (m : Cell A) (f : A -> Cell B) (g : B -> Cell C) k :
  ((m ≫= f) ≫= g) k = (m ≫= (fun a => f a ≫= g)) k.
Proof.
  unfold mbind, Cell_bind. destruct (m k) as [[a|e] k']; reflexivity.
Qed.

Lemma load_frame_points k x l df :
  points k x l (Frame df) -> load_frame x k = (Ok df, k).
Proof.
  intros H. unfold load_frame. erewrite bind_ok by (eapply load_points; exact H).
  reflexivity.
Qed.

Lemma column_of_points k x l df col :
  points k x l (Frame df) ->
  column_of x col k = (pd.getitem df col, logged Access "DataFrame.__getitem__" k).
Proof.
  intros H. unfold column_of.
  erewrite bind_ok by (eapply load_frame_points; exact H). reflexivity.
Qed.

Lemma set_column_points k x l df col s :
  points k x l (Frame df) ->
  set_column x col s k =
  match pd.setitem df col s with
  | Ok df' => (Ok tt, updated l (Frame df') (logged Access "DataFrame.__setitem__" k))
  | Raise e => (Raise e, logged Access "DataFrame.__setitem__" k)
  end.
Proof.
  intros H. unfold set_column.
  erewrite bind_ok by (eapply load_frame_points; exact H).
  unfold mbind, Cell_bind, call. destruct (pd.setitem df col s) as [df'|e]; [|reflexivity].
  erewrite mutate_points by (apply points_logged; exact H). reflexivity.
Qed.

(** The equations by which a cell is run step by step. *)

Lemma bind_call {A B} r n (res : result A) (f : A -> Cell B) k :
  (call r n res ≫= f) k =
  match res with
  | Ok a => f a (logged r n k)
  | Raise e => (Raise e, logged r n k)
  end.
Proof. unfold mbind, Cell_bind, call. destruct res; reflexivity. Qed.

Lemma bind_python {A B} (res : result A) (f : A -> Cell B) k :
  (python res ≫= f) k =
  match res with
  | Ok a => f a k
  | Raise e => (Raise e, k)
  end.
Proof. unfold mbind, Cell_bind, python. destruct res; reflexivity. Qed.

Lemma bind_store {B} x v (f : unit -> Cell B) k :
  (store x v ≫= f) k = f tt (alloc x v k).
Proof. reflexivity. Qed.

Lemma bind_display {B} vs (f : unit -> Cell B) k :
  (display vs ≫= f) k = f tt (shown vs k).
Proof. reflexivity. Qed.

Lemma bind_load {B} x (f : obj -> Cell B) k l v :
  points k x l v -> (load x ≫= f) k = f v k.
Proof. intros H. apply bind_ok. eapply load_points. exact H. Qed.

Lemma bind_load_frame {B} x (f : pd.DataFrame -> Cell B) k l df :
  points k x l (Frame df) -> (load_frame x ≫= f) k = f df k.
Proof. intros H. apply bind_ok. eapply load_frame_points. exact H. Qed.

Lemma bind_mutate {B} x v (f : unit -> Cell B) k l w :
  points k x l w -> (mutate x v ≫= f) k = f tt (updated l v k).
Proof. intros H. apply bind_ok. eapply mutate_points. exact H. Qed.

Lemma bind_column_of {B} x col (f : pd.Series -> Cell B) k l df :
  points k x l (Frame df) ->
  (column_of x col ≫= f) k =
  match pd.getitem df col with
  | Ok s => f s (logged Access "DataFrame.__getitem__" k)
  | Raise e => (Raise e, logged Access "DataFrame.__getitem__" k)
  end.
Proof.
  intros H. unfold mbind, Cell_bind. rewrite (column_of_points _ _ _ _ _ H).
  destruct (pd.getitem df col); reflexivity.
Qed.

Lemma bind_set_column {B} x col s (f : unit -> Cell B) k l df :
  points k x l (Frame df) ->
  (set_column x col s ≫= f) k =
  match pd.setitem df col s with
  | Ok df' => f tt (updated l (Frame df') (logged Access "DataFrame.__setitem__" k))
  | Raise e => (Raise e, logged Access "DataFrame.__setitem__" k)
  end.
Proof.
  intros H. unfold mbind, Cell_bind. rewrite (set_column_points _ _ _ _ _ _ H).
  destruct (pd.setitem df col s); reflexivity.
Qed.

Lemma bind_ret {A B} (a : A) (f : A -> Cell B) k : (mret a ≫= f) k = f a k.
Proof. reflexivity. Qed.

Lemma bind_use {B} x (f : unit -> Cell B) k l v :
  points k x l v -> (use x ≫= f) k = f tt k.
Proof.
  intros H. unfold use. rewrite bind_assoc.
  erewrite bind_load by exact H. reflexivity.
Qed.

(** A name of unknown standing is either bound, and the cell goes on, or
    the cell stops there with a [NameError]. *)
Lemma bind_use_cases {B} x (f : unit -> Cell B) k :
  (use x ≫= f) k = f tt k \/ (use x ≫= f) k = (Raise NameError, k).
Proof.
  unfold use, load, mbind, Cell_bind, mret, Cell_ret.
  destruct (value_of k x); [left | right]; reflexivity.
Qed.

End KernelFacts.

(** Locations are compared through the lengths of the heaps they were
    allocated in. *)
Ltac klen :=
  repeat match goal with
         | H : points ?k ?x ?l ?v |- _ =>
             lazymatch goal with
             | _ : (l < length (Notebook.heap k))%nat |- _ => fail
             | _ => pose proof (points_lt _ _ _ _ H)
             end
         end;
  cbn [Notebook.heap Notebook.alloc Notebook.logged Notebook.updated Notebook.shown];
  rewrite ?length_insert, ?length_app; cbn [length];
  lia.

(** Finding what a name is bound to in a kernel reached by allocations,
    updates and recorded calls. *)
Ltac kpoints :=
  lazymatch goal with
  | |- points (Notebook.logged _ _ _) _ _ _ => apply points_logged; kpoints
  | |- points (Notebook.shown _ _) _ _ _ => apply points_shown; kpoints
  | |- points (Notebook.mkKernel (Notebook.globals _) (Notebook.heap _) _ _) _ _ _ =>
      apply points_cleared; kpoints
  | |- points (Notebook.alloc ?x _ _) ?x _ _ => apply points_alloc_eq
  | |- points (Notebook.alloc _ _ _) _ _ _ =>
      apply points_alloc_ne; [discriminate | kpoints]
  | |- points (Notebook.updated _ _ _) _ _ _ =>
      first [ eapply points_updated_eq; kpoints
            | eapply points_updated_ne'; [kpoints | klen] ]
  | |- points _ _ _ _ => eassumption
  end.

(** ** Imputation only fills holes *)

Section Imputation.

Import np sklearn pd Notebook.

Lemma preserved_refl df : preserved df df.
Proof. intros col i x H _. exact H. Qed.

Lemma lookup_fill {A} (a : A) (v : list (option A)) i (x : A) :
  v !! i = Some (Some x) -> map (fill a) v !! i = Some (Some x).
Proof. intros H. rewrite list_lookup_fmap, H. reflexivity. Qed.

Lemma fillna_kept (s s' : Series) (value : scalar) :
  Series_fillna s value = Ok s' -> kept s s'.
Proof.
  intros H i x Hi Hx.
  destruct s as [v|v|v|v|v], value; cbn in H; try discriminate;
    injection H as <-; try exact Hi; cbn in *;
    destruct (v !! i) as [[y|]|] eqn:E; cbn in Hi; try discriminate;
    try (injection Hi as <-; contradiction);
    erewrite lookup_fill by exact E; exact Hi.
Qed.

Lemma find_col_update_eq cs col s : find_col (update_col cs col s) col = Some s.
Proof.
  unfold find_col. induction cs as [|[c old] cs IH]; cbn.
  - rewrite String.eqb_refl. reflexivity.
  - destruct (String.eqb_spec c col) as [->|Hne]; cbn.
    + rewrite String.eqb_refl. reflexivity.
    + destruct (String.eqb_spec c col); [contradiction|]. exact IH.
Qed.

Lemma find_col_update_ne cs col s c :
  c <> col -> find_col (update_col cs col s) c = find_col cs c.
Proof.
  intros Hne. unfold find_col. induction cs as [|[c0 old] cs IH]; cbn.
  - destruct (String.eqb_spec col c); [congruence | reflexivity].
  - destruct (String.eqb_spec c0 col) as [->|Hne0]; cbn.
    + destruct (String.eqb_spec col c); [congruence | reflexivity].
    + destruct (String.eqb_spec c0 c); [reflexivity | exact IH].
Qed.

Lemma find_col_setitem_eq df col s df' :
  setitem df col s = Ok df' -> find_col (cols df') col = Some s.
Proof.
  unfold setitem. intros H.
  destruct (cols df) as [|c cs] eqn:E.
  - injection H as <-. cbn. unfold find_col. cbn. rewrite String.eqb_refl. reflexivity.
  - destruct (Nat.eqb (size s) (n_rows df)); [|discriminate].
    injection H as <-. apply (find_col_update_eq (c :: cs)).
Qed.

Lemma find_col_setitem_ne df col s df' c :
  c <> col -> setitem df col s = Ok df' -> find_col (cols df') c = find_col (cols df) c.
Proof.
  unfold setitem. intros Hne H.
  destruct (cols df) as [|c0 cs] eqn:E.
  - injection H as <-. cbn. unfold find_col. cbn.
    destruct (String.eqb_spec col c); [congruence | reflexivity].
  - destruct (Nat.eqb (size s) (n_rows df)); [|discriminate].
    injection H as <-. apply (find_col_update_ne (c0 :: cs)). exact Hne.
Qed.

(** Assigning to a column a Series that keeps the present entries the
    column had in [df0] preserves what is already preserved. *)
Lemma setitem_preserved df0 df col s df' :
  preserved df0 df ->
  (forall i x, entry df0 col i = Some x -> x <> SNaN -> iloc s i = Some x) ->
  setitem df col s = Ok df' ->
  preserved df0 df'.
Proof.
  intros Hp Hs Hset c i x Hx Hnan.
  unfold entry. destruct (String.eqb_spec c col) as [->|Hne].
  - rewrite (find_col_setitem_eq _ _ _ _ Hset). eauto.
  - rewrite (find_col_setitem_ne _ _ _ _ _ Hne Hset). apply Hp; assumption.
Qed.

Lemma getitem_entry df col s i :
  getitem df col = Ok s -> entry df col i = iloc s i.
Proof.
  unfold getitem, entry. destruct (find_col (cols df) col); [|discriminate].
  intros H. injection H as <-. reflexivity.
Qed.

Lemma fillna_statement_preserved df0 df col s value filled df' :
  preserved df0 df ->
  getitem df col = Ok s ->
  Series_fillna s value = Ok filled ->
  setitem df col filled = Ok df' ->
  preserved df0 df'.
Proof.
  intros Hp Hget Hfill Hset.
  eapply setitem_preserved; [exact Hp | | exact Hset].
  intros i x Hx Hnan. eapply fillna_kept; [exact Hfill | | exact Hnan].
  rewrite <- (getitem_entry _ _ _ _ Hget). apply Hp; assumption.
Qed.

Lemma keeps_logged l df0 r n k : keeps l df0 k -> keeps l df0 (logged r n k).
Proof. intros H. exact H. Qed.

Lemma keeps_alloc l df0 x v k :
  x <> "df" -> keeps l df0 k -> keeps l df0 (alloc x v k).
Proof.
  intros Hne (df & Hp & Hk). exists df. split; [|exact Hk].
  apply points_alloc_ne; assumption.
Qed.

Lemma keeps_points l df0 k df :
  points k "df" l (Frame df) -> preserved df0 df -> keeps l df0 k.
Proof. intros H1 H2. exists df. split; assumption. Qed.

Create HintDb kernel.

#[local] Hint Resolve points_logged points_shown points_updated_eq keeps_points
  keeps_logged preserved_refl : kernel.

(** The simple-imputation cell keeps every present entry of the table it
    finds under [df], whether it runs to its end or raises on the way. *)
Lemma fillna_cell_keeps l df0 k :
  keeps l df0 k -> keeps l df0 (snd (fillna_cell k)).
Proof.
  intros (df & Hp & Hk). unfold fillna_cell.
  erewrite bind_column_of by eauto.
  destruct (getitem df "Age") as [age|e] eqn:Eage; [|cbn; eauto with kernel].
  erewrite bind_column_of by eauto with kernel.
  rewrite Eage, bind_call.
  destruct (Series_mean age) as [mean|e]; [|cbn; eauto with kernel].
  rewrite bind_call.
  destruct (Series_fillna age mean) as [filled|e] eqn:Efill; [|cbn; eauto with kernel].
  erewrite bind_set_column by eauto with kernel.
  destruct (setitem df "Age" filled) as [df1|e] eqn:Eset; [|cbn; eauto 6 with kernel].
  assert (Hk1 : preserved df0 df1) by (eapply fillna_statement_preserved; eauto).
  clear Eage Efill Eset.
  erewrite bind_column_of by eauto 6 with kernel.
  destruct (getitem df1 "Gender") as [gender|e] eqn:Egender;
    [|cbn; eauto 8 with kernel].
  erewrite bind_column_of by eauto 8 with kernel.
  rewrite Egender, bind_call.
  destruct (Series_mode gender) as [modes|e]; [|cbn; eauto 10 with kernel].
  rewrite bind_call.
  destruct (Series_getitem0 modes) as [mode|e]; [|cbn; eauto 10 with kernel].
  rewrite bind_call.
  destruct (Series_fillna gender mode) as [filled'|e] eqn:Efill;
    [|cbn; eauto 12 with kernel].
  erewrite set_column_points by eauto 12 with kernel.
  destruct (setitem df1 "Gender" filled') as [df2|e] eqn:Eset;
    [|cbn; eauto 12 with kernel].
  cbn. exists df2. split; [eauto 12 with kernel|].
  eapply fillna_statement_preserved; eauto.
Qed.

End Imputation.

Section KNNImputation.

Import np sklearn pd Notebook.

Lemma sequence_ok_lookup {A} (l : list (result A)) (r : list A) :
  sequence l = Ok r ->
  length r = length l /\ forall j a, r !! j = Some a -> l !! j = Some (Ok a).
Proof.
  revert r. induction l as [|x l IH]; intros r H; cbn in H.
  - injection H as <-. split; [reflexivity|]. intros j a Hj. discriminate.
  - destruct x as [a0|e]; cbn in H; [|discriminate].
    destruct (sequence l) as [r'|e] eqn:E; cbn in H; [|discriminate].
    injection H as <-. destruct (IH r' eq_refl) as [Hlen Hlook].
    split; [cbn; congruence|].
    intros [|j] a Hj; cbn in *; [congruence | eauto].
Qed.

Lemma well_formed_sizes df c s :
  well_formed df = true -> (c, s) ∈ cols df -> size s = n_rows df.
Proof.
  unfold well_formed. intros H Hin.
  apply andb_prop in H as [H _]. rewrite forallb_forall in H.
  apply Nat.eqb_eq. apply (H (c, s)). apply list_elem_of_In. exact Hin.
Qed.

Lemma well_formed_NoDup df : well_formed df = true -> NoDup (column_names df).
Proof.
  unfold well_formed. intros H. apply andb_prop in H as [_ H].
  apply bool_decide_eq_true in H. exact H.
Qed.

Lemma find_col_NoDup cs c s :
  NoDup (map fst cs) -> (c, s) ∈ cs -> find_col cs c = Some s.
Proof.
  unfold find_col. induction cs as [|[c0 s0] cs IH]; intros Hnd Hin.
  - apply elem_of_nil in Hin. contradiction.
  - cbn in *. apply NoDup_cons in Hnd as [Hnotin Hnd].
    apply elem_of_cons in Hin as [Heq|Hin].
    + injection Heq as <- <-. rewrite String.eqb_refl. reflexivity.
    + destruct (String.eqb_spec c0 c) as [->|Hne]; [|eauto].
      exfalso. apply Hnotin. apply list_elem_of_fmap. exists (c, s). eauto.
Qed.

Lemma find_col_elem cs c s : find_col cs c = Some s -> (c, s) ∈ cs.
Proof.
  unfold find_col. induction cs as [|[c0 s0] cs IH]; cbn; [discriminate|].
  destruct (String.eqb_spec c0 c) as [->|Hne]; cbn.
  - intros H. injection H as <-. left.
  - intros H. right. eauto.
Qed.

(** With distinct column names, a name listed by [select_dtypes] for the
    numeric dtypes selects a numeric column. *)
Lemma numeric_columns_getitem df n :
  NoDup (column_names df) -> n ∈ numeric_columns df ->
  exists v, getitem df n = Ok (Numeric v).
Proof.
  intros Hnd Hin. unfold numeric_columns in Hin.
  apply list_elem_of_omap in Hin as ([c s] & Hcs & Hsome).
  cbn in Hsome. destruct s as [v| | | |]; try discriminate.
  injection Hsome as ->. exists v. unfold getitem.
  rewrite (find_col_NoDup _ _ _ Hnd Hcs). reflexivity.
Qed.

Lemma filter_all {A} (P : A -> Prop) `{!forall x, Decision (P x)} (l : list A) :
  length (filter P l) = length l -> filter P l = l.
Proof.
  induction l as [|a l IH]; [reflexivity|].
  rewrite filter_cons. destruct (decide (P a)); cbn; intros Hlen.
  - f_equal. apply IH. congruence.
  - pose proof (length_filter P l). lia.
Qed.

(** The imputer copies every present entry of its input. *)
Lemma KNNImputer_copies n (X Y : nanarray) i j row q :
  KNNImputer_fit_transform n X = Ok Y ->
  valid_features X = seq 0 (length (hd [] X)) ->
  X !! i = Some row -> row !! j = Some (Some q) ->
  (j < length (hd [] X))%nat ->
  exists out, Y !! i = Some out /\ out !! j = Some (Some q).
Proof.
  intros HY Hvalid Hi Hj Hlt.
  unfold KNNImputer_fit_transform in HY.
  assert (HY' : Y = map (fun row =>
                 map (fun j => match mjoin (row !! j) with
                               | Some v => Some v
                               | None => impute_entry n X row j
                               end) (valid_features X)) X).
  { destruct X as [|[|a r] X']; try discriminate; injection HY as <-; reflexivity. }
  subst Y. eexists. split.
  - rewrite list_lookup_fmap, Hi. reflexivity.
  - rewrite Hvalid, list_lookup_fmap, lookup_seq_lt by exact Hlt.
    cbn. rewrite Hj. reflexivity.
Qed.

Lemma KNNImputer_length n (X Y : nanarray) :
  KNNImputer_fit_transform n X = Ok Y ->
  length Y = length X /\
  forall out, out ∈ Y -> length out = length (valid_features X).
Proof.
  intros HY. unfold KNNImputer_fit_transform in HY.
  assert (HY' : Y = map (fun row =>
                 map (fun j => match mjoin (row !! j) with
                               | Some v => Some v
                               | None => impute_entry n X row j
                               end) (valid_features X)) X).
  { destruct X as [|[|a r] X']; try discriminate; injection HY as <-; reflexivity. }
  subst Y. split; [apply length_map|].
  intros out Hout. apply list_elem_of_fmap in Hout as (row & -> & _).
  apply length_map.
Qed.

Lemma assign_columns_preserved df0 names :
  forall (value : list (string * Series)) df df',
  Forall2 (fun n c => forall i x, entry df0 n i = Some x -> x <> SNaN ->
                                  iloc (snd c) i = Some x) names value ->
  preserved df0 df ->
  assign_columns df names value = Ok df' ->
  preserved df0 df'.
Proof.
  induction names as [|n names IH]; intros value df df' HF Hp Hassign.
  - inversion HF; subst. cbn in Hassign. injection Hassign as <-. exact Hp.
  - inversion HF as [|? [n' s] ? value' Hhead Htail]; subst. cbn in Hassign.
    destruct (setitem df n s) as [df1|e] eqn:Eset; cbn in Hassign; [|discriminate].
    eapply IH; [exact Htail | | exact Hassign].
    eapply setitem_preserved; [exact Hp | exact Hhead | exact Eset].
Qed.

(** The columns the imputer reads are the numeric columns of the frame,
    in the order of their names. *)
Lemma numeric_block df sub X :
  well_formed df = true ->
  getitems df (numeric_columns df) = Ok sub ->
  to_numpy sub = Ok X ->
  exists columns : list (list (option Q)),
    length columns = length (numeric_columns df) /\
    X = map (fun i => map (fun c => mjoin (c !! i)) columns) (seq 0 (n_rows df)) /\
    forall j n, numeric_columns df !! j = Some n ->
      exists v, getitem df n = Ok (Numeric v) /\ columns !! j = Some v /\
                length v = n_rows df.
Proof.
  intros Hwf Hsub HX.
  unfold getitems in Hsub.
  destruct (sequence _) as [cs|e] eqn:Ecs; cbn in Hsub; [|discriminate].
  injection Hsub as <-.
  unfold to_numpy in HX. cbn [cols n_rows] in HX.
  destruct (sequence (map _ cs)) as [columns|e] eqn:Ecolumns; cbn in HX; [|discriminate].
  injection HX as <-.
  apply sequence_ok_lookup in Ecs as [Hlen_cs Hcs].
  apply sequence_ok_lookup in Ecolumns as [Hlen_columns Hcolumns].
  rewrite length_map in Hlen_cs, Hlen_columns.
  exists columns. split; [congruence|]. split; [reflexivity|].
  intros j n Hj.
  destruct (numeric_columns_getitem df n (well_formed_NoDup _ Hwf)) as [v Hv].
  { eapply list_elem_of_lookup_2. exact Hj. }
  exists v. split; [exact Hv|].
  assert (Hjlt : (j < length cs)%nat).
  { rewrite Hlen_cs. eapply lookup_lt_Some. exact Hj. }
  destruct (lookup_lt_is_Some_2 cs j Hjlt) as [c Hc].
  pose proof (Hcs j c Hc) as Hc'.
  rewrite list_lookup_fmap, Hj in Hc'. cbn in Hc'. rewrite Hv in Hc'. cbn in Hc'.
  injection Hc' as <-.
  assert (Hjlt' : (j < length columns)%nat) by lia.
  destruct (lookup_lt_is_Some_2 columns j Hjlt') as [v' Hv'].
  pose proof (Hcolumns j v' Hv') as Hv''.
  rewrite list_lookup_fmap, Hc in Hv''. cbn in Hv''. injection Hv'' as <-.
  split; [exact Hv'|].
  unfold getitem in Hv. destruct (find_col (cols df) n) as [s|] eqn:Efind; [|discriminate].
  injection Hv as ->.
  apply (well_formed_sizes df n (Numeric v) Hwf). apply find_col_elem. exact Efind.
Qed.

Lemma hd_tabulate {A} (f : nat -> list A) (n : nat) :
  (0 < n)%nat -> hd [] (map f (seq 0 n)) = f 0%nat.
Proof. destruct n; [lia | reflexivity]. Qed.

(** The statements of the KNN cell that compute the new table keep every
    present entry of the old one. *)
Lemma knn_statements_preserved df sub X Y n imputed df' :
  well_formed df = true ->
  getitems df (numeric_columns df) = Ok sub ->
  to_numpy sub = Ok X ->
  KNNImputer_fit_transform n X = Ok Y ->
  DataFrame_from_array Y (numeric_columns df) = Ok imputed ->
  setitems df (numeric_columns df) imputed = Ok df' ->
  preserved df df'.
Proof.
  intros Hwf Hsub HX HY Himp Hset.
  destruct (numeric_block df sub X Hwf Hsub HX) as (columns & Hlen & -> & Hcol).
  set (names := numeric_columns df) in *.
  set (X := map _ (seq 0 (n_rows df))) in *.
  unfold DataFrame_from_array in Himp.
  destruct (forallb _ Y) eqn:Eshape; [|discriminate].
  injection Himp as <-.
  unfold setitems in Hset. cbn [cols] in Hset.
  destruct (Nat.eqb _ _); [|discriminate].
  eapply assign_columns_preserved; [| apply preserved_refl | exact Hset].
  apply Forall2_same_length_lookup. split; [rewrite length_imap; reflexivity|].
  intros j name c Hj Hc i x Hx Hnan.
  rewrite list_lookup_imap, Hj in Hc. cbn in Hc. injection Hc as <-. cbn [snd].
  destruct (Hcol j name Hj) as (v & Hget & Hcolj & Hsize).
  rewrite (getitem_entry _ _ _ _ Hget) in Hx. cbn in Hx.
  destruct (v !! i) as [[q|]|] eqn:Evi; cbn in Hx; try discriminate;
    injection Hx as <-; [|contradiction].
  assert (Hi : (i < n_rows df)%nat).
  { rewrite <- Hsize. eapply lookup_lt_Some. exact Evi. }
  assert (Hjlt : (j < length columns)%nat).
  { eapply lookup_lt_Some. exact Hcolj. }
  assert (Hrow : X !! i = Some (map (fun c => mjoin (c !! i)) columns)).
  { unfold X. rewrite list_lookup_fmap, lookup_seq_lt by exact Hi. reflexivity. }
  assert (Hhd : length (hd [] X) = length columns).
  { unfold X. rewrite hd_tabulate by lia. apply length_map. }
  destruct (KNNImputer_length _ _ _ HY) as [HlenY Hrows].
  assert (HXlen : length X = n_rows df).
  { unfold X. rewrite length_map, length_seq. reflexivity. }
  assert (Hvalid : valid_features X = seq 0 (length (hd [] X))).
  { apply filter_all.
    change (length (valid_features X) = length (seq 0 (length (hd [] X)))).
    rewrite length_seq, Hhd, Hlen.
    assert (HiY : (i < length Y)%nat) by lia.
    destruct (lookup_lt_is_Some_2 Y i HiY) as [out Hout].
    rewrite <- (Hrows out) by (eapply list_elem_of_lookup_2; exact Hout).
    rewrite forallb_forall in Eshape.
    apply Nat.eqb_eq, Eshape, list_elem_of_In.
    eapply list_elem_of_lookup_2. exact Hout. }
  destruct (KNNImputer_copies n X Y i j _ q HY Hvalid Hrow) as (out & Hout & Houtj).
  { rewrite list_lookup_fmap, Hcolj. cbn. rewrite Evi. reflexivity. }
  { lia. }
  cbn. rewrite list_lookup_fmap, Hout. cbn. rewrite Houtj. reflexivity.
Qed.

End KNNImputation.

Section KNNCell.

Import np sklearn pd Notebook.

Ltac kexit df := cbn [snd]; exists df; split; [kpoints | apply preserved_refl].

Lemma knn_cell_keeps l df k :
  points k "df" l (Frame df) -> well_formed df = true ->
  keeps l df (snd (knn_cell k)).
Proof.
  intros Hp Hwf. unfold knn_cell, from_import.
  rewrite bind_store.
  erewrite bind_load_frame by kpoints.
  rewrite bind_call, bind_store.
  erewrite bind_load_frame by kpoints.
  erewrite bind_load by kpoints.
  rewrite bind_call. cbn [as_names Py.bind].
  destruct (getitems df (numeric_columns df)) as [sub|e] eqn:Esub; [|kexit df].
  rewrite bind_store.
  erewrite bind_use by kpoints.
  rewrite bind_call, bind_store.
  match goal with
  | |- context [ (use "pd" ≫= ?f) ?k ] =>
      destruct (bind_use_cases "pd" f k) as [Huse|Huse]; rewrite Huse; clear Huse
  end; [|kexit df].
  erewrite bind_load by kpoints.
  rewrite bind_python.
  erewrite bind_load by kpoints.
  rewrite bind_call.
  destruct (to_numpy sub) as [X|e] eqn:EX; cbn [Py.bind]; [|kexit df].
  destruct (KNNImputer_fit_transform 3 X) as [Y|e] eqn:EY; cbn [Py.bind]; [|kexit df].
  erewrite bind_mutate by kpoints.
  erewrite bind_load by kpoints.
  rewrite bind_call. cbn [as_names Py.bind fst snd].
  destruct (DataFrame_from_array Y (numeric_columns df)) as [imputed|e] eqn:Eimp;
    [|kexit df].
  rewrite bind_store.
  erewrite bind_load by kpoints.
  erewrite bind_load_frame by kpoints.
  erewrite bind_load by kpoints.
  rewrite bind_call. cbn [as_names Py.bind].
  destruct (setitems df (numeric_columns df) imputed) as [df'|e] eqn:Eset; [|kexit df].
  erewrite mutate_points by kpoints.
  cbn [snd]. exists df'. split; [kpoints|].
  eapply knn_statements_preserved; eauto.
Qed.

End KNNCell.

(** ** Target encoding *)

Section TargetEncoding.

Import np sklearn pd Notebook.

Lemma sum_map_ext {A} (f g : A -> Q) (l : list A) :
  (forall x, x ∈ l -> f x == g x) -> sum (map f l) == sum (map g l).
Proof.
  induction l as [|a l IH]; intros H; [reflexivity|].
  cbn [map]. unfold sum in *. cbn [fold_right].
  rewrite (H a) by left. rewrite IH; [reflexivity|].
  intros x Hx. apply H. right. exact Hx.
Qed.

Lemma sum_map_plus {A} (f g : A -> Q) (l : list A) :
  sum (map (fun x => f x + g x) l) == sum (map f l) + sum (map g l).
Proof.
  induction l as [|a l IH]; [reflexivity|].
  cbn [map]. unfold sum in *. cbn [fold_right]. rewrite IH. ring.
Qed.

Lemma sum_map_const {A} (a : Q) (l : list A) :
  sum (map (fun _ => a) l) == Qnat (length l) * a.
Proof.
  induction l as [|x l IH]; cbn [map sum fold_right length];
    [change (0 == 0 * a); ring|].
  change (fold_right Qplus 0 (map (fun _ => a) l)) with (sum (map (fun _ : A => a) l)).
  rewrite IH. unfold Qnat. rewrite Nat2Z.inj_succ, <- Z.add_1_r, inject_Z_plus. ring.
Qed.

(** Exactly one of pairwise distinct labels is the label looked for. *)
Lemma sum_indicator (cs : list string) (k : string) (a : Q) :
  NoDup cs -> k ∈ cs ->
  sum (map (fun c => if decide (k = c) then a else 0) cs) == a.
Proof.
  induction cs as [|c cs IH]; intros Hnd Hin.
  - apply elem_of_nil in Hin. contradiction.
  - apply NoDup_cons in Hnd as [Hnotin Hnd]. cbn [map].
    change (sum (?x :: ?l)) with (x + sum l).
    destruct (decide (k = c)) as [->|Hne].
    + rewrite (sum_map_ext _ (fun _ => 0)).
      * rewrite sum_map_const. ring.
      * intros x Hx. destruct (decide (c = x)) as [->|]; [contradiction | reflexivity].
    + apply elem_of_cons in Hin as [?|Hin]; [contradiction|].
      rewrite (IH Hnd Hin). ring.
Qed.

(** A sum over the rows is the sum, over the groups, of the sums over the
    rows of each group. *)
Lemma sum_by_group (h : string * Q -> Q) (cs : list string) (kv : list (string * Q)) :
  NoDup cs -> (forall p, p ∈ kv -> fst p ∈ cs) ->
  sum (map h kv) == sum (map (fun c => sum (map h (rows_of kv c))) cs).
Proof.
  intros Hnd. induction kv as [|p kv IH]; intros Hcover.
  - rewrite (sum_map_ext (fun c => sum (map h (rows_of [] c))) (fun _ => 0))
      by reflexivity.
    rewrite sum_map_const. change (sum (map h [])) with 0. ring.
  - cbn [map]. change (sum (h p :: map h kv)) with (h p + sum (map h kv)).
    rewrite IH by (intros q Hq; apply Hcover; right; exact Hq).
    rewrite <- (sum_indicator cs (fst p) (h p) Hnd) at 1 by (apply Hcover; left).
    rewrite <- sum_map_plus. apply sum_map_ext. intros c _.
    unfold rows_of. rewrite filter_cons.
    destruct (decide (fst p = c)); [|ring].
    cbn [map]. change (sum (h p :: ?l)) with (h p + sum l). ring.
Qed.

Lemma mean_times_length (g : list Q) : Qnat (length g) * mean g == sum g.
Proof.
  unfold mean. destruct g as [|a g].
  - change (0 * (0 / 0) == 0). ring.
  - assert (H : ~ Qnat (length (a :: g)) == 0).
    { unfold Qnat. cbn [length]. rewrite Nat2Z.inj_succ. unfold Qeq. cbn. lia. }
    unfold Qnat in *. field. exact H.
Qed.

(** Replacing every value by the mean of its group does not change the
    total. *)
Lemma group_means_total (kv : list (string * Q)) :
  sum (map (fun p => mean (map snd (rows_of kv (fst p)))) kv) == sum (map snd kv).
Proof.
  set (cs := remove_dups (map fst kv)).
  assert (Hnd : NoDup cs) by apply NoDup_remove_dups.
  assert (Hcover : forall p, p ∈ kv -> fst p ∈ cs).
  { intros p Hp. apply elem_of_remove_dups, list_elem_of_fmap. eauto. }
  rewrite (sum_by_group _ cs kv Hnd Hcover).
  rewrite (sum_by_group snd cs kv Hnd Hcover).
  apply sum_map_ext. intros c _.
  rewrite (sum_map_ext _ (fun _ => mean (map snd (rows_of kv c)))).
  - rewrite sum_map_const. rewrite <- (length_map snd). apply mean_times_length.
  - intros p Hp. unfold rows_of in Hp. apply list_elem_of_filter in Hp as [-> _].
    reflexivity.
Qed.

Lemma group_values_somes (ks : list string) (vs : list Q) (c : string) :
  group_values (map Some ks) (map Some vs) c
  = map Some (map snd (rows_of (zip ks vs) c)).
Proof.
  unfold group_values, rows_of. revert vs.
  induction ks as [|k ks IH]; intros [|v vs]; try reflexivity.
  cbn [map zip zip_with]. rewrite !filter_cons. cbn [fst].
  destruct (decide (Some k = Some c)) as [Heq|Hne].
  - injection Heq as ->. rewrite decide_True by reflexivity.
    cbn [map snd]. f_equal. apply IH.
  - rewrite decide_False by congruence. apply IH.
Qed.

Lemma nanmean_somes (g : list Q) : g <> [] -> nanmean (map Some g) = Some (mean g).
Proof.
  intros Hg. unfold nanmean. rewrite present_somes.
  destruct g; [contradiction | reflexivity].
Qed.

Lemma zip_fst_snd (ks : list string) (vs : list Q) :
  length ks = length vs ->
  map fst (zip ks vs) = ks /\ map snd (zip ks vs) = vs.
Proof.
  intros H. split; [apply fst_zip | apply snd_zip]; lia.
Qed.

(** The encoded column of a complete table: every label is replaced by
    the mean of the target over the rows that carry it. *)
Lemma encoded_complete (ks : list string) (vs : list Q) :
  length ks = length vs ->
  map (fun x : option string =>
         x ≫= label_lookup
                (map (fun c => (c, nanmean (group_values (map Some ks) (map Some vs) c)))
                     (categories (map Some ks))))
      (map Some ks)
  = map Some (map (fun p => mean (map snd (rows_of (zip ks vs) (fst p)))) (zip ks vs)).
Proof.
  intros Hlen.
  destruct (zip_fst_snd ks vs Hlen) as [Hfst _].
  set (table := map _ (categories (map Some ks))).
  rewrite <- Hfst at 1. rewrite !map_map.
  apply map_ext_in. intros p Hp. cbn. subst table.
  apply list_elem_of_In in Hp.
  assert (Hc : fst p ∈ categories (map Some ks)).
  { apply categories_elem, list_elem_of_fmap. exists (fst p). split; [reflexivity|].
    rewrite <- Hfst. apply list_elem_of_fmap. eauto. }
  unfold label_lookup. rewrite (find_tabulated _ _ _ Hc). cbn [snd].
  rewrite group_values_somes. apply nanmean_somes.
  intros Hnil. apply fmap_nil_inv in Hnil.
  assert (Hin : p ∈ rows_of (zip ks vs) (fst p)).
  { unfold rows_of. apply list_elem_of_filter. split; [reflexivity | exact Hp]. }
  rewrite Hnil in Hin. apply elem_of_nil in Hin. contradiction.
Qed.

Lemma mean_of_group_means (ks : list string) (vs : list Q) :
  length ks = length vs ->
  mean (map (fun p => mean (map snd (rows_of (zip ks vs) (fst p)))) (zip ks vs))
  == mean vs.
Proof.
  intros Hlen. unfold mean at 1 3.
  rewrite length_map, group_means_total.
  destruct (zip_fst_snd ks vs Hlen) as [_ Hsnd].
  rewrite Hsnd. rewrite length_zip_with, Hlen, Nat.min_id. reflexivity.
Qed.

End TargetEncoding.

Section TargetEncodingCell.

Import np sklearn pd Notebook.

Lemma getitem_size df col s :
  well_formed df = true -> getitem df col = Ok s -> size s = n_rows df.
Proof.
  intros Hwf H. unfold getitem in H.
  destruct (find_col (cols df) col) as [s'|] eqn:E; [|discriminate].
  injection H as ->. eapply well_formed_sizes; [exact Hwf|].
  apply find_col_elem. exact E.
Qed.

Lemma setitem_sized df col s :
  getitem df "category" = Ok s -> size s = n_rows df ->
  forall s', size s' = n_rows df ->
  setitem df col s' = Ok (mkFrame (n_rows df) (update_col (cols df) col s')).
Proof.
  intros Hget Hsize s' Hs'. unfold setitem, getitem, find_col in *.
  destruct (cols df) as [|c cs]; [discriminate|].
  rewrite Hs', Nat.eqb_refl. reflexivity.
Qed.


End TargetEncodingCell.

(** ** The stratified split *)

Section StratifiedSplit.

Import np sklearn.

Context {G : Type} {rng : RandomState G}.

(** What is assumed of the generator: [permutation g n] is a permutation
    of [range(n)]. *)
Hypothesis permutation_spec :
  forall (g : G) (n : nat), fst (permutation g n) ≡ₚ seq 0 n.

Lemma take_clip_range (a : list nat) : take_clip a (seq 0 (length a)) = a.
Proof.
  unfold take_clip. apply list_eq. intros i.
  rewrite list_lookup_fmap.
  destruct (decide (i < length a)%nat) as [Hlt|Hge].
  - rewrite lookup_seq_lt by exact Hlt. cbn.
    rewrite Nat.min_l by lia.
    destruct (lookup_lt_is_Some_2 a i Hlt) as [x Hx].
    rewrite Hx. f_equal. apply nth_lookup_Some with (d := 0%nat) in Hx. exact Hx.
  - rewrite lookup_seq_ge by lia. rewrite lookup_ge_None_2 by lia. reflexivity.
Qed.

Lemma take_clip_Permutation (a p : list nat) :
  p ≡ₚ seq 0 (length a) -> take_clip a p ≡ₚ a.
Proof.
  intros Hp. rewrite <- (take_clip_range a) at 2.
  unfold take_clip. apply fmap_Permutation. exact Hp.
Qed.

Lemma shuffled_Permutation (g : G) (x : list nat) : fst (shuffled g x) ≡ₚ x.
Proof.
  unfold shuffled. pose proof (permutation_spec g (length x)) as Hp.
  destruct (permutation g (length x)) as [p g']. cbn in *.
  apply take_clip_Permutation. exact Hp.
Qed.

Lemma assign_classes_parts (per_class : list (list nat * (nat * nat))) :
  Forall (fun pc => length (fst pc) = (fst (snd pc) + snd (snd pc))%nat) per_class ->
  forall g, exists parts,
    class_parts per_class parts /\
    fst (fst (assign_classes g per_class)) = concat (map fst parts) /\
    snd (fst (assign_classes g per_class)) = concat (map snd parts).
Proof.
  induction per_class as [|[indices [n_i t_i]] rest IH]; intros Hlen g.
  - exists []. repeat split. constructor.
  - apply Forall_cons in Hlen as [Hhead Htail]. cbn in Hhead.
    cbn [assign_classes].
    pose proof (permutation_spec g (length indices)) as Hp.
    destruct (permutation g (length indices)) as [p g1]. cbn [fst] in Hp.
    destruct (IH Htail g1) as (parts & Hparts & Htrain & Htest).
    destruct (assign_classes g1 rest) as [[train test] g2]. cbn [fst snd] in *.
    pose proof (take_clip_Permutation indices p Hp) as Hperm.
    set (perm_indices := take_clip indices p) in *.
    assert (Hlen_perm : length perm_indices = (n_i + t_i)%nat).
    { rewrite Hperm. exact Hhead. }
    exists ((take n_i perm_indices, take t_i (drop n_i perm_indices)) :: parts).
    split; [|split].
    + constructor; [|exact Hparts]. cbn [fst snd]. split; [|split].
      * rewrite (take_ge (drop n_i perm_indices)) by (rewrite length_drop; lia).
        rewrite take_drop. exact Hperm.
      * rewrite length_take. lia.
      * rewrite length_take, length_drop. lia.
    + cbn. rewrite Htrain. reflexivity.
    + cbn. rewrite Htest. reflexivity.
Qed.

Lemma iris_split_unfold :
  split_indices 150 (1 # 5) iris_target 42 =
  (let '((train, test), g3) := assign_classes (seeded 42) iris_blocks in
   let (train, g4) := shuffled g3 train in
   let (test, _) := shuffled g4 test in
   Ok (train, test)).
Proof. vm_compute. reflexivity. Qed.

Lemma iris_block_classes :
  Forall (iris_class 0) (seq 0 50) /\
  Forall (iris_class 1) (seq 50 50) /\
  Forall (iris_class 2) (seq 100 50).
Proof.
  repeat split; apply (bool_decide_unpack _); vm_compute; exact I.
Qed.

Lemma class_count_all c idx :
  Forall (iris_class c) idx -> class_count c idx = length idx.
Proof.
  intros H. unfold class_count. f_equal.
  induction H as [|i idx Hi _ IH]; [reflexivity|].
  rewrite filter_cons, decide_True by exact Hi. f_equal. exact IH.
Qed.

Lemma class_count_none c c' idx :
  c <> c' -> Forall (iris_class c') idx -> class_count c idx = 0%nat.
Proof.
  intros Hne H. unfold class_count.
  induction H as [|i idx Hi _ IH]; [reflexivity|].
  rewrite filter_cons, decide_False; [exact IH|].
  unfold iris_class in *. congruence.
Qed.

Lemma class_count_app c a b :
  class_count c (a ++ b) = (class_count c a + class_count c b)%nat.
Proof. unfold class_count. rewrite filter_app, length_app. reflexivity. Qed.

Lemma class_count_Permutation c a b : a ≡ₚ b -> class_count c a = class_count c b.
Proof. intros H. unfold class_count. rewrite H. reflexivity. Qed.

Lemma Forall_part (P : nat -> Prop) (a b l : list nat) :
  a ++ b ≡ₚ l -> Forall P l -> Forall P a /\ Forall P b.
Proof. intros Hp Hl. rewrite <- Hp in Hl. apply Forall_app in Hl. exact Hl. Qed.

Lemma interleave_blocks {A} (a0 a1 a2 b0 b1 b2 : list A) :
  (a0 ++ a1 ++ a2) ++ (b0 ++ b1 ++ b2) ≡ₚ (a0 ++ b0) ++ (a1 ++ b1) ++ (a2 ++ b2).
Proof.
  rewrite <- !app_assoc. apply Permutation_app_head.
  rewrite (Permutation_app_swap_app b0 a1). apply Permutation_app_head.
  rewrite (Permutation_app_swap_app a2 b0). apply Permutation_app_head.
  apply Permutation_app_swap_app.
Qed.

(** The split hands out, of each block of 50 samples of one class, 40 to
    the training and 10 to the test indices. *)
Lemma iris_split_parts :
  exists train test tr0 te0 tr1 te1 tr2 te2,
    split_indices 150 (1 # 5) iris_target 42 = Ok (train, test) /\
    train ≡ₚ tr0 ++ tr1 ++ tr2 /\ test ≡ₚ te0 ++ te1 ++ te2 /\
    (tr0 ++ te0 ≡ₚ seq 0 50 /\ length tr0 = 40%nat /\ length te0 = 10%nat) /\
    (tr1 ++ te1 ≡ₚ seq 50 50 /\ length tr1 = 40%nat /\ length te1 = 10%nat) /\
    (tr2 ++ te2 ≡ₚ seq 100 50 /\ length tr2 = 40%nat /\ length te2 = 10%nat).
Proof.
  rewrite iris_split_unfold.
  destruct (assign_classes_parts iris_blocks) with (g := seeded 42)
    as (parts & Hparts & Htrain & Htest).
  { repeat constructor. }
  destruct (assign_classes (seeded 42) iris_blocks) as [[train0 test0] g3].
  cbn [fst snd] in Htrain, Htest.
  pose proof (shuffled_Permutation g3 train0) as Hsh_train.
  destruct (shuffled g3 train0) as [train g4]. cbn [fst] in Hsh_train.
  pose proof (shuffled_Permutation g4 test0) as Hsh_test.
  destruct (shuffled g4 test0) as [test g5]. cbn [fst] in Hsh_test.
  unfold class_parts, iris_blocks in Hparts.
  apply Forall2_cons_inv_l in Hparts as ([tr0 te0] & parts1 & H0 & Hparts & ->).
  apply Forall2_cons_inv_l in Hparts as ([tr1 te1] & parts2 & H1 & Hparts & ->).
  apply Forall2_cons_inv_l in Hparts as ([tr2 te2] & parts3 & H2 & Hparts & ->).
  apply Forall2_nil_inv_l in Hparts as ->.
  cbn [fst snd map concat] in *. rewrite app_nil_r in Htrain, Htest.
  subst train0 test0.
  exists train, test, tr0, te0, tr1, te1, tr2, te2.
  split; [reflexivity|]. auto 10.
Qed.

(** Training and test indices together are the 150 samples. *)
Lemma iris_split_cover (train test tr0 te0 tr1 te1 tr2 te2 : list nat) :
  train ≡ₚ tr0 ++ tr1 ++ tr2 -> test ≡ₚ te0 ++ te1 ++ te2 ->
  tr0 ++ te0 ≡ₚ seq 0 50 -> tr1 ++ te1 ≡ₚ seq 50 50 -> tr2 ++ te2 ≡ₚ seq 100 50 ->
  train ++ test ≡ₚ seq 0 150.
Proof.
  intros Htrain Htest P0 P1 P2. rewrite Htrain, Htest.
  change (seq 0 150) with (seq 0 50 ++ seq 50 50 ++ seq 100 50).
  rewrite <- P0, <- P1, <- P2.
  apply interleave_blocks.
Qed.

(** C5.  The stratified split of the iris data with [test_size=0.2]:
    whatever permutations the random generator delivers, the split
    returns a training and a test index list that are disjoint, together
    are the 150 samples, have 120 and 30 elements, and hold 40 and 10
    samples of each of the three classes. *)
Theorem stratified_split_iris :
  exists train test,
    split_indices 150 (1 # 5) iris_target 42 = Ok (train, test) /\
    (forall i, i ∈ train -> i ∉ test) /\
    train ++ test ≡ₚ seq 0 (length iris_target) /\
    length iris_target = 150%nat /\
    length test = 30%nat /\ length train = 120%nat /\
    (forall c, (c < 3)%nat ->
       class_count c test = 10%nat /\ class_count c train = 40%nat).
Proof.
  destruct iris_split_parts
    as (train & test & tr0 & te0 & tr1 & te1 & tr2 & te2 & Hsplit &
        Hsh_train & Hsh_test & (P0 & L0 & T0) & (P1 & L1 & T1) & (P2 & L2 & T2)).
  pose proof (iris_split_cover _ _ _ _ _ _ _ _ Hsh_train Hsh_test P0 P1 P2) as Hall.
  destruct iris_block_classes as (C0 & C1 & C2).
  destruct (Forall_part _ _ _ _ P0 C0) as [Ctr0 Cte0].
  destruct (Forall_part _ _ _ _ P1 C1) as [Ctr1 Cte1].
  destruct (Forall_part _ _ _ _ P2 C2) as [Ctr2 Cte2].
  exists train, test. split; [exact Hsplit|].
  split; [|split; [exact Hall|split; [reflexivity|split; [|split]]]].
  - assert (Hnd : NoDup (train ++ test)) by (rewrite Hall; apply NoDup_seq).
    apply NoDup_app in Hnd as (_ & Hdisj & _). exact Hdisj.
  - rewrite Hsh_test, !length_app. lia.
  - rewrite Hsh_train, !length_app. lia.
  - intros c Hc.
    rewrite (class_count_Permutation c _ _ Hsh_test),
            (class_count_Permutation c _ _ Hsh_train), !class_count_app.
    destruct c as [|[|[|c]]]; [| | |lia].
    + rewrite (class_count_all 0 te0 Cte0), (class_count_all 0 tr0 Ctr0),
        (class_count_none 0 1 te1), (class_count_none 0 2 te2),
        (class_count_none 0 1 tr1), (class_count_none 0 2 tr2)
        by (assumption || discriminate). lia.
    + rewrite (class_count_all 1 te1 Cte1), (class_count_all 1 tr1 Ctr1),
        (class_count_none 1 0 te0), (class_count_none 1 2 te2),
        (class_count_none 1 0 tr0), (class_count_none 1 2 tr2)
        by (assumption || discriminate). lia.
    + rewrite (class_count_all 2 te2 Cte2), (class_count_all 2 tr2 Ctr2),
        (class_count_none 2 0 te0), (class_count_none 2 1 te1),
        (class_count_none 2 0 tr0), (class_count_none 2 1 tr1)
        by (assumption || discriminate). lia.
Qed.

End StratifiedSplit.

(** ** Which state a cell depends on *)

Section Dependence.

Import Notebook.

Lemma indep_ret {A} W (a : A) : independent W W (mret a).
Proof. intros k1 k2 [Ho Hb]. cbn. repeat split; try apply Ho; try apply Hb. Qed.

Lemma indep_bind {A B} W W1 W2 (m : Cell A) (f : A -> Cell B) :
  independent W W1 m -> (forall a, independent W1 W2 (f a)) ->
  independent W W2 (m ≫= f).
Proof.
  intros Hm Hf k1 k2 Hagree.
  destruct (Hm k1 k2 Hagree) as (Hres & Hout & Hnext).
  unfold mbind, Cell_bind.
  destruct (m k1) as [[a|e] k1'], (m k2) as [[a'|e'] k2']; cbn in *;
    try discriminate.
  - injection Hres as <-. apply Hf. eapply Hnext. reflexivity.
  - split; [congruence|]. split; [exact Hout|]. intros a Ha. discriminate.
Qed.

Lemma indep_python {A} W (res : result A) : independent W W (python res).
Proof. intros k1 k2 [Ho Hb]. cbn. repeat split; try apply Ho; try apply Hb. Qed.

Lemma indep_call {A} W r n (res : result A) : independent W W (call r n res).
Proof.
  intros k1 k2 [[Hs Hc] Hb]. cbn.
  repeat split; try assumption; try apply Hb; cbn; congruence.
Qed.

Lemma indep_display W vs : independent W W (display vs).
Proof.
  intros k1 k2 [[Hs Hc] Hb]. cbn.
  repeat split; try assumption; try apply Hb; cbn; congruence.
Qed.

Lemma indep_load W x : x ∈ W -> independent W W (load x).
Proof.
  intros Hx k1 k2 [Ho Hb].
  destruct (proj1 Hb x Hx) as (l1 & l2 & v & H1 & H2).
  rewrite (load_points _ _ _ _ H1), (load_points _ _ _ _ H2). cbn.
  repeat split; try apply Ho; try apply Hb.
Qed.

Lemma indep_store W x v : independent W (x :: W) (store x v).
Proof.
  intros k1 k2 [Ho (Hb & I1 & I2)]. cbn.
  assert (Hlt : forall y, y ∈ W ->
            (forall l, globals k1 !! y = Some l -> l < length (heap k1))%nat /\
            (forall l, globals k2 !! y = Some l -> l < length (heap k2))%nat).
  { intros y Hy. destruct (Hb y Hy) as (l1 & l2 & w & H1 & H2).
    split; intros l Hl.
    - destruct H1 as [Hg Hh]. rewrite Hg in Hl. injection Hl as <-.
      eapply lookup_lt_Some; eauto.
    - destruct H2 as [Hg Hh]. rewrite Hg in Hl. injection Hl as <-.
      eapply lookup_lt_Some; eauto. }
  repeat split; try apply Ho.
  - intros y Hy. destruct (decide (y = x)) as [->|Hne].
    + do 3 eexists. split; apply points_alloc_eq.
    + apply elem_of_cons in Hy as [?|Hy]; [contradiction|].
      destruct (Hb y Hy) as (l1 & l2 & w & H1 & H2).
      exists l1, l2, w. split; apply points_alloc_ne; auto.
  - intros y z l Hy Hz. cbn.
    destruct (decide (y = x)) as [->|Hney], (decide (z = x)) as [->|Hnez];
      rewrite ?lookup_insert_eq, ?lookup_insert_ne by auto; try congruence.
    + intros Hl Hz'. injection Hl as <-.
      apply elem_of_cons in Hz as [?|Hz]; [contradiction|].
      apply (Hlt z Hz) in Hz'. lia.
    + intros Hy' Hl. injection Hl as <-.
      apply elem_of_cons in Hy as [?|Hy]; [contradiction|].
      apply (Hlt y Hy) in Hy'. lia.
    + apply elem_of_cons in Hy as [?|Hy]; [contradiction|].
      apply elem_of_cons in Hz as [?|Hz]; [contradiction|]. eauto.
  - intros y z l Hy Hz. cbn.
    destruct (decide (y = x)) as [->|Hney], (decide (z = x)) as [->|Hnez];
      rewrite ?lookup_insert_eq, ?lookup_insert_ne by auto; try congruence.
    + intros Hl Hz'. injection Hl as <-.
      apply elem_of_cons in Hz as [?|Hz]; [contradiction|].
      apply (Hlt z Hz) in Hz'. lia.
    + intros Hy' Hl. injection Hl as <-.
      apply elem_of_cons in Hy as [?|Hy]; [contradiction|].
      apply (Hlt y Hy) in Hy'. lia.
    + apply elem_of_cons in Hy as [?|Hy]; [contradiction|].
      apply elem_of_cons in Hz as [?|Hz]; [contradiction|]. eauto.
Qed.

Lemma indep_mutate W x v : x ∈ W -> independent W W (mutate x v).
Proof.
  intros Hx k1 k2 [Ho (Hb & I1 & I2)].
  destruct (Hb x Hx) as (l1 & l2 & w & H1 & H2).
  rewrite (mutate_points _ _ _ _ v H1), (mutate_points _ _ _ _ v H2). cbn.
  repeat split; try apply Ho; try assumption.
  intros y Hy. destruct (decide (y = x)) as [->|Hne].
  - exists l1, l2, v. split; eapply points_updated_eq; eauto.
  - destruct (Hb y Hy) as (m1 & m2 & u & G1 & G2).
    exists m1, m2, u. split; apply points_updated_ne; auto.
    + intros ->. apply Hne. apply (I1 y x l1 Hy Hx); [apply G1 | apply H1].
    + intros ->. apply Hne. apply (I2 y x l2 Hy Hx); [apply G2 | apply H2].
Qed.

End Dependence.

Section CellDependence.

Import Notebook.

Lemma same_bindings_value W k1 k2 x :
  same_bindings W k1 k2 -> x ∈ W -> value_of k1 x = value_of k2 x.
Proof.
  intros (Hb & _) Hx. destruct (Hb x Hx) as (l1 & l2 & v & H1 & H2).
  rewrite (points_value _ _ _ _ H1), (points_value _ _ _ _ H2). reflexivity.
Qed.

Lemma independent_depends reads W' defines (c : Cell unit) :
  independent reads W' c -> defines ⊆ W' -> depends_only_on reads defines c.
Proof.
  intros Hc Hsub k1 k2 Hb. unfold outcome, run.
  set (c1 := mkKernel (globals k1) (heap k1) [] []).
  set (c2 := mkKernel (globals k2) (heap k2) [] []).
  destruct (Hc c1 c2) as (Hres & [Hs Hcalls] & Hnext).
  { split; [split; reflexivity | exact Hb]. }
  rewrite Hres, Hs, Hcalls. f_equal.
  destruct (fst (c c1)) as [[]|e] eqn:E1; rewrite <- Hres; cbn; [|reflexivity].
  destruct (Hnext tt eq_refl) as [_ Hb'].
  apply map_ext_in. intros x Hx.
  apply (same_bindings_value W'); [exact Hb'|].
  apply Hsub, list_elem_of_In, Hx.
Qed.

Lemma same_bindings_nil k1 k2 : same_bindings [] k1 k2.
Proof.
  repeat split; intros x; intros; exfalso; eapply elem_of_nil; eauto.
Qed.

Lemma independent_self_contained W' defines (c : Cell unit) :
  independent [] W' c -> defines ⊆ W' -> self_contained defines c.
Proof.
  intros Hc Hsub k1 k2.
  apply (independent_depends [] W' defines c Hc Hsub). apply same_bindings_nil.
Qed.

End CellDependence.

Ltac head_of t := lazymatch t with ?f _ => head_of f | _ => t end.

Ltac elem_of_list := repeat constructor.

Ltac names_included :=
  let x := fresh "x" in
  let Hx := fresh "Hx" in
  intros x Hx;
  repeat (apply elem_of_cons in Hx as [->|Hx]; [elem_of_list|]);
  apply elem_of_nil in Hx; contradiction.

(** The rules of [independent], applied along the code of a cell. *)
Ltac indep :=
  lazymatch goal with
  | |- independent _ _ (_ ≫= _) => eapply indep_bind; [indep | intros; indep]
  | |- independent _ _ (mret _) => apply indep_ret
  | |- independent _ _ (Notebook.python _) => apply indep_python
  | |- independent _ _ (Notebook.call _ _ _) => apply indep_call
  | |- independent _ _ (Notebook.display _) => apply indep_display
  | |- independent _ _ (Notebook.store _ _) => apply indep_store
  | |- independent _ _ (Notebook.load _) => apply indep_load; elem_of_list
  | |- independent _ _ (Notebook.mutate _ _) => apply indep_mutate; elem_of_list
  | |- independent _ _ (match ?v with _ => _ end) => destruct v; indep
  | |- independent _ _ ?m => let h := head_of m in unfold h; indep
  end.

(** ** Which objects a cell changes *)

Section Locality.

Import Notebook.

Lemma local_ret {A} W (a : A) : local W W (mret a).
Proof. intros h0 k Hp Ho. cbn. auto. Qed.

Lemma local_bind {A B} W W1 W2 (m : Cell A) (f : A -> Cell B) :
  local W W1 m -> (forall a, local W1 W2 (f a)) -> local W W2 (m ≫= f).
Proof.
  intros Hm Hf h0 k Hp Ho.
  destruct (Hm h0 k Hp Ho) as [Hp' Ho'].
  unfold mbind, Cell_bind. destruct (m k) as [[a|e] k']; cbn in *.
  - apply Hf; [exact Hp' | apply (Ho' a eq_refl)].
  - split; [exact Hp'|]. intros a Ha. discriminate.
Qed.

Lemma local_python {A} W (res : result A) : local W W (python res).
Proof. intros h0 k Hp Ho. cbn. auto. Qed.

Lemma local_call {A} W r n (res : result A) : local W W (call r n res).
Proof. intros h0 k Hp Ho. cbn. auto. Qed.

Lemma local_display W vs : local W W (display vs).
Proof. intros h0 k Hp Ho. cbn. auto. Qed.

Lemma local_load W x : local W W (load x).
Proof.
  intros h0 k Hp Ho. unfold load. destruct (value_of k x); cbn; auto.
Qed.

Lemma local_store W x v : local W (x :: W) (store x v).
Proof.
  intros h0 k Hp Ho. cbn. split.
  - apply prefix_app_r. exact Hp.
  - intros _ _ y Hy. cbn. destruct (decide (y = x)) as [->|Hne].
    + rewrite lookup_insert_eq. eexists. split; [reflexivity|].
      apply prefix_length. exact Hp.
    + rewrite lookup_insert_ne by auto.
      apply elem_of_cons in Hy as [?|Hy]; [contradiction|]. auto.
Qed.

Lemma local_mutate W x v : x ∈ W -> local W W (mutate x v).
Proof.
  intros Hx h0 k Hp Ho. unfold mutate.
  destruct (Ho x Hx) as (l & Hl & Hge). rewrite Hl.
  destruct (decide (l < length (heap k))%nat); cbn; [|auto].
  split; [|intros _ _; exact Ho].
  destruct Hp as [t Ht]. rewrite Ht.
  rewrite insert_app_r_alt by exact Hge. apply prefix_app_r. reflexivity.
Qed.

Lemma local_keeps_heap W' (c : Cell unit) : local [] W' c -> keeps_heap c.
Proof.
  intros Hc k. unfold run.
  apply (Hc (heap k) (mkKernel (globals k) (heap k) [] [])); [reflexivity|].
  intros x Hx. apply elem_of_nil in Hx. contradiction.
Qed.

End Locality.

(** The rules of [local], applied along the code of a cell. *)
Ltac locality :=
  lazymatch goal with
  | |- local _ _ (_ ≫= _) => eapply local_bind; [locality | intros; locality]
  | |- local _ _ (mret _) => apply local_ret
  | |- local _ _ (Notebook.python _) => apply local_python
  | |- local _ _ (Notebook.call _ _ _) => apply local_call
  | |- local _ _ (Notebook.display _) => apply local_display
  | |- local _ _ (Notebook.store _ _) => apply local_store
  | |- local _ _ (Notebook.load _) => apply local_load
  | |- local _ _ (Notebook.mutate _ _) => apply local_mutate; elem_of_list
  | |- local _ _ (match ?v with _ => _ end) => destruct v; locality
  | |- local _ _ ?m => let h := head_of m in unfold h; locality
  end.

Section Cells.

Import Notebook.

Context {G : Type} {rng : sklearn.RandomState G} {ext : External}.

Ltac isolated := split; [eexists; split; [indep | names_included] | eexists; locality].

Lemma minmax_cell_isolated :
  isolated ["data"; "scaler"; "scaled_data"] minmax_cell.
Proof. isolated. Qed.

Lemma standard_cell_isolated :
  isolated ["data"; "scaler"; "scaled_data"] standard_cell.
Proof. isolated. Qed.

Lemma robust_cell_isolated :
  isolated ["data"; "scaler"; "scaled_data"] robust_cell.
Proof. isolated. Qed.

Lemma label_cell_isolated : isolated ["data"; "le"; "encoded"] label_cell.
Proof. isolated. Qed.

Lemma one_hot_cell_isolated : isolated ["df"; "one_hot"] one_hot_cell.
Proof. isolated. Qed.

Lemma ordinal_cell_isolated : isolated ["data"; "encoder"; "encoded"] ordinal_cell.
Proof. isolated. Qed.

Lemma target_encoding_cell_isolated :
  isolated ["df"; "target_means"] target_encoding_cell.
Proof. isolated. Qed.

Lemma detection_cell_isolated : isolated ["data"; "df"] detection_cell.
Proof. isolated. Qed.

Lemma datetime_cell_isolated : isolated ["df"] datetime_cell.
Proof. isolated. Qed.

Lemma split_cell_isolated :
  isolated ["iris"; "X"; "y"; "X_train"; "X_test"; "y_train"; "y_test"] split_cell.
Proof. isolated. Qed.

End Cells.

Section DependentCells.

Import Notebook.

Context {G : Type} {rng : sklearn.RandomState G} {ext : External}.

Ltac reader := split; [eexists; split; [indep | names_included] | eexists; locality].
Ltac updater := eexists; split; [indep | names_included].

Lemma dropna_cell_reader :
  reader ["df"] ["df_drop_rows"; "df_drop_cols"] dropna_cell.
Proof. reader. Qed.

Lemma grid_search_cell_reader :
  reader ["X_train"; "y_train"] ["param_grid"; "cv"; "grid"] grid_search_cell.
Proof. reader. Qed.

Lemma evaluation_cell_reader :
  reader ["grid"; "X_test"; "y_test"] ["best_model"; "y_pred"] evaluation_cell.
Proof. reader. Qed.

Lemma frequency_encoding_cell_updater :
  updater ["df"] ["freq"; "df"] frequency_encoding_cell.
Proof. updater. Qed.

Lemma fillna_cell_updater : updater ["df"] ["df"] fillna_cell.
Proof. updater. Qed.

Lemma knn_cell_updater :
  updater ["df"; "pd"] ["num_cols"; "df_num"; "imputer"; "df_num_imputed"; "df"] knn_cell.
Proof. updater. Qed.

End DependentCells.

Section NotIsolated.

Import Notebook.


End NotIsolated.

(** ** Library calls per cell, and runs without exception *)

Section Traces.

Import np sklearn pd Notebook.

Lemma traces_numeric_scaling :
  traces numeric_scaling fresh =
  [["MinMaxScaler.fit_transform"]; ["StandardScaler.fit_transform"];
   ["RobustScaler.fit_transform"]].
Proof. reflexivity. Qed.

Lemma traces_categorical_encoding :
  traces categorical_encoding fresh =
  [["LabelEncoder.fit_transform"]; ["pd.get_dummies"];
   ["OrdinalEncoder.fit_transform"];
   ["DataFrame.groupby"; "SeriesGroupBy.mean"; "Series.map"];
   ["Series.value_counts"; "Series.map"]].
Proof. vm_compute. reflexivity. Qed.

Lemma traces_missing_values :
  traces missing_values fresh =
  [["DataFrame.isnull"; "DataFrame.sum"; "DataFrame.isnull"];
   ["DataFrame.dropna"; "DataFrame.dropna"];
   ["Series.mean"; "Series.fillna"; "Series.mode"; "Series.fillna"];
   ["KNNImputer.fit_transform"]].
Proof. vm_compute. reflexivity. Qed.

Lemma traces_date_time_processing :
  traces date_time_processing fresh =
  [["Series.dt.year"; "Series.dt.month"; "Series.dt.day"; "Series.dt.weekday";
    "Series.dt.hour";
    "Series.__rmul__"; "Series.__truediv__"; "np.sin";
    "Series.__rmul__"; "Series.__truediv__"; "np.cos"]].
Proof. reflexivity. Qed.

Lemma runs_numeric_scaling : fst (run_all numeric_scaling fresh) = Ok tt.
Proof. reflexivity. Qed.

Lemma runs_categorical_encoding : fst (run_all categorical_encoding fresh) = Ok tt.
Proof. vm_compute. reflexivity. Qed.

Lemma runs_missing_values : fst (run_all missing_values fresh) = Ok tt.
Proof. vm_compute. reflexivity. Qed.

Lemma runs_date_time_processing : fst (run_all date_time_processing fresh) = Ok tt.
Proof. reflexivity. Qed.

End Traces.

(** ** The splitting and tuning notebook, run in order *)

Section SplittingNotebook.

Import np sklearn pd Notebook.

Context {G : Type} {rng : RandomState G} {ext : External}.

Lemma safe_indexing_length {A} (a : list A) (idx : list nat) :
  Forall (fun i => i < length a)%nat idx -> length (_safe_indexing a idx) = length idx.
Proof.
  unfold _safe_indexing. induction 1 as [|i idx Hi _ IH]; [reflexivity|].
  cbn. destruct (lookup_lt_is_Some_2 a i Hi) as [x Hx]. rewrite Hx. cbn.
  f_equal. exact IH.
Qed.

Lemma train_test_split_iris train test :
  split_indices 150 (1 # 5) iris_target 42 = Ok (train, test) ->
  train_test_split iris_data iris_target (1 # 5) iris_target 42 =
  Ok ((_safe_indexing iris_data train, _safe_indexing iris_data test),
      (_safe_indexing iris_target train, _safe_indexing iris_target test)).
Proof.
  intros Hsplit. unfold train_test_split. rewrite iris_data_len, Hsplit.
  reflexivity.
Qed.

(** The split cell runs to its end from a fresh kernel, and leaves the
    four parts of the data under their names. *)
Lemma split_cell_runs :
  exists k train test lX lt ly lyt,
    run split_cell fresh = (Ok tt, k) /\
    split_indices 150 (1 # 5) iris_target 42 = Ok (train, test) /\
    transform_calls k = ["train_test_split"] /\
    points k "X_train" lX (Array (_safe_indexing iris_data train)) /\
    points k "X_test" lt (Array (_safe_indexing iris_data test)) /\
    points k "y_train" ly (Labels (_safe_indexing iris_target train)) /\
    points k "y_test" lyt (Labels (_safe_indexing iris_target test)).
Proof.
  assert (Hsplit : exists train test,
             split_indices 150 (1 # 5) iris_target 42 = Ok (train, test)).
  { rewrite iris_split_unfold.
    destruct (assign_classes (seeded 42) iris_blocks) as [[tr te] g3].
    destruct (shuffled g3 tr) as [tr' g4]. destruct (shuffled g4 te) as [te' g5].
    eauto. }
  destruct Hsplit as (train & test & Hsplit).
  apply train_test_split_iris in Hsplit as Hcall.
  unfold run, split_cell, from_import.
  rewrite !bind_store.
  erewrite bind_use by kpoints.
  rewrite bind_call, bind_store.
  erewrite bind_load by kpoints.
  rewrite bind_python. cbn [as_bunch Py.bind fst snd].
  erewrite bind_load by kpoints.
  rewrite bind_python. cbn [as_bunch Py.bind fst snd].
  rewrite !bind_store.
  erewrite bind_use by kpoints.
  erewrite bind_load by kpoints.
  erewrite bind_load by kpoints.
  erewrite bind_load by kpoints.
  rewrite bind_call. cbn [as_array as_labels Py.bind].
  rewrite Hcall. cbn [fst snd].
  rewrite !bind_store.
  do 7 eexists. split; [reflexivity|]. split; [exact Hsplit|].
  split; [reflexivity|].
  split; [kpoints|]. split; [kpoints|]. split; kpoints.
Qed.

Lemma split_indices_in_range train test :
  (forall (g : G) (n : nat), fst (permutation g n) ≡ₚ seq 0 n) ->
  split_indices 150 (1 # 5) iris_target 42 = Ok (train, test) ->
  Forall (fun i => i < 150)%nat train /\ Forall (fun i => i < 150)%nat test /\
  length test = 30%nat.
Proof.
  intros Hperm Hsplit.
  destruct (iris_split_parts Hperm)
    as (train' & test' & tr0 & te0 & tr1 & te1 & tr2 & te2 & Hsplit' &
        Htr & Hte & (P0 & L0 & T0) & (P1 & L1 & T1) & (P2 & L2 & T2)).
  rewrite Hsplit in Hsplit'. injection Hsplit' as <- <-.
  pose proof (iris_split_cover _ _ _ _ _ _ _ _ Htr Hte P0 P1 P2) as Hall.
  assert (Hrange : Forall (fun i => i < 150)%nat (train ++ test)).
  { rewrite Hall. apply Forall_forall. intros i Hi. apply elem_of_seq in Hi. lia. }
  apply Forall_app in Hrange as [Htrain Htest].
  split; [exact Htrain|]. split; [exact Htest|].
  rewrite Hte, !length_app. lia.
Qed.

(** The tuning cell makes one transforming call, whatever the search
    returns; and if the search returns, the cell runs to its end and
    leaves the fitted search under [grid]. *)
Lemma grid_search_cell_runs k X y lX ly :
  points k "X_train" lX (Array X) ->
  points k "y_train" ly (Labels y) ->
  transform_calls (snd (run grid_search_cell k)) = ["GridSearchCV.fit"] /\
  (forall C predict,
     GridSearchCV_fit 1000 [1 # 10; 1; 10] 5 42 X y = Ok (C, predict) ->
     exists k' lg,
       run grid_search_cell k = (Ok tt, k') /\
       points k' "grid" lg
              (Estimator (EGrid 1000 [1 # 10; 1; 10] 5 42 (Some (C, predict)))) /\
       (forall x l v, x <> "param_grid" -> x <> "cv" -> x <> "grid" ->
          x <> "LogisticRegression" -> x <> "GridSearchCV" ->
          x <> "StratifiedKFold" ->
          points k x l v -> points k' x l v)).
Proof.
  intros HX Hy.
  unfold run, grid_search_cell, from_import.
  rewrite !bind_store.
  erewrite bind_use by kpoints.
  rewrite bind_call, bind_store.
  erewrite bind_use by kpoints.
  erewrite bind_use by kpoints.
  rewrite bind_call.
  erewrite bind_load by kpoints.
  erewrite bind_load by kpoints.
  rewrite bind_call, bind_store.
  erewrite bind_load by kpoints.
  erewrite bind_load by kpoints.
  erewrite bind_load by kpoints.
  rewrite bind_assoc, bind_call. cbn [as_array as_labels Py.bind].
  destruct (GridSearchCV_fit 1000 [1 # 10; 1; 10] 5 42 X y)
    as [[C predict]|e] eqn:Efit.
  - rewrite bind_ret.
    erewrite bind_mutate by kpoints.
    erewrite bind_load by kpoints.
    rewrite bind_python. cbn [fst].
    unfold print. rewrite bind_call.
    match goal with
    | |- context [ display ?vs ?k ] => change (display vs k) with (Ok tt, shown vs k)
    end.
    split; [reflexivity|].
    intros C' predict' [= <- <-].
    do 2 eexists. split; [reflexivity|]. split; [kpoints|].
    intros x l v H1 H2 H3 H4 H5 H6 Hp.
    apply points_shown, points_logged.
    eapply points_updated_ne'; [|klen].
    apply points_logged.
    apply points_alloc_ne; [congruence|]. apply points_logged.
    apply points_logged.
    apply points_alloc_ne; [congruence|]. apply points_logged.
    apply points_alloc_ne; [congruence|].
    apply points_alloc_ne; [congruence|].
    apply points_alloc_ne; [congruence|].
    apply points_alloc_ne; [congruence|].
    apply points_cleared. exact Hp.
  - split; [reflexivity|]. intros C predict [=].
Qed.

(** The evaluation cell runs to its end after the tuning cell, provided
    the model predicts one label for each of the test rows, of which
    there is at least one. *)
Lemma evaluation_cell_runs k X y lX ly lg C predict :
  points k "grid" lg
         (Estimator (EGrid 1000 [1 # 10; 1; 10] 5 42 (Some (C, predict)))) ->
  points k "X_test" lX (Array X) ->
  points k "y_test" ly (Labels y) ->
  length (predict X) = length y -> y <> [] ->
  exists k',
    run evaluation_cell k = (Ok tt, k') /\
    transform_calls k' = ["LogisticRegression.predict"; "accuracy_score"].
Proof.
  intros Hg HX Hy Hlen Hne.
  unfold run, evaluation_cell, from_import.
  rewrite !bind_store.
  erewrite bind_load by kpoints.
  rewrite bind_python. cbn [snd].
  rewrite bind_store.
  erewrite bind_load by kpoints.
  rewrite bind_python. cbn [as_predictor].
  erewrite bind_load by kpoints.
  rewrite bind_call. cbn [as_array Py.bind].
  rewrite bind_store.
  erewrite bind_use by kpoints.
  erewrite bind_load by kpoints.
  erewrite bind_load by kpoints.
  rewrite bind_call. cbn [as_labels Py.bind].
  assert (Hacc : exists q, accuracy_score y (predict X) = Ok q).
  { unfold accuracy_score. rewrite Hlen, Nat.eqb_refl. cbn [negb].
    destruct y; [contradiction|eauto]. }
  destruct Hacc as [q ->].
  eexists. split; reflexivity.
Qed.

(** The first two cells of the splitting notebook make one transforming
    call each. *)
Lemma splitting_and_tuning_calls :
  exists k,
    run split_cell fresh = (Ok tt, k) /\
    transform_calls k = ["train_test_split"] /\
    transform_calls (snd (run grid_search_cell k)) = ["GridSearchCV.fit"].
Proof.
  destruct split_cell_runs
    as (k & train & test & lX & lt & ly & lyt & Hrun & Hsplit & Htrace &
        HX & Ht & Hy & Hyt).
  exists k. split; [exact Hrun|]. split; [exact Htrace|].
  apply (grid_search_cell_runs k _ _ _ _ HX Hy).
Qed.

(** The splitting notebook runs to its end, provided the library keeps
    its contract. *)
Lemma splitting_and_tuning_runs :
  library_contract -> fst (run_all splitting_and_tuning fresh) = Ok tt.
Proof.
  intros (Hperm & Hfit & Hpredict).
  destruct split_cell_runs
    as (k & train & test & lX & lt & ly & lyt & Hrun & Hsplit & Htrace &
        HX & Ht & Hy & Hyt).
  destruct (split_indices_in_range _ _ Hperm Hsplit) as (_ & Htest & Hlen).
  pose proof (Hfit (_safe_indexing iris_data train) (_safe_indexing iris_target train))
    as Hok.
  destruct (GridSearchCV_fit 1000 [1 # 10; 1; 10] 5 42
              (_safe_indexing iris_data train) (_safe_indexing iris_target train))
    as [[C predict]|e] eqn:Efit; [|inversion Hok].
  destruct (grid_search_cell_runs k _ _ _ _ HX Hy) as [_ Hgrid].
  destruct (Hgrid C predict Efit) as (k1 & lg & Hrun1 & Hg & Hkeep).
  destruct (evaluation_cell_runs k1 (_safe_indexing iris_data test)
              (_safe_indexing iris_target test) lt lyt lg C predict)
    as (k2 & Hrun2 & Htrace2).
  - exact Hg.
  - apply Hkeep; [discriminate..|exact Ht].
  - apply Hkeep; [discriminate..|exact Hyt].
  - rewrite (Hpredict _ _ _ _ _ Efit).
    rewrite !safe_indexing_length by (rewrite ?iris_data_len; exact Htest).
    reflexivity.
  - intros E. apply (f_equal length) in E.
    rewrite safe_indexing_length in E by exact Htest. cbn in E. lia.
  - unfold splitting_and_tuning. cbn [run_all].
    rewrite Hrun, Hrun1, Hrun2. reflexivity.
Qed.

End SplittingNotebook.

(** ** The imputation cells *)

Section ImputationCells.

Import np sklearn pd Notebook.



End ImputationCells.

(** ** Target encoding of a table with a missing label *)

Section MissingLabel.

Import np sklearn pd Notebook.


End MissingLabel.

(** ** The notebooks as a whole *)

Section Notebooks.

Import np sklearn pd Notebook.

Context {G : Type} {rng : RandomState G} {ext : External}.

(** The target-encoding cell composes three transforming calls, the
    frequency-encoding cell two, the simple-imputation cell four. *)
Lemma target_encoding_composes_calls :
  ~ single_call target_encoding_cell fresh /\
  transform_calls (snd (run target_encoding_cell fresh))
  = ["DataFrame.groupby"; "SeriesGroupBy.mean"; "Series.map"].
Proof.
  assert (H : transform_calls (snd (run target_encoding_cell fresh))
              = ["DataFrame.groupby"; "SeriesGroupBy.mean"; "Series.map"])
    by (vm_compute; reflexivity).
  split; [|exact H].
  intros [routine Hr]. rewrite H in Hr. inversion Hr.
Qed.

(** C1.  Every transforming step of the notebooks is a call
    of a library routine.  Min-max scaling, standardization, robust
    scaling, label, one-hot and ordinal encoding, KNN imputation, the
    stratified split and the grid search are one such call each, and the
    first six bind exactly what the routine returns on the data of the
    cell.  Target encoding is the composition groupby, mean, map;
    frequency encoding is value_counts, map; simple imputation is mean,
    fillna, mode, fillna; the datetime cell is five accessors followed,
    for each of sine and cosine, by a multiplication, a division and the
    function. *)
Theorem operations_are_library_calls :
  traces numeric_scaling fresh =
    [["MinMaxScaler.fit_transform"]; ["StandardScaler.fit_transform"];
     ["RobustScaler.fit_transform"]]
  /\ traces categorical_encoding fresh =
    [["LabelEncoder.fit_transform"]; ["pd.get_dummies"];
     ["OrdinalEncoder.fit_transform"];
     ["DataFrame.groupby"; "SeriesGroupBy.mean"; "Series.map"];
     ["Series.value_counts"; "Series.map"]]
  /\ traces missing_values fresh =
    [["DataFrame.isnull"; "DataFrame.sum"; "DataFrame.isnull"];
     ["DataFrame.dropna"; "DataFrame.dropna"];
     ["Series.mean"; "Series.fillna"; "Series.mode"; "Series.fillna"];
     ["KNNImputer.fit_transform"]]
  /\ traces date_time_processing fresh =
    [["Series.dt.year"; "Series.dt.month"; "Series.dt.day"; "Series.dt.weekday";
      "Series.dt.hour";
      "Series.__rmul__"; "Series.__truediv__"; "np.sin";
      "Series.__rmul__"; "Series.__truediv__"; "np.cos"]]
  /\ (exists k,
        run split_cell fresh = (Ok tt, k) /\
        transform_calls k = ["train_test_split"] /\
        transform_calls (snd (run grid_search_cell k)) = ["GridSearchCV.fit"])
  /\ bound_by minmax_cell "scaled_data"
     = returned (fun out => Array (snd out))
         (MinMaxScaler_fit_transform MinMaxScaler_new data_scaling)
  /\ bound_by standard_cell "scaled_data"
     = returned RealArray (StandardScaler_fit_transform data_scaling)
  /\ bound_by robust_cell "scaled_data"
     = returned (fun out => Array (snd out))
         (RobustScaler_fit_transform RobustScaler_new data_outlier)
  /\ bound_by label_cell "encoded"
     = returned (fun out => Vector (snd out))
         (LabelEncoder_fit_transform ["red"; "green"; "blue"; "green"; "red"])
  /\ bound_by one_hot_cell "one_hot"
     = returned Frame (get_dummies (Object colors))
  /\ bound_by ordinal_cell "encoded"
     = returned Array
         (OrdinalEncoder_fit_transform [["low"; "medium"; "high"]]
            [["low"]; ["medium"]; ["high"]; ["medium"]; ["low"]]).
Proof.
  split; [exact traces_numeric_scaling|].
  split; [exact traces_categorical_encoding|].
  split; [exact traces_missing_values|].
  split; [exact traces_date_time_processing|].
  split; [exact splitting_and_tuning_calls|].
  split; [vm_compute; reflexivity|].
  split; [reflexivity|].
  split; [vm_compute; reflexivity|].
  split; [vm_compute; reflexivity|].
  split; [vm_compute; reflexivity|].
  vm_compute; reflexivity.
Qed.

End Notebooks.

Section CellsAndState.

Import np sklearn pd Notebook.

Context {G : Type} {rng : RandomState G} {ext : External}.

Lemma isolated_self_contained defines c :
  isolated defines c -> self_contained defines c /\ keeps_heap c.
Proof.
  intros [(W & Hi & Hs) (W' & Hl)]. split.
  - exact (independent_self_contained W defines c Hi Hs).
  - exact (local_keeps_heap W' c Hl).
Qed.

Lemma reader_depends reads defines c :
  reader reads defines c -> depends_only_on reads defines c /\ keeps_heap c.
Proof.
  intros [(W & Hi & Hs) (W' & Hl)]. split.
  - exact (independent_depends reads W defines c Hi Hs).
  - exact (local_keeps_heap W' c Hl).
Qed.

Lemma updater_depends reads defines c :
  updater reads defines c -> depends_only_on reads defines c.
Proof. intros (W & Hi & Hs). exact (independent_depends reads W defines c Hi Hs). Qed.


Lemma max_list_attained (l : list nat) : l <> [] -> max_list l ∈ l.
Proof.
  induction l as [|x l IH]; [congruence|]. intros _. cbn [max_list_with Datatypes.id].
  destruct (Nat.max_spec x (max_list l)) as [[Hlt ->]|[Hle ->]]; [|left].
  destruct l as [|y l']; [|right; apply IH; discriminate].
  cbn [max_list_with] in Hlt. lia.
Qed.

Lemma mode_labels_nonempty (v : list (option string)) (c : string) :
  Some c ∈ v -> mode_labels v <> [].
Proof.
  intros Hc. unfold mode_labels. cbv zeta.
  assert (Hcat : c ∈ categories v) by (apply categories_elem; exact Hc).
  assert (Hne : map (count_label v) (categories v) <> []).
  { destruct (categories v); [inversion Hcat | discriminate]. }
  apply max_list_attained in Hne.
  apply list_elem_of_fmap in Hne as (k & Hk & Hin).
  intros E.
  set (best := max_list (map (count_label v) (categories v))) in *.
  assert (Hf : k ∈ filter (fun k => count_label v k = best) (categories v)).
  { apply list_elem_of_filter. split; [symmetry; exact Hk | exact Hin]. }
  rewrite E in Hf. inversion Hf.
Qed.

Lemma mode_first (v : list (option string)) (c : string) :
  Some c ∈ v ->
  exists m, (let* modes := Series_mode (Object v) in Series_getitem0 modes)
            = Ok (SStr m).
Proof.
  intros Hc. cbn [Series_mode Py.bind].
  pose proof (mode_labels_nonempty v c Hc) as Hne.
  destruct (mode_labels v) as [|m ms]; [congruence|].
  exists m. reflexivity.
Qed.
(** C7.  The notebooks run without an exception.  The four
    preprocessing notebooks, run from a fresh kernel in the order of
    their cells, reach their end; so does the splitting notebook,
    provided the library routines it calls keep their contract.  The
    index access [mode()[0]] succeeds on every column of labels with a
    value that is not missing, and yields ["Female"] on the table of the
    notebook; the division by 24 raises no [ZeroDivisionError], whatever
    the column. *)
Theorem notebooks_run_to_their_end :
  fst (run_all numeric_scaling fresh) = Ok tt
  /\ fst (run_all categorical_encoding fresh) = Ok tt
  /\ fst (run_all missing_values fresh) = Ok tt
  /\ fst (run_all date_time_processing fresh) = Ok tt
  /\ (library_contract -> fst (run_all splitting_and_tuning fresh) = Ok tt)
  /\ (forall (v : list (option string)) (c : string),
        Some c ∈ v ->
        exists m, (let* modes := Series_mode (Object v) in Series_getitem0 modes)
                  = Ok (SStr m))
  /\ gender_mode = Ok (SStr "Female")
  /\ (forall s, Series_truediv s 24 <> Raise ZeroDivisionError).
Proof.
  split; [exact runs_numeric_scaling|].
  split; [exact runs_categorical_encoding|].
  split; [exact runs_missing_values|].
  split; [exact runs_date_time_processing|].
  split; [exact splitting_and_tuning_runs|].
  split; [exact mode_first|].
  split; [vm_compute; reflexivity|].
  intros s. unfold Series_truediv.
  destruct s; cbn; intros E; inversion E.
Qed.

End CellsAndState.

(** ** The properties at concrete inputs *)

Section Examples.

Import np sklearn pd Notebook.



(** The split under the generator that shuffles nothing. *)
Lemma stratified_split_iris_witness :
  exists train test,
    @split_indices unit identity_rng 150 (1 # 5) iris_target 42 = Ok (train, test) /\
    (forall i, i ∈ train -> i ∉ test) /\
    train ++ test ≡ₚ seq 0 (length iris_target) /\
    length iris_target = 150%nat /\
    length test = 30%nat /\ length train = 120%nat /\
    (forall c, (c < 3)%nat ->
       class_count c test = 10%nat /\ class_count c train = 40%nat).
Proof.
  apply (@stratified_split_iris unit identity_rng).
  intros g n. reflexivity.
Defined.


(** A red row followed by a green one. *)
Lemma one_hot_witness :
  exists df,
    get_dummies (Object (map Some ["red"; "green"])) = Ok df /\
    entry df "red" 0 = Some (SBool true) /\
    entry df "green" 0 = Some (SBool false).
Proof.
  destruct (proj1 one_hot_rows_and_sums ["red"; "green"])
    as (df & Hdf & _ & Hnames & Hrows & _).
  destruct (Hrows 0%nat "red" eq_refl) as [Hred Hother].
  exists df. split; [exact Hdf|]. split; [exact Hred|].
  apply Hother.
  - apply Hnames. vm_compute. right. left.
  - intros E. inversion E.
Defined.



(** The splitting notebook with a generator that shuffles nothing and a
    search that returns a constant model. *)
Lemma notebooks_run_witness :
  fst (run_all (@splitting_and_tuning unit identity_rng constant_model) fresh) = Ok tt.
Proof.
  apply (proj1 (proj2 (proj2 (proj2 (proj2
           (@notebooks_run_to_their_end unit identity_rng constant_model)))))).
  split; [intros g n; reflexivity|].
  split; [intros X y; reflexivity|].
  intros X y C predict X' E. injection E as _ <-. apply length_map.
Defined.

End Examples.

(** ** The range of min-max scaling *)

Section MinMaxRange.

Import np sklearn.

Lemma fold_min_le (t : list Q) (h : Q) :
  fold_right Qmin h t <= h /\ forall x, x ∈ t -> fold_right Qmin h t <= x.
Proof.
  induction t as [|a t [IHh IHt]]; cbn [fold_right].
  - split; [apply Qle_refl|]. intros x Hx. inversion Hx.
  - split.
    + eapply Qle_trans; [apply Q.le_min_r | exact IHh].
    + intros x Hx. apply elem_of_cons in Hx as [->|Hx].
      * apply Q.le_min_l.
      * eapply Qle_trans; [apply Q.le_min_r | apply IHt; exact Hx].
Qed.

Lemma fold_max_ge (t : list Q) (h : Q) :
  h <= fold_right Qmax h t /\ forall x, x ∈ t -> x <= fold_right Qmax h t.
Proof.
  induction t as [|a t [IHh IHt]]; cbn [fold_right].
  - split; [apply Qle_refl|]. intros x Hx. inversion Hx.
  - split.
    + eapply Qle_trans; [exact IHh | apply Q.le_max_r].
    + intros x Hx. apply elem_of_cons in Hx as [->|Hx].
      * apply Q.le_max_l.
      * eapply Qle_trans; [apply IHt; exact Hx | apply Q.le_max_r].
Qed.

(** [np.min] and [np.max] bound every element of the array. *)
Lemma amin_amax_bound (a : list Q) (x : Q) : x ∈ a -> amin a <= x <= amax a.
Proof.
  intros Hx. destruct a as [|h t]; [inversion Hx|].
  unfold amin, amax. cbn [hd tl].
  destruct (fold_min_le t h) as [Hh Ht], (fold_max_ge t h) as [Hh' Ht'].
  apply elem_of_cons in Hx as [->|Hx]; auto.
Qed.

Lemma column_elem (X : ndarray) i j row x :
  X !! i = Some row -> row !! j = Some x -> x ∈ column X j.
Proof.
  intros Hi Hj. unfold column. apply list_elem_of_fmap. exists row. split.
  - symmetry. apply nth_lookup_Some with (d := 0) in Hj. exact Hj.
  - eapply list_elem_of_lookup_2. exact Hi.
Qed.



End MinMaxRange.

(** ** Standardization *)

Section Standardization.

Import np sklearn.

Open Scope R_scope.

Lemma Rsum_affine (m s : R) (l : list R) :
  Rsum (map (fun x => (x - m) / s) l) = (Rsum l - INR (length l) * m) / s.
Proof.
  induction l as [|a l IH].
  - cbn. unfold Rdiv. ring.
  - cbn [map Rsum fold_right length]. fold (Rsum (map (fun x => (x - m) / s) l)).
    fold (Rsum l). rewrite IH, S_INR. unfold Rdiv. ring.
Qed.

Lemma Rsum_squares_scaled (m s : R) (l : list R) :
  Rsum (map (fun y => (y - 0) * (y - 0)) (map (fun x => (x - m) / s) l))
  = Rsum (map (fun x => (x - m) * (x - m)) l) * (/ s * / s).
Proof.
  induction l as [|a l IH].
  - cbn. ring.
  - cbn [map Rsum fold_right].
    fold (Rsum (map (fun y => (y - 0) * (y - 0)) (map (fun x => (x - m) / s) l))).
    fold (Rsum (map (fun x => (x - m) * (x - m)) l)).
    rewrite IH. unfold Rdiv. ring.
Qed.

Lemma Rsum_squares_nonneg (m : R) (l : list R) :
  0 <= Rsum (map (fun x => (x - m) * (x - m)) l).
Proof.
  induction l as [|a l IH]; cbn; [lra|].
  fold (Rsum (map (fun x => (x - m) * (x - m)) l)).
  pose proof (Rle_0_sqr (a - m)) as H. unfold Rsqr in H. lra.
Qed.

Lemma Rvar_nonneg (l : list R) : 0 <= Rvar l.
Proof.
  unfold Rvar. unfold Rmean at 1. rewrite length_map.
  destruct l as [|a l].
  - cbn. unfold Rdiv. rewrite Rinv_0. lra.
  - apply Rmult_le_pos; [apply Rsum_squares_nonneg|].
    apply Rlt_le, Rinv_0_lt_compat, lt_0_INR. cbn. lia.
Qed.

(** A list that is centred at its mean and divided by its standard
    deviation has mean 0 and variance 1. *)
Lemma standardized_moments (l : list R) :
  Rvar l <> 0 ->
  let z := map (fun x => (x - Rmean l) / sqrt (Rvar l)) l in
  Rmean z = 0 /\ Rvar z = 1.
Proof.
  intros Hvar z.
  assert (Hn : INR (length l) <> 0).
  { destruct l; [exfalso; apply Hvar; unfold Rvar, Rmean; cbn; unfold Rdiv; ring|].
    apply not_0_INR. discriminate. }
  pose proof (Rvar_nonneg l) as Hpos.
  assert (Hs : sqrt (Rvar l) <> 0).
  { intros E. apply sqrt_eq_0 in E; [contradiction | exact Hpos]. }
  assert (Hmean : Rmean z = 0).
  { unfold Rmean, z. rewrite Rsum_affine, length_map.
    unfold Rmean. field. split; assumption. }
  split; [exact Hmean|].
  unfold Rvar. rewrite Hmean. unfold Rmean at 1. rewrite length_map.
  unfold z. rewrite Rsum_squares_scaled, length_map.
  replace (/ sqrt (Rvar l) * / sqrt (Rvar l)) with (/ Rvar l).
  2:{ rewrite <- (sqrt_sqrt (Rvar l) Hpos) at 1. field. exact Hs. }
  assert (HV : Rvar l = Rsum (map (fun x => (x - Rmean l) * (x - Rmean l)) l)
                        / INR (length l)).
  { unfold Rvar. unfold Rmean at 1. rewrite length_map. reflexivity. }
  set (S := Rsum (map (fun x => (x - Rmean l) * (x - Rmean l)) l)) in *.
  assert (HS : S <> 0).
  { intros E. apply Hvar. rewrite HV, E. unfold Rdiv. ring. }
  rewrite HV. field. split; assumption.
Qed.

Lemma standardized_column (X : ndarray) (j : nat) :
  np.array X = Ok X -> (j < n_features X)%nat ->
  let cols := map (map Q2R) (columns X) in
  let c := map Q2R (column X j) in
  Rcolumn (map (fun row =>
                  zip_with (fun x c => (Q2R x - Rmean c) / sqrt (Rvar c)) row cols) X) j
  = map (fun x => (x - Rmean c) / sqrt (Rvar c)) c.
Proof.
  intros Hrect Hj cols c. unfold Rcolumn, c, column. rewrite !map_map.
  apply map_ext_in. intros row Hrow.
  apply list_elem_of_In, list_elem_of_lookup in Hrow as [i Hi].
  pose proof (array_row_length X i row Hrect Hi) as Hlen.
  destruct (lookup_lt_is_Some_2 row j) as [x Hx]; [lia|].
  rewrite (nth_lookup_Some _ _ 0%Q _ Hx).
  rewrite nth_lookup, lookup_zip_with, Hx. cbn.
  unfold cols. rewrite list_lookup_fmap, (columns_lookup X j Hj). cbn.
  unfold column. rewrite !map_map. reflexivity.
Qed.



End Standardization.

(** ** The median and the quartiles after robust scaling *)

Section RobustMoments.

Import np sklearn Notebook.

(** Sorting commutes with a map that keeps the order. *)
Lemma list_merge_map (f : Q -> Q) (l1 l2 : list Q) :
  (forall x y, f x <= f y <-> x <= y) ->
  list_merge Qle (map f l1) (map f l2) = map f (list_merge Qle l1 l2).
Proof.
  intros Hf. revert l2. induction l1 as [|x1 l1 IH1]; intros l2.
  - cbn [map]. rewrite !list_merge_nil_l. reflexivity.
  - induction l2 as [|x2 l2 IH2].
    + cbn [map]. rewrite !list_merge_nil_r. reflexivity.
    + cbn [map]. rewrite !list_merge_cons.
      destruct (decide (f x1 <= f x2)) as [H|H], (decide (x1 <= x2)) as [H'|H'].
      * cbn [map]. f_equal. apply (IH1 (x2 :: l2)).
      * exfalso. apply H', Hf, H.
      * exfalso. apply H, Hf, H'.
      * cbn [map]. f_equal. exact IH2.
Qed.

Lemma merge_list_to_stack_map (f : Q -> Q) (st : list (option (list Q))) (l : list Q) :
  (forall x y, f x <= f y <-> x <= y) ->
  merge_list_to_stack Qle (map (fmap (map f)) st) (map f l)
  = map (fmap (map f)) (merge_list_to_stack Qle st l).
Proof.
  intros Hf. revert l. induction st as [|[l'|] st IH]; intros l; cbn; [reflexivity| |reflexivity].
  f_equal. rewrite (list_merge_map f l' l Hf). apply IH.
Qed.

Lemma merge_stack_map (f : Q -> Q) (st : list (option (list Q))) :
  (forall x y, f x <= f y <-> x <= y) ->
  merge_stack Qle (map (fmap (map f)) st) = map f (merge_stack Qle st).
Proof.
  intros Hf. induction st as [|[l|] st IH]; cbn; [reflexivity| |exact IH].
  rewrite IH. apply list_merge_map, Hf.
Qed.

Lemma merge_sort_aux_map (f : Q -> Q) (st : list (option (list Q))) (l : list Q) :
  (forall x y, f x <= f y <-> x <= y) ->
  merge_sort_aux Qle (map (fmap (map f)) st) (map f l)
  = map f (merge_sort_aux Qle st l).
Proof.
  intros Hf. revert st. induction l as [|x l IH]; intros st; cbn.
  - apply merge_stack_map, Hf.
  - rewrite <- IH. f_equal. apply (merge_list_to_stack_map f st [x] Hf).
Qed.

Lemma sort_map (f : Q -> Q) (l : list Q) :
  (forall x y, f x <= f y <-> x <= y) -> sort (map f l) = map f (sort l).
Proof. intros Hf. apply (merge_sort_aux_map f [] l Hf). Qed.

Lemma sort_length (l : list Q) : length (sort l) = length l.
Proof. unfold sort. rewrite merge_sort_Permutation. reflexivity. Qed.

Lemma nth_map_lt (f : Q -> Q) (l : list Q) (i : nat) :
  (i < length l)%nat -> nth i (map f l) 0 = f (nth i l 0).
Proof.
  intros Hi. rewrite (nth_indep _ 0 (f 0)) by (rewrite length_map; exact Hi).
  apply map_nth.
Qed.

(** Centring and scaling by a positive number keeps the order. *)
Lemma centred_order (m s x y : Q) :
  0 < s -> (x - m) / s <= (y - m) / s <-> x <= y.
Proof.
  intros Hs. unfold Qdiv.
  rewrite (Qmult_le_r _ _ (/ s)) by (apply Qinv_lt_0_compat; exact Hs).
  split; intros H; lra.
Qed.

Lemma median_centred (m s : Q) (l : list Q) :
  0 < s -> l <> [] ->
  median (map (fun x => (x - m) / s) l) == (median l - m) / s.
Proof.
  intros Hs Hl. unfold median. cbv zeta.
  rewrite sort_map by (intros x y; apply centred_order; exact Hs).
  rewrite length_map.
  assert (Hn : (0 < length (sort l))%nat).
  { rewrite sort_length. destruct l; [congruence | cbn; lia]. }
  assert (Hhalf : (length (sort l) / 2 < length (sort l))%nat)
    by (apply Nat.div_lt; lia).
  destruct (Nat.even (length (sort l))).
  - rewrite !nth_map_lt by lia. field. intros E. lra.
  - rewrite nth_map_lt by lia. reflexivity.
Qed.

Lemma percentile_centred (m s q : Q) (l : list Q) :
  0 < s -> l <> [] -> 0 <= q <= 100 ->
  percentile (map (fun x => (x - m) / s) l) q == (percentile l q - m) / s.
Proof.
  intros Hs Hl Hq. unfold percentile. cbv zeta.
  rewrite sort_map by (intros x y; apply centred_order; exact Hs).
  rewrite length_map.
  assert (Hn : (0 < length (sort l))%nat).
  { rewrite sort_length. destruct l; [congruence | cbn; lia]. }
  set (n := length (sort l)) in *.
  set (v := q / 100 * inject_Z (Z.of_nat (n - 1))).
  assert (Hn1 : 0 <= inject_Z (Z.of_nat (n - 1))).
  { change 0 with (inject_Z 0). rewrite <- Zle_Qle. lia. }
  assert (Hv0 : 0 <= v).
  { unfold v. apply Qmult_le_0_compat; [|exact Hn1].
    apply Qle_shift_div_l; lra. }
  assert (Hv1 : v <= inject_Z (Z.of_nat (n - 1))).
  { unfold v. assert (Hq1 : q / 100 <= 1) by (apply Qle_shift_div_r; lra).
    assert (Hq0 : 0 <= q / 100) by (apply Qle_shift_div_l; lra).
    nra. }
  assert (Hfloor : (Z.to_nat (Qfloor v) <= n - 1)%nat).
  { assert (Hf : (Qfloor v <= Z.of_nat (n - 1))%Z).
    { rewrite Zle_Qle. eapply Qle_trans; [apply Qfloor_le | exact Hv1]. }
    lia. }
  rewrite !nth_map_lt by lia.
  unfold lerp. field. intros E. lra.
Qed.

(** A column of the array that [RobustScaler] returns. *)
Lemma robust_column (X : ndarray) (j : nat) :
  np.array X = Ok X -> (j < n_features X)%nat ->
  let centre := map median (columns X) in
  let scale :=
    map (fun c => _handle_zeros_in_scale (percentile c 75 - percentile c 25))
        (columns X) in
  column (map (fun row => zip_with Qdiv (zip_with Qminus row centre) scale) X) j
  = map (fun x => (x - median (column X j))
                  / _handle_zeros_in_scale
                      (percentile (column X j) 75 - percentile (column X j) 25))
        (column X j).
Proof.
  intros Hrect Hj centre scale. unfold column. rewrite !map_map.
  apply list_eq. intros i. rewrite !list_lookup_fmap.
  destruct (X !! i) as [row|] eqn:Hi; [|reflexivity]. cbn. f_equal.
  pose proof (array_row_length X i row Hrect Hi) as Hlen.
  destruct (lookup_lt_is_Some_2 row j) as [x Hx]; [lia|].
  rewrite !nth_lookup, !lookup_zip_with, Hx. cbn.
  unfold centre, scale. rewrite !list_lookup_fmap, (columns_lookup X j Hj). cbn.
  reflexivity.
Qed.



End RobustMoments.

(** ** Distances on the dial *)

Section DialDistance.

Import np pd Notebook.

Open Scope R_scope.

Lemma dial_plus (h k : Z) : dial (h + k) = dial h + dial k.
Proof. unfold dial. rewrite plus_IZR. field. Qed.


End DialDistance.

(** ** Label and ordinal codes *)

Section Encoders.

Import np sklearn.

Lemma index_of_lookup (x : string) (l : list string) (i : nat) :
  index_of x l = Some i -> l !! i = Some x.
Proof.
  revert i. induction l as [|a l IH]; intros i; cbn; [discriminate|].
  destruct (String.eqb x a) eqn:E.
  - intros [= <-]. apply String.eqb_eq in E as ->. reflexivity.
  - destruct (index_of x l) as [i'|]; cbn; [|discriminate].
    intros [= <-]. cbn. apply IH. reflexivity.
Qed.

Lemma index_of_elem (x : string) (l : list string) :
  x ∈ l <-> exists i, index_of x l = Some i.
Proof.
  split.
  - induction l as [|a l IH]; intros Hx; [inversion Hx|]. cbn.
    destruct (String.eqb x a) eqn:E; [eauto|].
    apply elem_of_cons in Hx as [->|Hx]; [rewrite String.eqb_refl in E; discriminate|].
    destruct (IH Hx) as [i ->]. cbn. eauto.
  - intros [i Hi]. eapply list_elem_of_lookup_2, index_of_lookup, Hi.
Qed.

Lemma encode_ok (classes : list string) (x : string) (q : Q) :
  encode classes x = Ok q ->
  exists c : nat, q = Qnat c /\ classes !! c = Some x.
Proof.
  unfold encode. destruct (index_of x classes) as [i|] eqn:E; [|discriminate].
  intros [= <-]. exists i. split; [reflexivity | apply index_of_lookup, E].
Qed.

Lemma encode_unknown (classes : list string) (x : string) :
  x ∉ classes -> encode classes x = Raise ValueError.
Proof.
  intros Hx. unfold encode. destruct (index_of x classes) as [i|] eqn:E; [|reflexivity].
  exfalso. apply Hx, index_of_elem. eauto.
Qed.

(** A list of results without an exception is a list of values. *)
Lemma sequence_all_ok {A B} (f : A -> result B) (l : list A) :
  (forall x, x ∈ l -> exists b, f x = Ok b) ->
  exists r, sequence (map f l) = Ok r /\ Forall2 (fun x b => f x = Ok b) l r.
Proof.
  induction l as [|a l IH]; intros Hall.
  - exists []. split; [reflexivity | constructor].
  - destruct (Hall a) as [b Hb]; [left|].
    destruct IH as (r & Hr & HF); [intros x Hx; apply Hall; right; exact Hx|].
    exists (b :: r). cbn. rewrite Hb. cbn. rewrite Hr. cbn.
    split; [reflexivity | constructor; assumption].
Qed.

Lemma sequence_ok_Forall2 {A} (l : list (result A)) (r : list A) :
  sequence l = Ok r -> Forall2 (fun x a => x = Ok a) l r.
Proof.
  revert r. induction l as [|x l IH]; intros r; cbn.
  - intros [= <-]. constructor.
  - destruct x as [a|e]; cbn; [|discriminate].
    destruct (sequence l) as [r'|e]; cbn; [|discriminate].
    intros [= <-]. constructor; [reflexivity | apply IH; reflexivity].
Qed.

(** A list of results whose only exception is [e], and that holds one,
    raises [e]. *)
Lemma sequence_raises {A} (e : exn) (l : list (result A)) :
  (forall x, x ∈ l -> x = Raise e \/ exists a, x = Ok a) ->
  Raise e ∈ l -> sequence l = Raise e.
Proof.
  induction l as [|x l IH]; intros Hall Hin; [inversion Hin|].
  cbn. destruct (Hall x) as [->|[a ->]]; [left|reflexivity|].
  cbn. apply elem_of_cons in Hin as [Hin|Hin]; [discriminate|].
  rewrite IH; [reflexivity | intros y Hy; apply Hall; right; exact Hy | exact Hin].
Qed.

Lemma sequence_ok_or_raises {A} (e : exn) (l : list (result A)) :
  (forall x, x ∈ l -> x = Raise e \/ exists a, x = Ok a) ->
  sequence l = Raise e \/ exists r, sequence l = Ok r.
Proof.
  induction l as [|x l IH]; intros Hall; [right; eexists; reflexivity|].
  cbn. destruct (Hall x) as [->|[a ->]]; [left|left; reflexivity|].
  cbn. destruct IH as [->|[r ->]]; [intros y Hy; apply Hall; right; exact Hy| |].
  - left. reflexivity.
  - right. eexists. reflexivity.
Qed.

#[local] Instance str_le_total : Total str_le.
Proof. intros x y. apply String.leb_total. Qed.

(** X3.  Label codes decode to the labels: on every list of labels
    [LabelEncoder().fit_transform] returns, with one code per label;
    [classes_] holds exactly the labels of the input, each once, in
    increasing order; and the code of each entry is the position of its
    label in [classes_], so that equal codes mean equal labels. *)
Theorem label_codes_decode (y : list string) :
  exists classes codes,
    LabelEncoder_fit_transform y = Ok (classes, codes) /\
    length codes = length y /\
    NoDup classes /\ Sorted str_le classes /\
    (forall label, label ∈ classes <-> label ∈ y) /\
    (forall i label, y !! i = Some label ->
       exists c : nat, codes !! i = Some (Qnat c) /\ classes !! c = Some label).
Proof.
  unfold LabelEncoder_fit_transform.
  set (classes := merge_sort str_le (remove_dups y)).
  assert (Hin : forall label, label ∈ classes <-> label ∈ y).
  { intros label. unfold classes.
    rewrite merge_sort_Permutation, elem_of_remove_dups. reflexivity. }
  destruct (sequence_all_ok (encode classes) y) as (codes & Hcodes & HF).
  { intros x Hx. apply Hin, index_of_elem in Hx as [i Hi].
    unfold encode. rewrite Hi. eauto. }
  exists classes, codes. rewrite Hcodes. cbn.
  split; [reflexivity|]. split; [symmetry; eapply Forall2_length; exact HF|].
  split; [unfold classes; rewrite merge_sort_Permutation; apply NoDup_remove_dups|].
  split; [apply Sorted_merge_sort; apply _|].
  split; [exact Hin|].
  intros i label Hi.
  destruct (Forall2_lookup_l _ _ _ _ _ HF Hi) as (q & Hq & Henc).
  apply encode_ok in Henc as (c & -> & Hc). eauto.
Qed.

(** The encoding of one sample by [OrdinalEncoder]. *)
Lemma ordinal_row_returns (cats : list (list string)) (row : list string) :
  length row = length cats ->
  (forall j v cat, row !! j = Some v -> cats !! j = Some cat -> v ∈ cat) ->
  exists r, sequence (zip_with encode cats row) = Ok r.
Proof.
  intros Hlen Hknown. rewrite zip_with_zip.
  destruct (sequence_all_ok (uncurry encode) (zip cats row)) as (r & Hr & _);
    [|exists r; exact Hr].
  intros [cat v] Hx. apply list_elem_of_lookup in Hx as [j Hj].
  apply lookup_zip_with_Some in Hj as (cat' & v' & [= <- <-] & Hcat & Hv).
  apply (Hknown j v cat Hv) in Hcat. apply index_of_elem in Hcat as [i Hi].
  cbn. unfold encode. rewrite Hi. eauto.
Qed.



End Encoders.

(** ** One-hot encoding of a column with missing labels *)

Section OneHotMissing.

Import np sklearn pd Notebook.

Lemma get_dummies_entry (v : list (option string)) (c : string) (i : nat)
    (x : option string) :
  c ∈ categories v -> v !! i = Some x ->
  entry (mkFrame (length v)
           (map (fun c => (c, Boolean (map (fun x => bool_decide (x = Some c)) v)))
                (categories v))) c i
  = Some (SBool (bool_decide (x = Some c))).
Proof.
  intros Hc Hi. unfold entry, find_col. cbn [cols].
  rewrite (find_tabulated
             (fun c => Boolean (map (fun x => bool_decide (x = Some c)) v))) by exact Hc.
  cbn. rewrite list_lookup_fmap, Hi. reflexivity.
Qed.

(** X19.  One-hot encoding of a column in which labels are missing: on
    every column of labels [pd.get_dummies] returns a table with one row
    per entry and one column per distinct present label; a row whose
    label is missing has [False] in every column, and no row has [True]
    in two columns. *)
Theorem one_hot_missing_label (v : list (option string)) :
  exists df,
    get_dummies (Object v) = Ok df /\
    n_rows df = length v /\
    (forall c, c ∈ column_names df <-> Some c ∈ v) /\
    (forall i c, v !! i = Some None -> c ∈ column_names df ->
       entry df c i = Some (SBool false)) /\
    (forall i c c', entry df c i = Some (SBool true) ->
       entry df c' i = Some (SBool true) -> c = c').
Proof.
  eexists. split; [reflexivity|]. split; [reflexivity|].
  assert (Hnames : column_names
            (mkFrame (length v)
               (map (fun c => (c, Boolean (map (fun x => bool_decide (x = Some c)) v)))
                    (categories v))) = categories v).
  { unfold column_names. cbn [cols]. rewrite map_map. cbn. apply map_id. }
  rewrite Hnames.
  split; [apply categories_elem|]. split.
  - intros i c Hi Hc. rewrite (get_dummies_entry v c i None Hc Hi). reflexivity.
  - assert (Hone : forall i c, entry
              (mkFrame (length v)
                 (map (fun c => (c, Boolean (map (fun x => bool_decide (x = Some c)) v)))
                      (categories v))) c i = Some (SBool true) -> v !! i = Some (Some c)).
    { intros i c H. unfold entry, find_col in H. cbn [cols] in H.
      destruct (decide (c ∈ categories v)) as [Hc|Hc].
      - rewrite (find_tabulated
                   (fun c => Boolean (map (fun x => bool_decide (x = Some c)) v)))
          in H by exact Hc.
        cbn in H. rewrite list_lookup_fmap in H.
        destruct (v !! i) as [x|]; [|discriminate H]. cbn in H.
        injection H as H. apply bool_decide_eq_true in H. rewrite H. reflexivity.
      - rewrite (find_tabulated_none
                   (fun c => Boolean (map (fun x => bool_decide (x = Some c)) v)))
          in H by exact Hc.
        discriminate H. }
    intros i c c' H1 H2. apply Hone in H1, H2. congruence.
Qed.

(** A red row and a row without a label. *)
Lemma one_hot_missing_label_witness :
  exists df,
    get_dummies (Object [Some "red"; None]) = Ok df /\
    entry df "red" 1 = Some (SBool false).
Proof.
  destruct (one_hot_missing_label [Some "red"; None])
    as (df & Hdf & _ & Hnames & Hmissing & _).
  exists df. split; [exact Hdf|].
  apply Hmissing; [reflexivity|]. apply Hnames. left.
Defined.

End OneHotMissing.

(** ** The encoded columns *)

Section EncodedColumns.

Import np sklearn pd Notebook.

(** The target-encoding statements on a complete table, and the table
    they leave. *)
Lemma target_encoding_step_runs k l df (ks : list string) (vs : list Q) :
  points k "df" l (Frame df) ->
  well_formed df = true ->
  getitem df "category" = Ok (Object (map Some ks)) ->
  getitem df "target" = Ok (Numeric (map Some vs)) ->
  exists k',
    target_encoding_step k = (Ok tt, k') /\
    points k' "df" l
      (Frame (mkFrame (n_rows df)
                (update_col (cols df) "category_encoded"
                   (Numeric (map Some
                      (map (fun p => mean (map snd (rows_of (zip ks vs) (fst p))))
                           (zip ks vs))))))).
Proof.
  intros Hp Hwf Hcat Htarget.
  pose proof (getitem_size _ _ _ Hwf Hcat) as Hlen_ks.
  pose proof (getitem_size _ _ _ Hwf Htarget) as Hlen_vs.
  cbn [size] in Hlen_ks, Hlen_vs. rewrite length_map in Hlen_ks, Hlen_vs.
  unfold target_encoding_step.
  erewrite bind_load_frame by eassumption.
  rewrite bind_call. unfold groupby. rewrite Hcat. cbn [Py.bind].
  rewrite bind_call. unfold GroupBy_getitem. cbn [grouped keys]. rewrite Htarget.
  cbn [Py.bind].
  rewrite bind_call. unfold SeriesGroupBy_mean.
  cbn [selected group_keys as_numeric Py.bind].
  rewrite bind_store.
  erewrite bind_column_of by kpoints.
  rewrite Hcat.
  erewrite bind_load by kpoints.
  rewrite bind_call. cbn [as_table Py.bind Series_map].
  rewrite (encoded_complete ks vs) by congruence.
  erewrite set_column_points by kpoints.
  rewrite (setitem_sized df "category_encoded" _ Hcat)
    by (cbn [size]; rewrite ?length_map, ?length_zip_with; lia).
  eexists. split; [reflexivity|]. kpoints.
Qed.

(** X5.  Target encoding writes the group means: on every table with
    columns of equal length and distinct names whose [category] and
    [target] columns have no missing value, the target-encoding
    statements run to their end and leave, in each row of
    [category_encoded], the arithmetic mean of the targets of the rows
    that share the row's category; the other columns are as they
    were. *)
Theorem target_encoding_group_means k l df (ks : list string) (vs : list Q) :
  points k "df" l (Frame df) ->
  well_formed df = true ->
  getitem df "category" = Ok (Object (map Some ks)) ->
  getitem df "target" = Ok (Numeric (map Some vs)) ->
  exists k' df',
    target_encoding_step k = (Ok tt, k') /\
    points k' "df" l (Frame df') /\
    (forall i c, ks !! i = Some c ->
       entry df' "category_encoded" i
       = Some (SNum (mean (map snd (rows_of (zip ks vs) c))))) /\
    (forall col, col <> "category_encoded" -> getitem df' col = getitem df col).
Proof.
  intros Hp Hwf Hcat Htarget.
  destruct (target_encoding_step_runs k l df ks vs Hp Hwf Hcat Htarget)
    as (k' & Hrun & Hp').
  pose proof (getitem_size _ _ _ Hwf Hcat) as Hlen_ks.
  pose proof (getitem_size _ _ _ Hwf Htarget) as Hlen_vs.
  cbn [size] in Hlen_ks, Hlen_vs. rewrite length_map in Hlen_ks, Hlen_vs.
  do 2 eexists. split; [exact Hrun|]. split; [exact Hp'|]. split.
  - intros i c Hi. unfold entry. cbn [cols].
    rewrite find_col_update_eq. cbn [iloc].
    destruct (lookup_lt_is_Some_2 vs i) as [v Hv].
    { rewrite Hlen_vs, <- Hlen_ks. eapply lookup_lt_Some, Hi. }
    rewrite !list_lookup_fmap, lookup_zip_with, Hi. cbn. rewrite Hv. reflexivity.
  - intros col Hne. unfold getitem. cbn [cols].
    rewrite find_col_update_ne by exact Hne. reflexivity.
Qed.

(** The table of the target-encoding cell: row 0 has category A, whose
    targets are 10 and 15. *)
Lemma target_encoding_group_means_witness :
  exists k' df',
    target_encoding_step category_and_target = (Ok tt, k') /\
    points k' "df" 0 (Frame df') /\
    entry df' "category_encoded" 0 = Some (SNum (mean [10; 15])).
Proof.
  destruct (target_encoding_group_means category_and_target 0%nat
              (mkFrame 5 [("category", Object category_column);
                          ("target", Numeric target_column)])
              ["A"; "B"; "A"; "C"; "B"] [10; 20; 15; 10; 25])
    as (k' & df' & Hrun & Hp & Hrows & _).
  - split; reflexivity.
  - reflexivity.
  - reflexivity.
  - reflexivity.
  - exists k', df'. split; [exact Hrun|]. split; [exact Hp|].
    apply (Hrows 0%nat "A"). reflexivity.
Defined.

(** Looking a present label up in the table of [value_counts]. *)
Lemma value_counts_lookup (v : list (option string)) (c : string) :
  Some c ∈ v ->
  label_lookup
    (map (fun k => (k, Some (inject_Z (Z.of_nat (count_label v k)))))
         (merge_sort (count_ge v) (remove_dups (present v)))) c
  = Some (Qnat (count_label v c)).
Proof.
  intros Hc. unfold label_lookup.
  rewrite (find_tabulated (fun k => Some (inject_Z (Z.of_nat (count_label v k))))).
  - reflexivity.
  - rewrite merge_sort_Permutation, elem_of_remove_dups.
    unfold present. apply list_elem_of_omap. exists (Some c). split; [exact Hc|reflexivity].
Qed.

(** X6.  Frequency encoding writes the number of occurrences: run where
    [df] is a table with columns of equal length and distinct names
    whose [category] column holds labels, the frequency-encoding cell
    runs to its end and leaves, in each row of [category_freq], the
    number of rows that carry the row's label, and NaN where the label
    is missing; the other columns are as they were. *)
Theorem frequency_encoding_counts k l df (v : list (option string)) :
  points k "df" l (Frame df) ->
  well_formed df = true ->
  getitem df "category" = Ok (Object v) ->
  exists k' df',
    run frequency_encoding_cell k = (Ok tt, k') /\
    points k' "df" l (Frame df') /\
    (forall i c, v !! i = Some (Some c) ->
       entry df' "category_freq" i = Some (SNum (Qnat (count_label v c)))) /\
    (forall i, v !! i = Some None -> entry df' "category_freq" i = Some SNaN) /\
    (forall col, col <> "category_freq" -> getitem df' col = getitem df col).
Proof.
  intros Hp Hwf Hcat.
  pose proof (getitem_size _ _ _ Hwf Hcat) as Hlen. cbn [size] in Hlen.
  unfold run, frequency_encoding_cell.
  erewrite bind_column_of by kpoints. rewrite Hcat.
  rewrite bind_call. cbn [value_counts]. rewrite bind_store.
  erewrite bind_column_of by kpoints. rewrite Hcat.
  erewrite bind_load by kpoints.
  rewrite bind_call. cbn [as_table Py.bind Series_map].
  erewrite bind_set_column by kpoints.
  rewrite (setitem_sized df "category_freq" _ Hcat Hlen)
    by (cbn [size]; rewrite length_map; exact Hlen).
  erewrite bind_load by kpoints.
  unfold print. erewrite bind_call.
  match goal with
  | |- context [ display ?vs ?k ] => change (display vs k) with (Ok tt, shown vs k)
  end.
  do 2 eexists. split; [reflexivity|]. split; [kpoints|].
  split; [|split].
  - intros i c Hi. unfold entry. cbn [cols].
    rewrite find_col_update_eq. cbn [iloc].
    rewrite list_lookup_fmap, Hi. cbn.
    rewrite value_counts_lookup by (eapply list_elem_of_lookup_2, Hi). reflexivity.
  - intros i Hi. unfold entry. cbn [cols].
    rewrite find_col_update_eq. cbn [iloc].
    rewrite list_lookup_fmap, Hi. reflexivity.
  - intros col Hne. unfold getitem. cbn [cols].
    rewrite find_col_update_ne by exact Hne. reflexivity.
Qed.

(** The frequency-encoding cell after the target-encoding cell: row 3
    is the only one of category C. *)
Lemma frequency_encoding_counts_witness :
  exists k' df',
    run frequency_encoding_cell category_and_target = (Ok tt, k') /\
    points k' "df" 0 (Frame df') /\
    entry df' "category_freq" 3 = Some (SNum (Qnat 1)).
Proof.
  destruct (frequency_encoding_counts category_and_target 0%nat
              (mkFrame 5 [("category", Object category_column);
                          ("target", Numeric target_column)])
              category_column)
    as (k' & df' & Hrun & Hp & Hrows & _).
  - split; reflexivity.
  - reflexivity.
  - reflexivity.
  - exists k', df'. split; [exact Hrun|]. split; [exact Hp|].
    apply (Hrows 3%nat "C"). reflexivity.
Defined.

End EncodedColumns.

(** ** The table of [value_counts] *)

Section ValueCounts.

Import np sklearn pd Notebook.

#[local] Instance count_ge_total v : Total (count_ge v).
Proof. intros a b. unfold count_ge. lia. Qed.

Lemma count_label_cons (x : option string) (v : list (option string)) (c : string) :
  count_label (x :: v) c
  = ((if decide (x = Some c) then 1 else 0) + count_label v c)%nat.
Proof.
  unfold count_label. rewrite filter_cons.
  destruct (decide (x = Some c)); reflexivity.
Qed.

Lemma sum_list_indicator (cs : list string) (x : option string) :
  NoDup cs ->
  sum_list (map (fun c => if decide (x = Some c) then 1 else 0)%nat cs)
  = (match x with
     | Some c => if decide (c ∈ cs) then 1 else 0
     | None => 0
     end)%nat.
Proof.
  induction cs as [|c cs IH]; intros Hnd.
  - destruct x as [c|]; [|reflexivity].
    destruct (decide (c ∈ [])) as [Hin|]; [|reflexivity].
    apply elem_of_nil in Hin. contradiction.
  - apply NoDup_cons in Hnd as [Hnotin Hnd]. cbn [map sum_list sum_list_with].
    rewrite (IH Hnd). destruct x as [c0|].
    + destruct (decide (Some c0 = Some c)) as [[= ->]|Hne].
      * destruct (decide (c ∈ cs)); [contradiction|].
        destruct (decide (c ∈ c :: cs)) as [|Hn]; [reflexivity|].
        exfalso. apply Hn. left.
      * destruct (decide (c0 ∈ cs)) as [Hin|Hnin].
        -- destruct (decide (c0 ∈ c :: cs)) as [|Hn]; [reflexivity|].
           exfalso. apply Hn. right. exact Hin.
        -- destruct (decide (c0 ∈ c :: cs)) as [Hin|]; [|reflexivity].
           apply elem_of_cons in Hin as [->|Hin]; [congruence|contradiction].
    + destruct (decide (None = Some c)); [discriminate|reflexivity].
Qed.

Lemma sum_list_map_plus {A} (f g : A -> nat) (l : list A) :
  sum_list (map (fun a => f a + g a)%nat l)
  = (sum_list (map f l) + sum_list (map g l))%nat.
Proof.
  induction l as [|a l IH]; [reflexivity|].
  cbn [map sum_list sum_list_with] in *. rewrite IH. unfold Datatypes.id. lia.
Qed.

Lemma sum_list_map_ext {A} (f g : A -> nat) (l : list A) :
  (forall a, f a = g a) -> sum_list (map f l) = sum_list (map g l).
Proof. intros Hfg. f_equal. apply map_ext. exact Hfg. Qed.

(** The counts of pairwise distinct labels that cover a column add up
    to the number of its present entries. *)
Lemma counts_add_up (v : list (option string)) (cs : list string) :
  NoDup cs -> (forall c, Some c ∈ v -> c ∈ cs) ->
  sum_list (map (count_label v) cs) = length (present v).
Proof.
  intros Hnd. induction v as [|x v IH]; intros Hcover.
  - clear Hcover. induction cs as [|c cs IHc]; [reflexivity|].
    apply NoDup_cons in Hnd as [_ Hnd]. cbn [map sum_list sum_list_with].
    rewrite (IHc Hnd). reflexivity.
  - rewrite (sum_list_map_ext _ _ _ (count_label_cons x v)), sum_list_map_plus.
    rewrite (sum_list_indicator cs x Hnd), IH
      by (intros c Hc; apply Hcover; right; exact Hc).
    destruct x as [c|]; [|reflexivity].
    destruct (decide (c ∈ cs)) as [|Hn]; [reflexivity|].
    exfalso. apply Hn, Hcover. left.
Qed.

(** X22.  The table of [value_counts]: for a column of labels, the
    table has one row for each label that occurs, holding the number of
    its occurrences; its rows are in the order of falling counts, and
    its counts add up to the number of entries that are not missing. *)
Theorem value_counts_table (v : list (option string)) :
  exists table,
    value_counts (Object v) = Ok table /\
    NoDup (map fst table) /\
    (forall c, c ∈ map fst table <-> Some c ∈ v) /\
    (forall c, Some c ∈ v -> label_lookup table c = Some (Qnat (count_label v c))) /\
    Sorted (count_ge v) (map fst table) /\
    sum_list (map (count_label v) (map fst table)) = length (present v).
Proof.
  eexists. split; [reflexivity|].
  rewrite map_map. cbn [fst]. rewrite map_id.
  assert (Hin : forall c,
             c ∈ merge_sort (count_ge v) (remove_dups (present v)) <-> Some c ∈ v).
  { intros c. rewrite merge_sort_Permutation, elem_of_remove_dups.
    unfold present. rewrite list_elem_of_omap. split.
    - intros (x & Hx & ->). exact Hx.
    - intros Hc. exists (Some c). split; [exact Hc|reflexivity]. }
  assert (Hnd : NoDup (merge_sort (count_ge v) (remove_dups (present v)))).
  { rewrite merge_sort_Permutation. apply NoDup_remove_dups. }
  split; [exact Hnd|]. split; [exact Hin|].
  split; [intros c Hc; apply value_counts_lookup; exact Hc|].
  split; [apply (Sorted_merge_sort (count_ge v))|].
  apply counts_add_up; [exact Hnd|]. intros c Hc. apply Hin. exact Hc.
Qed.

End ValueCounts.

(** ** Dropping rows and columns with missing values *)

Section Dropping.

Import np sklearn pd Notebook.

Lemma select_lookup {A} (mask : list bool) (v : list A) (i : nat) :
  select mask v !! i = nth_true mask i ≫= (fun p => v !! p).
Proof.
  revert v i. induction mask as [|b m IH]; intros v i; [reflexivity|].
  destruct v as [|x v].
  - destruct (nth_true (b :: m) i); reflexivity.
  - unfold select. cbn [zip zip_with]. rewrite filter_cons. cbn [fst].
    destruct b.
    + rewrite decide_True by reflexivity. cbn [map snd].
      destruct i as [|i]; [reflexivity|]. cbn.
      fold (select m v). rewrite IH. destruct (nth_true m i); reflexivity.
    + rewrite decide_False by discriminate. cbn.
      fold (select m v). rewrite IH. destruct (nth_true m i); reflexivity.
Qed.

Lemma nth_true_lookup (mask : list bool) (i p : nat) :
  nth_true mask i = Some p -> mask !! p = Some true.
Proof.
  revert i p. induction mask as [|b m IH]; intros i p; [discriminate|].
  destruct b; cbn.
  - destruct i as [|i]; [intros [= <-]; reflexivity|].
    destruct (nth_true m i) as [q|] eqn:E; [|discriminate].
    intros [= <-]. cbn. eapply IH, E.
  - destruct (nth_true m i) as [q|] eqn:E; [|discriminate].
    intros [= <-]. cbn. eapply IH, E.
Qed.

Lemma select_length {A} (mask : list bool) (v : list A) :
  length mask = length v ->
  length (select mask v) = length (filter (fun b => b = true) mask).
Proof.
  revert v. induction mask as [|b m IH]; intros [|x v] Hlen; try discriminate;
    [reflexivity|].
  unfold select. cbn [zip zip_with]. rewrite !filter_cons. cbn [fst].
  destruct b.
  - rewrite !decide_True by reflexivity. cbn. f_equal. apply IH. cbn in Hlen. lia.
  - rewrite !decide_False by discriminate. apply IH. cbn in Hlen. lia.
Qed.

Lemma select_all {A} (mask : list bool) (v : list A) :
  length mask = length v -> Forall (fun b => b = true) mask -> select mask v = v.
Proof.
  revert v. induction mask as [|b m IH]; intros [|x v] Hlen Hall; try discriminate;
    [reflexivity|].
  apply Forall_cons in Hall as [-> Hall].
  unfold select. cbn [zip zip_with]. rewrite filter_cons. cbn [fst].
  rewrite decide_True by reflexivity. cbn. f_equal. apply IH; [cbn in Hlen; lia|exact Hall].
Qed.

Lemma select_map {A B} (f : A -> B) (mask : list bool) (v : list A) :
  select mask (map f v) = map f (select mask v).
Proof.
  revert v. induction mask as [|b m IH]; intros [|x v]; try reflexivity.
  unfold select. cbn [map zip zip_with]. rewrite !filter_cons. cbn [fst].
  destruct (decide (b = true)); cbn; [f_equal|]; apply IH.
Qed.

Lemma isnull_select (mask : list bool) (s : Series) :
  isnull (Series_select mask s) = select mask (isnull s).
Proof. destruct s; cbn; rewrite select_map; reflexivity. Qed.

Lemma isnull_length (s : Series) : length (isnull s) = size s.
Proof. destruct s; cbn; apply length_map. Qed.

Lemma size_select (mask : list bool) (s : Series) :
  length mask = size s ->
  size (Series_select mask s) = length (filter (fun b => b = true) mask).
Proof. destruct s; cbn; apply select_length. Qed.

Lemma iloc_select (mask : list bool) (s : Series) (i : nat) :
  iloc (Series_select mask s) i = nth_true mask i ≫= iloc s.
Proof.
  destruct s; cbn; rewrite select_lookup; destruct (nth_true mask i); reflexivity.
Qed.

(** An entry whose [isnull] flag is off is not NaN. *)
Lemma iloc_present (s : Series) (p : nat) (x : scalar) :
  iloc s p = Some x -> nth p (isnull s) false = false -> x <> SNaN.
Proof.
  destruct s as [v|v|v|v|v]; cbn; rewrite nth_lookup, list_lookup_fmap;
    destruct (v !! p) as [a|]; cbn; try discriminate;
    try destruct a; cbn; intros [= <-] H; (discriminate H || discriminate).
Qed.

Lemma iloc_missing (s : Series) (p : nat) :
  (p < size s)%nat -> nth p (isnull s) false = true -> iloc s p = Some SNaN.
Proof.
  destruct s as [v|v|v|v|v]; cbn; intros Hp; rewrite nth_lookup, list_lookup_fmap;
    destruct (lookup_lt_is_Some_2 v p Hp) as [a ->]; cbn;
    try discriminate; destruct a; cbn; intros H; (discriminate H || reflexivity).
Qed.

Lemma complete_rows_lookup (df : DataFrame) (p : nat) c s :
  complete_rows df !! p = Some true -> (c, s) ∈ cols df ->
  (p < n_rows df)%nat /\ nth p (isnull s) false = false.
Proof.
  unfold complete_rows. intros Hp Hin.
  rewrite list_lookup_fmap in Hp.
  destruct (seq 0 (n_rows df) !! p) as [i|] eqn:E; [|discriminate].
  apply lookup_seq in E as [-> Hlt]. cbn in Hp. injection Hp as Hp.
  split; [exact Hlt|].
  rewrite forallb_forall in Hp.
  specialize (Hp (c, s) (proj1 (list_elem_of_In _ _) Hin)). cbn in Hp.
  apply negb_true_iff in Hp. exact Hp.
Qed.

Lemma complete_rows_length (df : DataFrame) : length (complete_rows df) = n_rows df.
Proof. unfold complete_rows. rewrite length_map, length_seq. reflexivity. Qed.

Lemma find_col_map (f : Series -> Series) (cs : list (string * Series)) (col : string) :
  find_col (map (fun c => (fst c, f (snd c))) cs) col = f <$> find_col cs col.
Proof.
  unfold find_col. induction cs as [|[c s] cs IH]; [reflexivity|]. cbn.
  destruct (String.eqb c col); [reflexivity | exact IH].
Qed.

Lemma count_zero_Forall (l : list bool) :
  length (filter (fun b => b = true) l) = 0%nat <-> Forall (fun b => b = false) l.
Proof.
  induction l as [|b l IH]; [split; [constructor | reflexivity]|].
  rewrite filter_cons. destruct b.
  - rewrite decide_True by reflexivity. split; [discriminate|].
    intros H. apply Forall_cons in H as [? _]. discriminate.
  - rewrite decide_False by discriminate. rewrite IH. split.
    + intros H. constructor; [reflexivity | exact H].
    + intros H. apply Forall_cons in H as [_ H]. exact H.
Qed.

Lemma filter_Forall_id {A} (P : A -> Prop) `{!forall x, Decision (P x)} (l : list A) :
  Forall P l -> filter P l = l.
Proof.
  induction 1 as [|x l Hx _ IH]; [reflexivity|].
  rewrite filter_cons, decide_True by exact Hx. f_equal. exact IH.
Qed.

(** A table without a missing entry has only complete rows. *)
Lemma complete_rows_all (df : DataFrame) :
  (forall c, c ∈ cols df -> missing_count (snd c) = 0%nat) ->
  Forall (fun b => b = true) (complete_rows df).
Proof.
  intros Hnone. unfold complete_rows. apply Forall_forall. intros b Hb.
  apply list_elem_of_fmap in Hb as (i & -> & _).
  apply forallb_forall. intros c Hc. apply list_elem_of_In in Hc.
  apply negb_true_iff.
  specialize (Hnone c Hc). apply count_zero_Forall in Hnone.
  destruct (nth_in_or_default i (isnull (snd c)) false) as [Hin| ->]; [|reflexivity].
  rewrite Forall_forall in Hnone. apply Hnone, list_elem_of_In, Hin.
Qed.

Lemma dropna_no_missing (df : DataFrame) c :
  c ∈ cols (dropna df) -> missing_count (snd c) = 0%nat.
Proof.
  unfold dropna. cbn [cols]. fold (complete_rows df). intros Hc.
  apply list_elem_of_fmap in Hc as ([name s] & -> & Hin). cbn [snd fst].
  unfold missing_count. apply count_zero_Forall.
  rewrite isnull_select. apply Forall_forall. intros b Hb.
  apply list_elem_of_lookup in Hb as [i Hi].
  rewrite select_lookup in Hi.
  destruct (nth_true (complete_rows df) i) as [p|] eqn:E; [|discriminate].
  cbn in Hi. apply nth_true_lookup in E.
  destruct (complete_rows_lookup df p name s E Hin) as [_ Hfalse].
  rewrite nth_lookup, Hi in Hfalse. exact Hfalse.
Qed.

Lemma dropna_well_formed (df : DataFrame) :
  well_formed df = true -> well_formed (dropna df) = true.
Proof.
  intros Hwf. unfold well_formed in *.
  apply andb_true_iff in Hwf as [Hsizes Hnames].
  apply andb_true_iff. split.
  - unfold dropna. cbn [cols n_rows]. fold (complete_rows df).
    apply forallb_forall. intros c Hc.
    apply list_elem_of_In, list_elem_of_fmap in Hc as ([name s] & -> & Hin).
    cbn [snd fst]. apply Nat.eqb_eq, size_select.
    rewrite complete_rows_length. symmetry. apply Nat.eqb_eq.
    rewrite forallb_forall in Hsizes.
    apply (Hsizes (name, s)), list_elem_of_In, Hin.
  - unfold column_names, dropna in *. cbn [cols]. rewrite map_map. cbn [fst].
    exact Hnames.
Qed.

(** [dropna] changes nothing where nothing is missing. *)
Lemma dropna_unchanged (df : DataFrame) :
  well_formed df = true ->
  (forall c, c ∈ cols df -> missing_count (snd c) = 0%nat) ->
  dropna df = df.
Proof.
  intros Hwf Hnone.
  pose proof (complete_rows_all df Hnone) as Hall.
  unfold dropna. fold (complete_rows df).
  destruct df as [n cs]. cbn [cols n_rows] in *. f_equal.
  - rewrite (filter_Forall_id _ _ Hall). apply complete_rows_length.
  - transitivity (map (fun c : string * Series => c) cs); [|apply map_id].
    apply map_ext_in. intros [name s] Hin. cbn [fst snd]. f_equal.
    assert (Hsize : length (complete_rows (mkFrame n cs)) = size s).
    { rewrite complete_rows_length. cbn. symmetry.
      apply (well_formed_sizes (mkFrame n cs) name s Hwf), list_elem_of_In, Hin. }
    destruct s; cbn in *; f_equal; apply select_all; assumption.
Qed.

(** X7.  Dropping the incomplete rows: on every table with columns of
    equal length and distinct names, [df.dropna()] returns such a table
    with the same columns, in which nothing is missing and every row is
    a row of the input; it returns the input itself exactly when
    [df.isnull().sum()] is zero for every column, and applied to its own
    result it changes nothing. *)
Theorem dropna_keeps_complete_rows (df : DataFrame) :
  well_formed df = true ->
  well_formed (dropna df) = true /\
  column_names (dropna df) = column_names df /\
  (forall col i x, entry (dropna df) col i = Some x -> x <> SNaN) /\
  (forall i, (i < n_rows (dropna df))%nat ->
     exists p, (p < n_rows df)%nat /\
       forall col, entry (dropna df) col i = entry df col p) /\
  (dropna df = df <->
   Forall (fun c => snd c = 0%nat) (mask_sum (DataFrame_isnull df))) /\
  dropna (dropna df) = dropna df.
Proof.
  intros Hwf.
  pose proof (dropna_well_formed df Hwf) as Hwf'.
  split; [exact Hwf'|].
  split; [unfold column_names, dropna; cbn [cols]; rewrite map_map; reflexivity|].
  assert (Hentry : forall col i,
             entry (dropna df) col i
             = nth_true (complete_rows df) i ≫= entry df col).
  { intros col i. unfold entry, dropna. cbn [cols]. fold (complete_rows df).
    rewrite (find_col_map (Series_select (complete_rows df))).
    destruct (find_col (cols df) col) as [s|]; cbn.
    - apply iloc_select.
    - destruct (nth_true (complete_rows df) i); reflexivity. }
  split; [|split; [|split]].
  - intros col i x Hx. rewrite Hentry in Hx.
    destruct (nth_true (complete_rows df) i) as [p|] eqn:E; [|discriminate].
    cbn in Hx. unfold entry in Hx.
    destruct (find_col (cols df) col) as [s|] eqn:Es; [|discriminate].
    apply nth_true_lookup in E.
    destruct (complete_rows_lookup df p col s E (find_col_elem _ _ _ Es)) as [_ Hfalse].
    exact (iloc_present s p x Hx Hfalse).
  - intros i Hi.
    assert (Hsome : is_Some (nth_true (complete_rows df) i)).
    { destruct (cols (dropna df)) as [|[name s] cs'] eqn:Ecols.
      - unfold dropna in Ecols. cbn [cols] in Ecols. fold (complete_rows df) in Ecols.
        destruct (cols df) as [|c cs] eqn:Edf; [|discriminate].
        unfold dropna in Hi. cbn [n_rows] in Hi. fold (complete_rows df) in Hi.
        clear -Hi. revert i Hi.
        induction (complete_rows df) as [|b m IH]; intros i Hi; [cbn in Hi; lia|].
        rewrite filter_cons in Hi. destruct b.
        + rewrite decide_True in Hi by reflexivity. destruct i as [|i]; [cbn; eauto|].
          cbn in Hi. destruct (IH i) as [p Hp]; [lia|]. cbn. rewrite Hp. cbn. eauto.
        + rewrite decide_False in Hi by discriminate.
          destruct (IH i Hi) as [p Hp]. cbn. rewrite Hp. cbn. eauto.
      - assert (Hin : (name, s) ∈ cols (dropna df)) by (rewrite Ecols; left).
        pose proof (well_formed_sizes _ _ _ Hwf' Hin) as Hsize.
        assert (Hlt : (i < size s)%nat) by lia.
        assert (Hrow : is_Some (entry (dropna df) name i)).
        { unfold entry. rewrite (find_col_NoDup _ name s); [| |exact Hin].
          - destruct s as [v|v|v|v|v]; cbn in *;
              destruct (lookup_lt_is_Some_2 v i Hlt) as [a ->]; cbn; eauto.
          - apply well_formed_NoDup, Hwf'. }
        rewrite Hentry in Hrow.
        destruct (nth_true (complete_rows df) i); [eauto|].
        destruct Hrow as [? Hrow]. discriminate. }
    destruct Hsome as [p Hp]. exists p. split.
    + apply nth_true_lookup in Hp. apply lookup_lt_Some in Hp.
      rewrite complete_rows_length in Hp. exact Hp.
    + intros col. rewrite Hentry, Hp. reflexivity.
  - assert (Hcounts : Forall (fun c => snd c = 0%nat) (mask_sum (DataFrame_isnull df))
                      <-> forall c, c ∈ cols df -> missing_count (snd c) = 0%nat).
    { unfold mask_sum, DataFrame_isnull. rewrite map_map, Forall_forall. cbn [fst snd].
      split.
      - intros H c Hc. apply (H (fst c, missing_count (snd c))).
        apply list_elem_of_fmap. exists c. split; [reflexivity | exact Hc].
      - intros H x Hx. apply list_elem_of_fmap in Hx as (c & -> & Hc). cbn.
        apply H, Hc. }
    rewrite Hcounts. split.
    + intros Heq c Hc. rewrite <- Heq in Hc. apply (dropna_no_missing df c Hc).
    + apply dropna_unchanged, Hwf.
  - apply dropna_unchanged; [exact Hwf'|]. apply dropna_no_missing.
Qed.

(** The table of the missing-values notebook: its second row is complete
    and becomes the second row of the result. *)
Lemma dropna_keeps_complete_rows_witness :
  well_formed (dropna (mkFrame 7 sample_data)) = true /\
  dropna (dropna (mkFrame 7 sample_data)) = dropna (mkFrame 7 sample_data).
Proof.
  destruct (dropna_keeps_complete_rows (mkFrame 7 sample_data) eq_refl)
    as (Hwf & _ & _ & _ & _ & Hidem).
  split; [exact Hwf | exact Hidem].
Defined.

End Dropping.

Section DroppingColumns.

Import np sklearn pd Notebook.

Lemma half_len_div (df : DataFrame) : half_len df = (n_rows df / 2)%nat.
Proof.
  unfold half_len, Qnat, Qfloor, Qmult, inject_Z. cbn [Qnum Qden].
  rewrite Z.mul_1_r. change (Z.pos (1 * 2)) with (Z.of_nat 2).
  rewrite <- Nat2Z.inj_div. apply Nat2Z.id.
Qed.

Lemma missing_present_count (s : Series) :
  (missing_count s + length (filter (fun b => b = false) (isnull s)) = size s)%nat.
Proof.
  unfold missing_count. rewrite <- isnull_length.
  induction (isnull s) as [|b l IH]; [reflexivity|].
  rewrite !filter_cons. destruct b.
  - rewrite decide_True, decide_False by (reflexivity || discriminate). cbn. lia.
  - rewrite decide_False, decide_True by (reflexivity || discriminate). cbn. lia.
Qed.

(** The dropping cell leaves [df] alone and binds the two tables. *)
Lemma dropna_cell_runs k l df :
  points k "df" l (Frame df) ->
  exists k' l1 l2,
    run dropna_cell k = (Ok tt, k') /\
    points k' "df" l (Frame df) /\
    points k' "df_drop_rows" l1 (Frame (dropna df)) /\
    points k' "df_drop_cols" l2 (Frame (dropna_columns df (half_len df))).
Proof.
  intros Hp. unfold run, dropna_cell.
  erewrite bind_load_frame by kpoints.
  rewrite bind_call, bind_store.
  erewrite bind_load_frame by kpoints.
  erewrite bind_load_frame by kpoints.
  rewrite bind_python, bind_call.
  change (store ?x ?v ?k) with (Ok tt, alloc x v k).
  do 3 eexists. split; [reflexivity|].
  split; [kpoints|]. split; kpoints.
Qed.

(** X8.  Dropping the sparse columns: run where [df] is a table with
    columns of equal length and distinct names, the dropping cell runs
    to its end and leaves [df] as it was; [df_drop_cols] has the rows of
    [df] and a selection of its columns, in their order and unchanged;
    every column of which at most half is missing is kept, and a column
    is dropped only if more than half of it is missing. *)
Theorem dropna_cell_drops_sparse_columns k l df :
  points k "df" l (Frame df) ->
  well_formed df = true ->
  exists k' l2 out,
    run dropna_cell k = (Ok tt, k') /\
    points k' "df" l (Frame df) /\
    points k' "df_drop_cols" l2 (Frame out) /\
    n_rows out = n_rows df /\
    cols out `sublist_of` cols df /\
    (forall c, c ∈ cols df ->
       (2 * missing_count (snd c) <= n_rows df)%nat -> c ∈ cols out) /\
    (forall c, c ∈ cols df -> c ∉ cols out ->
       (n_rows df < 2 * missing_count (snd c))%nat).
Proof.
  intros Hp Hwf.
  destruct (dropna_cell_runs k l df Hp) as (k' & l1 & l2 & Hrun & Hdf & _ & Hcols).
  exists k', l2, (dropna_columns df (half_len df)).
  split; [exact Hrun|]. split; [exact Hdf|]. split; [exact Hcols|].
  split; [reflexivity|].
  unfold dropna_columns. cbn [cols]. rewrite half_len_div.
  split; [apply sublist_filter|].
  assert (Hcount : forall c, c ∈ cols df ->
            (missing_count (snd c)
             + length (filter (fun b => b = false) (isnull (snd c))) = n_rows df)%nat).
  { intros [name s] Hc. cbn [snd]. rewrite missing_present_count.
    apply (well_formed_sizes df name s Hwf Hc). }
  pose proof (Nat.div_mod_eq (n_rows df) 2) as Hdiv.
  pose proof (Nat.mod_upper_bound (n_rows df) 2) as Hmod.
  split.
  - intros c Hc Hhalf. apply list_elem_of_filter. split; [|exact Hc].
    specialize (Hcount c Hc). lia.
  - intros c Hc Hout. specialize (Hcount c Hc).
    destruct (decide (n_rows df / 2
                      <= length (filter (fun b => b = false) (isnull (snd c))))%nat)
      as [Hge|Hlt]; [|lia].
    exfalso. apply Hout, list_elem_of_filter. split; [exact Hge | exact Hc].
Qed.

(** The table of the missing-values notebook, of which no column is
    dropped. *)
Lemma dropna_cell_drops_sparse_columns_witness :
  exists k' l2 out,
    run dropna_cell after_detection = (Ok tt, k') /\
    points k' "df" 5 (Frame (mkFrame 7 sample_data)) /\
    points k' "df_drop_cols" l2 (Frame out) /\
    n_rows out = 7%nat /\
    cols out `sublist_of` sample_data /\
    (forall c, c ∈ sample_data ->
       (2 * missing_count (snd c) <= 7)%nat -> c ∈ cols out) /\
    (forall c, c ∈ sample_data -> c ∉ cols out ->
       (7 < 2 * missing_count (snd c))%nat).
Proof.
  apply (dropna_cell_drops_sparse_columns after_detection 5%nat (mkFrame 7 sample_data)).
  - split; reflexivity.
  - reflexivity.
Defined.

End DroppingColumns.

(** ** What the simple imputation fills in *)

Section SimpleImputation.

Import np sklearn pd Notebook.

Lemma setitem_ok df col s s' :
  getitem df col = Ok s -> size s' = n_rows df ->
  setitem df col s' = Ok (with_column df col s').
Proof.
  intros Hget Hsize. unfold setitem, getitem, find_col in *.
  destruct (cols df) as [|c cs] eqn:E; [discriminate|].
  rewrite Hsize, Nat.eqb_refl. unfold with_column. rewrite E. reflexivity.
Qed.

Lemma fillna_mean (v : list (option Q)) :
  Series_fillna (Numeric v) (num_scalar (nanmean v)) = Ok (Numeric (fill_with_mean v)).
Proof. unfold fill_with_mean. destruct (nanmean v); reflexivity. Qed.

Lemma fill_with_mean_length (v : list (option Q)) :
  length (fill_with_mean v) = length v.
Proof. unfold fill_with_mean. destruct (nanmean v); [apply length_map|reflexivity]. Qed.

(** The simple-imputation cell, statement by statement: it fills [Age],
    and then either fills [Gender] with the first mode or, when no
    gender is present, stops at [mode()[0]]. *)
Lemma fillna_cell_runs k l df (age : list (option Q)) (gender : list (option string)) :
  points k "df" l (Frame df) ->
  well_formed df = true ->
  getitem df "Age" = Ok (Numeric age) ->
  getitem df "Gender" = Ok (Object gender) ->
  let df1 := with_column df "Age" (Numeric (fill_with_mean age)) in
  match mode_labels gender with
  | m :: _ =>
      exists k', run fillna_cell k = (Ok tt, k') /\
        points k' "df" l
          (Frame (with_column df1 "Gender" (Object (map (fill m) gender))))
  | [] =>
      exists k', run fillna_cell k = (Raise KeyError, k') /\
        points k' "df" l (Frame df1)
  end.
Proof.
  intros Hp Hwf Hage Hgender df1.
  pose proof (getitem_size _ _ _ Hwf Hage) as Hlen_age.
  pose proof (getitem_size _ _ _ Hwf Hgender) as Hlen_gender.
  cbn [size] in Hlen_age, Hlen_gender.
  assert (Hgender1 : getitem df1 "Gender" = Ok (Object gender)).
  { unfold getitem, df1, with_column. cbn [cols].
    rewrite find_col_update_ne by discriminate. exact Hgender. }
  unfold run, fillna_cell.
  erewrite bind_column_of by kpoints. rewrite Hage.
  erewrite bind_column_of by kpoints. rewrite Hage.
  rewrite bind_call. cbn [Series_mean].
  rewrite bind_call, fillna_mean.
  erewrite bind_set_column by kpoints.
  rewrite (setitem_ok df "Age" _ _ Hage)
    by (cbn [size]; rewrite fill_with_mean_length; exact Hlen_age).
  fold df1.
  erewrite bind_column_of by kpoints. rewrite Hgender1.
  erewrite bind_column_of by kpoints. rewrite Hgender1.
  rewrite bind_call. cbn [Series_mode].
  rewrite bind_call. unfold Series_getitem0. cbn [iloc].
  destruct (mode_labels gender) as [|m ms].
  - cbn. eexists. split; [reflexivity|]. kpoints.
  - cbn [map lookup list_lookup fmap option_fmap option_map str_scalar].
    rewrite bind_call. cbn [Series_fillna].
    erewrite set_column_points by kpoints.
    rewrite (setitem_ok df1 "Gender" _ _ Hgender1)
      by (cbn [size]; rewrite length_map; exact Hlen_gender).
    eexists. split; [reflexivity|]. kpoints.
Qed.

Lemma fill_no_missing {A} (a : A) (v : list (option A)) :
  Forall (fun b => b = false) (map is_missing (map (fill a) v)).
Proof.
  rewrite map_map. apply Forall_forall. intros b Hb.
  apply list_elem_of_fmap in Hb as (x & -> & _). destruct x; reflexivity.
Qed.

Lemma nanmean_present (v : list (option Q)) (q : Q) :
  Some q ∈ v -> nanmean v = Some (mean (present v)).
Proof.
  intros Hq. unfold nanmean.
  destruct (present v) as [|x xs] eqn:E; [|reflexivity].
  assert (Hin : q ∈ present v).
  { unfold present. apply list_elem_of_omap. exists (Some q). split; [exact Hq|reflexivity]. }
  rewrite E in Hin. inversion Hin.
Qed.

Lemma mode_labels_most_frequent (v : list (option string)) (m c : string) :
  m ∈ mode_labels v -> (count_label v c <= count_label v m)%nat.
Proof.
  unfold mode_labels. cbv zeta. intros Hm.
  apply list_elem_of_filter in Hm as [Hbest Hcat]. rewrite Hbest.
  destruct (decide (c ∈ categories v)) as [Hc|Hc].
  - apply max_list_elem_of_le, list_elem_of_fmap. exists c. split; [reflexivity|exact Hc].
  - assert (Hzero : count_label v c = 0%nat); [|lia].
    unfold count_label. destruct (filter _ v) as [|x xs] eqn:E; [reflexivity|].
    exfalso. apply Hc, categories_elem.
    assert (Hx : x ∈ filter (fun x => x = Some c) v) by (rewrite E; left).
    apply list_elem_of_filter in Hx as [-> Hx]. exact Hx.
Qed.

(** X9.  The simple imputation fills every hole: run where [df] is a
    table with columns of equal length and distinct names whose [Age]
    column is numeric with a present value and whose [Gender] column
    holds labels with a present value, the cell runs to its end; after
    it no entry of [Age] or [Gender] is missing, each hole of [Age]
    holds the mean of the ages that were present, each hole of [Gender]
    holds one label that no other label outnumbers, and the other
    columns are as they were. *)
Theorem fillna_cell_fills k l df (age : list (option Q))
    (gender : list (option string)) (q : Q) (c : string) :
  points k "df" l (Frame df) ->
  well_formed df = true ->
  getitem df "Age" = Ok (Numeric age) ->
  getitem df "Gender" = Ok (Object gender) ->
  Some q ∈ age -> Some c ∈ gender ->
  exists k' df' m,
    run fillna_cell k = (Ok tt, k') /\
    points k' "df" l (Frame df') /\
    getitem df' "Age" = Ok (Numeric (map (fill (mean (present age))) age)) /\
    getitem df' "Gender" = Ok (Object (map (fill m) gender)) /\
    (forall c', count_label gender c' <= count_label gender m)%nat /\
    (forall col s, (col = "Age" \/ col = "Gender") -> getitem df' col = Ok s ->
       missing_count s = 0%nat) /\
    (forall col, col <> "Age" -> col <> "Gender" -> getitem df' col = getitem df col).
Proof.
  intros Hp Hwf Hage Hgender Hq Hc.
  pose proof (fillna_cell_runs k l df age gender Hp Hwf Hage Hgender) as Hrun.
  cbv zeta in Hrun.
  pose proof (mode_labels_nonempty gender c Hc) as Hne.
  destruct (mode_labels gender) as [|m ms] eqn:Emodes; [congruence|].
  destruct Hrun as (k' & Hrun & Hp').
  assert (Hfill : fill_with_mean age = map (fill (mean (present age))) age).
  { unfold fill_with_mean. rewrite (nanmean_present age q Hq). reflexivity. }
  rewrite Hfill in Hp'.
  set (df' := with_column _ "Gender" _) in Hp'.
  assert (HA : getitem df' "Age" = Ok (Numeric (map (fill (mean (present age))) age))).
  { unfold getitem, df', with_column. cbn [cols].
    rewrite find_col_update_ne by discriminate.
    rewrite find_col_update_eq. reflexivity. }
  assert (HG : getitem df' "Gender" = Ok (Object (map (fill m) gender))).
  { unfold getitem, df', with_column. cbn [cols].
    rewrite find_col_update_eq. reflexivity. }
  exists k', df', m. split; [exact Hrun|]. split; [exact Hp'|].
  split; [exact HA|]. split; [exact HG|]. split; [|split].
  - intros c'. apply mode_labels_most_frequent. rewrite Emodes. left.
  - intros col s [-> | ->] Hs.
    + rewrite HA in Hs. injection Hs as <-.
      apply count_zero_Forall. cbn [isnull]. apply fill_no_missing.
    + rewrite HG in Hs. injection Hs as <-.
      apply count_zero_Forall. cbn [isnull]. apply fill_no_missing.
  - intros col H1 H2. unfold getitem, df', with_column. cbn [cols].
    rewrite !find_col_update_ne by assumption. reflexivity.
Qed.

(** The table of the missing-values notebook. *)
Lemma fillna_cell_fills_witness :
  exists k' df' m,
    run fillna_cell after_detection = (Ok tt, k') /\
    points k' "df" 5 (Frame df') /\
    getitem df' "Gender" = Ok (Object (map (fill m) [Some "Male"; Some "Female";
                                 Some "Female"; None; Some "Male"; Some "Female"; None])).
Proof.
  destruct (fillna_cell_fills after_detection 5%nat (mkFrame 7 sample_data)
              [Some 25; Some 30; None; Some 22; Some 28; None; Some 35]
              [Some "Male"; Some "Female"; Some "Female"; None; Some "Male";
               Some "Female"; None] 25 "Male")
    as (k' & df' & m & Hrun & Hp & _ & HG & _).
  - split; reflexivity.
  - reflexivity.
  - reflexivity.
  - reflexivity.
  - left.
  - left.
  - exists k', df', m. split; [exact Hrun|]. split; [exact Hp | exact HG].
Defined.

Lemma present_fill {A} (a : A) (v : list (option A)) :
  present (map (fill a) v) = map (default a) v.
Proof.
  unfold present. induction v as [|x v IH]; [reflexivity|].
  cbn. destruct x; cbn; f_equal; exact IH.
Qed.

Lemma Qnat_S (n : nat) : Qnat (S n) == Qnat n + 1.
Proof. unfold Qnat. rewrite Nat2Z.inj_succ, <- Z.add_1_r, inject_Z_plus. reflexivity. Qed.

(** Filling the holes with [a] adds [a] once for each hole. *)
Lemma sum_filled (a : Q) (v : list (option Q)) :
  sum (map (default a) v) + Qnat (length (present v)) * a
  == sum (present v) + Qnat (length v) * a.
Proof.
  induction v as [|x v IH].
  - cbn. ring.
  - destruct x as [q|].
    + change (present (Some q :: v)) with (q :: present v).
      change (map (default a) (Some q :: v)) with (q :: map (default a) v).
      change (sum (q :: map (default a) v)) with (q + sum (map (default a) v)).
      change (sum (q :: present v)) with (q + sum (present v)).
      cbn [length]. rewrite !Qnat_S. nra.
    + change (present (None :: v)) with (present v).
      change (map (default a) (None :: v)) with (a :: map (default a) v).
      change (sum (a :: map (default a) v)) with (a + sum (map (default a) v)).
      cbn [length]. rewrite Qnat_S. nra.
Qed.

Lemma Qnat_pos (n : nat) : (0 < n)%nat -> 0 < Qnat n.
Proof.
  intros Hn. unfold Qnat. rewrite <- (Zlt_Qlt 0). lia.
Qed.

(** Filling the holes of a column with its mean leaves the mean as it
    is. *)
Lemma mean_filled (v : list (option Q)) (q : Q) :
  Some q ∈ v ->
  mean (map (default (mean (present v))) v) == mean (present v).
Proof.
  intros Hq. set (mu := mean (present v)).
  pose proof (sum_filled mu v) as Hsum.
  pose proof (mean_times_length (present v)) as Hmu. fold mu in Hmu.
  assert (Hn : 0 < Qnat (length v)).
  { apply Qnat_pos. destruct v; [inversion Hq | cbn; lia]. }
  assert (Hs : sum (map (default mu) v) == Qnat (length v) * mu) by nra.
  unfold mean at 1. rewrite length_map. fold (Qnat (length v)).
  rewrite Hs. field. intros E. lra.
Qed.



Lemma mode_labels_empty (v : list (option string)) :
  (forall c, Some c ∉ v) -> mode_labels v = [].
Proof.
  intros Hnone. unfold mode_labels. cbv zeta.
  destruct (categories v) as [|c cs] eqn:E; [reflexivity|].
  exfalso. apply (Hnone c), categories_elem. rewrite E. left.
Qed.

(** X11.  The simple imputation is not atomic: run where [df] is a
    table with columns of equal length and distinct names whose [Age]
    column is numeric and whose [Gender] column holds no label at all,
    the cell raises [KeyError] at [mode()[0]], after it has filled the
    holes of [Age]: the table is left with [Age] filled and [Gender] as
    it was. *)
Theorem fillna_cell_stops_without_mode k l df (age : list (option Q))
    (gender : list (option string)) :
  points k "df" l (Frame df) ->
  well_formed df = true ->
  getitem df "Age" = Ok (Numeric age) ->
  getitem df "Gender" = Ok (Object gender) ->
  (forall c, Some c ∉ gender) ->
  exists k' df',
    run fillna_cell k = (Raise KeyError, k') /\
    points k' "df" l (Frame df') /\
    getitem df' "Age" = Ok (Numeric (fill_with_mean age)) /\
    getitem df' "Gender" = Ok (Object gender).
Proof.
  intros Hp Hwf Hage Hgender Hnone.
  pose proof (fillna_cell_runs k l df age gender Hp Hwf Hage Hgender) as Hrun.
  cbv zeta in Hrun. rewrite (mode_labels_empty gender Hnone) in Hrun.
  destruct Hrun as (k' & Hrun & Hp').
  do 2 eexists. split; [exact Hrun|]. split; [exact Hp'|].
  unfold getitem, with_column. cbn [cols]. split.
  - rewrite find_col_update_eq. reflexivity.
  - rewrite find_col_update_ne by discriminate. exact Hgender.
Qed.

Lemma fillna_cell_stops_without_mode_witness :
  exists k' df',
    run fillna_cell (alloc "df" (Frame no_gender_known) fresh) = (Raise KeyError, k') /\
    points k' "df" 0 (Frame df') /\
    getitem df' "Age" = Ok (Numeric (fill_with_mean [Some 20; None])) /\
    getitem df' "Gender" = Ok (Object [None; None]).
Proof.
  apply (fillna_cell_stops_without_mode (alloc "df" (Frame no_gender_known) fresh)
           0%nat no_gender_known [Some 20; None] [None; None]).
  - split; reflexivity.
  - reflexivity.
  - reflexivity.
  - reflexivity.
  - intros c. apply (bool_decide_unpack _). vm_compute. exact I.
Defined.

End SimpleImputation.

(** ** Running the simple imputation again *)

Section ImputationAgain.

Import np sklearn pd Notebook.

Lemma update_col_same cs col s :
  find_col cs col = Some s -> update_col cs col s = cs.
Proof.
  unfold find_col. induction cs as [|[c old] cs IH]; cbn; [discriminate|].
  destruct (String.eqb c col) eqn:E; cbn.
  - intros [= ->]. reflexivity.
  - intros H. rewrite (IH H). reflexivity.
Qed.

Lemma update_col_names cs col s s' :
  find_col cs col = Some s -> map fst (update_col cs col s') = map fst cs.
Proof.
  unfold find_col. induction cs as [|[c old] cs IH]; cbn; [discriminate|].
  destruct (String.eqb c col) eqn:E; cbn.
  - reflexivity.
  - intros H. rewrite (IH H). reflexivity.
Qed.

Lemma update_col_sizes (n : nat) cs col s' :
  forallb (fun c => Nat.eqb (size (snd c)) n) cs = true ->
  size s' = n ->
  forallb (fun c => Nat.eqb (size (snd c)) n) (update_col cs col s') = true.
Proof.
  intros Hcs Hs. induction cs as [|[c old] cs IH]; cbn.
  - rewrite Hs, Nat.eqb_refl. reflexivity.
  - cbn in Hcs. apply andb_true_iff in Hcs as [Hc Hcs].
    destruct (String.eqb c col); cbn.
    + rewrite Hs, Nat.eqb_refl, Hcs. reflexivity.
    + rewrite Hc, (IH Hcs). reflexivity.
Qed.

(** Assigning to a column that exists keeps the table well formed. *)
Lemma with_column_well_formed df col s s' :
  well_formed df = true -> getitem df col = Ok s -> size s' = n_rows df ->
  well_formed (with_column df col s') = true.
Proof.
  unfold well_formed, with_column, getitem, column_names. cbn [cols n_rows].
  intros Hwf Hget Hsize. apply andb_true_iff in Hwf as [Hsizes Hnames].
  destruct (find_col (cols df) col) as [s0|] eqn:E; [|discriminate].
  rewrite (update_col_sizes _ _ _ _ Hsizes Hsize), (update_col_names _ _ _ _ E).
  exact Hnames.
Qed.

(** Filling a column without a hole changes nothing. *)
Lemma fill_filled {A} (a b : A) (v : list (option A)) :
  map (fill b) (map (fill a) v) = map (fill a) v.
Proof.
  rewrite map_map. apply map_ext. intros [x|]; reflexivity.
Qed.

Lemma fill_with_mean_filled (a : Q) (v : list (option Q)) :
  fill_with_mean (map (fill a) v) = map (fill a) v.
Proof.
  unfold fill_with_mean. destruct (nanmean _); [apply fill_filled | reflexivity].
Qed.

(** X23.  Running the simple imputation again changes nothing: in the
    situation in which the cell fills every hole (a numeric [Age]
    column with a present value, a [Gender] column of labels with a
    present value), the cell can be run a second time, and the second
    run runs to its end and leaves [df] exactly as the first run left
    it. *)
Theorem fillna_cell_again k l df (age : list (option Q))
    (gender : list (option string)) (q : Q) (c : string) :
  points k "df" l (Frame df) ->
  well_formed df = true ->
  getitem df "Age" = Ok (Numeric age) ->
  getitem df "Gender" = Ok (Object gender) ->
  Some q ∈ age -> Some c ∈ gender ->
  exists k1 k2 df',
    run fillna_cell k = (Ok tt, k1) /\
    points k1 "df" l (Frame df') /\
    run fillna_cell k1 = (Ok tt, k2) /\
    points k2 "df" l (Frame df').
Proof.
  intros Hp Hwf Hage Hgender Hq Hc.
  pose proof (getitem_size _ _ _ Hwf Hage) as Hlen_age.
  pose proof (getitem_size _ _ _ Hwf Hgender) as Hlen_gender.
  cbn [size] in Hlen_age, Hlen_gender.
  pose proof (fillna_cell_runs k l df age gender Hp Hwf Hage Hgender) as Hrun.
  cbv zeta in Hrun.
  pose proof (mode_labels_nonempty gender c Hc) as Hne.
  destruct (mode_labels gender) as [|m ms] eqn:Emodes; [congruence|].
  destruct Hrun as (k1 & Hrun & Hp1).
  assert (Hfill : fill_with_mean age = map (fill (mean (present age))) age).
  { unfold fill_with_mean. rewrite (nanmean_present age q Hq). reflexivity. }
  rewrite Hfill in Hp1.
  set (age' := map (fill (mean (present age))) age) in *.
  set (gender' := map (fill m) gender) in *.
  set (df1 := with_column df "Age" (Numeric age')) in *.
  set (df' := with_column df1 "Gender" (Object gender')) in *.
  assert (Hgender1 : getitem df1 "Gender" = Ok (Object gender)).
  { unfold getitem, df1, with_column. cbn [cols].
    rewrite find_col_update_ne by discriminate. exact Hgender. }
  assert (Hwf1 : well_formed df1 = true).
  { apply (with_column_well_formed df "Age" _ _ Hwf Hage).
    unfold age'. cbn [size]. rewrite length_map. exact Hlen_age. }
  assert (Hwf' : well_formed df' = true).
  { apply (with_column_well_formed df1 "Gender" _ _ Hwf1 Hgender1).
    unfold gender'. cbn [size]. rewrite length_map. exact Hlen_gender. }
  assert (HA : getitem df' "Age" = Ok (Numeric age')).
  { unfold getitem, df', df1, with_column. cbn [cols].
    rewrite find_col_update_ne by discriminate.
    rewrite find_col_update_eq. reflexivity. }
  assert (HG : getitem df' "Gender" = Ok (Object gender')).
  { unfold getitem, df', with_column. cbn [cols].
    rewrite find_col_update_eq. reflexivity. }
  pose proof (fillna_cell_runs k1 l df' age' gender' Hp1 Hwf' HA HG) as Hrun2.
  cbv zeta in Hrun2.
  assert (Hm : Some m ∈ gender').
  { unfold gender'. apply list_elem_of_fmap.
    assert (Hin : m ∈ categories gender).
    { assert (Hmode : m ∈ mode_labels gender) by (rewrite Emodes; left).
      unfold mode_labels in Hmode. cbv zeta in Hmode.
      apply list_elem_of_filter in Hmode as [_ Hmode]. exact Hmode. }
    apply categories_elem in Hin. exists (Some m). split; [reflexivity | exact Hin]. }
  pose proof (mode_labels_nonempty gender' m Hm) as Hne2.
  destruct (mode_labels gender') as [|m2 ms2]; [congruence|].
  destruct Hrun2 as (k2 & Hrun2 & Hp2).
  assert (Hsame : with_column (with_column df' "Age" (Numeric (fill_with_mean age')))
                    "Gender" (Object (map (fill m2) gender')) = df').
  { unfold age' at 1. rewrite fill_with_mean_filled. fold age'.
    unfold gender' at 1. rewrite fill_filled. fold gender'.
    assert (H1 : with_column df' "Age" (Numeric age') = df').
    { unfold with_column. rewrite update_col_same.
      - destruct df'; reflexivity.
      - unfold getitem in HA. destruct (find_col (cols df') "Age"); [congruence|discriminate]. }
    rewrite H1. unfold with_column. rewrite update_col_same.
    - destruct df'; reflexivity.
    - unfold getitem in HG. destruct (find_col (cols df') "Gender"); [congruence|discriminate]. }
  rewrite Hsame in Hp2.
  exists k1, k2, df'. split; [exact Hrun|]. split; [exact Hp1|].
  split; [exact Hrun2 | exact Hp2].
Qed.

(** The table of the missing-values notebook. *)
Lemma fillna_cell_again_witness :
  exists k1 k2 df',
    run fillna_cell after_detection = (Ok tt, k1) /\
    points k1 "df" 5 (Frame df') /\
    run fillna_cell k1 = (Ok tt, k2) /\
    points k2 "df" 5 (Frame df').
Proof.
  apply (fillna_cell_again after_detection 5%nat (mkFrame 7 sample_data)
           [Some 25; Some 30; None; Some 22; Some 28; None; Some 35]
           [Some "Male"; Some "Female"; Some "Female"; None; Some "Male";
            Some "Female"; None] 25 "Male").
  - split; reflexivity.
  - reflexivity.
  - reflexivity.
  - reflexivity.
  - left.
  - left.
Defined.

End ImputationAgain.

(** ** What the KNN imputation fills in *)

Section KNNFills.

Import np sklearn pd Notebook.

#[local] Instance dist_le_total : Total dist_le.
Proof.
  intros [[x|] a] [[y|] b]; unfold dist_le; cbn; auto.
  destruct (Qlt_le_dec y x); [right; apply Qlt_le_weak; assumption | left; assumption].
Qed.

#[local] Instance dist_le_trans : Transitive dist_le.
Proof.
  intros [[x|] a] [[y|] b] [[z|] c]; unfold dist_le; cbn; auto; try contradiction.
  apply Qle_trans.
Qed.

Lemma sum_bounds (lo hi : Q) (l : list Q) :
  (forall x, x ∈ l -> lo <= x <= hi) ->
  Qnat (length l) * lo <= sum l <= Qnat (length l) * hi.
Proof.
  induction l as [|a l IH]; intros Hall.
  - cbn. change (Qnat 0) with 0. lra.
  - destruct (Hall a) as [Ha1 Ha2]; [left|].
    destruct IH as [IH1 IH2]; [intros x Hx; apply Hall; right; exact Hx|].
    change (sum (a :: l)) with (a + sum l). cbn [length]. rewrite Qnat_S. nra.
Qed.

(** The mean of a list lies between any bounds of its elements. *)
Lemma mean_bounds (lo hi : Q) (l : list Q) :
  l <> [] -> (forall x, x ∈ l -> lo <= x <= hi) -> lo <= mean l <= hi.
Proof.
  intros Hne Hall. destruct (sum_bounds lo hi l Hall) as [H1 H2].
  assert (Hn : 0 < Qnat (length l)).
  { apply Qnat_pos. destruct l; [congruence | cbn; lia]. }
  unfold mean. fold (Qnat (length l)). split.
  - apply Qle_shift_div_l; [exact Hn|]. lra.
  - apply Qle_shift_div_r; [exact Hn|]. lra.
Qed.

Lemma potential_donors_elem (X : nanarray) (row : list (option Q)) (j : nat) d :
  d ∈ potential_donors X row j -> snd d ∈ present (feature X j).
Proof.
  unfold potential_donors. intros Hd.
  apply list_elem_of_omap in Hd as (r & Hr & Hd).
  destruct (r !! j) as [[v|]|] eqn:E; try discriminate.
  injection Hd as <-. cbn.
  unfold present, feature. apply list_elem_of_omap.
  exists (Some v). split; [|reflexivity].
  apply list_elem_of_fmap. exists r. split; [rewrite E; reflexivity | exact Hr].
Qed.

(** The nearest donors hold one at a defined distance, if there is any. *)
Lemma nearest_defined (n : nat) (donors : list (option Q * Q)) :
  (0 < n)%nat ->
  forallb (fun d => is_missing (fst d)) donors = false ->
  filter (fun d => is_missing (fst d) = false)
         (take (Nat.min n (length donors)) (merge_sort dist_le donors)) <> [].
Proof.
  intros Hn Hsome.
  assert (Hex : exists d, d ∈ donors /\ is_missing (fst d) = false).
  { induction donors as [|d ds IH]; [discriminate|].
    cbn in Hsome. apply andb_false_iff in Hsome as [Hd|Hds].
    - exists d. split; [left | exact Hd].
    - destruct (IH Hds) as (d' & Hin & Hd'). exists d'. split; [right; exact Hin | exact Hd']. }
  destruct Hex as (d0 & Hin0 & Hd0).
  pose proof (StronglySorted_merge_sort dist_le donors) as Hsorted.
  pose proof (merge_sort_Permutation dist_le donors) as Hperm.
  rewrite <- (Permutation_length Hperm).
  rewrite <- Hperm in Hin0.
  destruct (merge_sort dist_le donors) as [|h s]; [inversion Hin0|].
  destruct n as [|n]; [lia|]. cbn [length Nat.min take].
  apply StronglySorted_inv in Hsorted as [_ Hh].
  assert (Hhd : is_missing (fst h) = false).
  { apply elem_of_cons in Hin0 as [<-|Hin0]; [exact Hd0|].
    rewrite Forall_forall in Hh. specialize (Hh d0 Hin0).
    unfold dist_le in Hh. destruct (fst h); [reflexivity|].
    destruct (fst d0); [contradiction | discriminate]. }
  rewrite filter_cons, decide_True by exact Hhd. discriminate.
Qed.

(** The value imputed for a feature with a present value lies between
    the smallest and the largest present value of the feature. *)
Lemma impute_entry_bounds (n : nat) (X : nanarray) (row : list (option Q)) (j : nat)
    (q0 : Q) :
  (0 < n)%nat -> q0 ∈ present (feature X j) ->
  exists q, impute_entry n X row j = Some q /\
            amin (present (feature X j)) <= q <= amax (present (feature X j)).
Proof.
  intros Hn Hq0. unfold impute_entry.
  destruct (forallb _ (potential_donors X row j)) eqn:Eall.
  - fold (feature X j). unfold nanmean.
    destruct (present (feature X j)) as [|a l] eqn:E; [inversion Hq0|].
    eexists. split; [reflexivity|]. rewrite <- E in *.
    apply mean_bounds; [rewrite E; discriminate|].
    intros x Hx. apply amin_amax_bound, Hx.
  - eexists. split; [reflexivity|].
    pose proof (nearest_defined n _ Hn Eall) as Hne.
    set (used := filter _ _) in *.
    apply mean_bounds.
    + intros E. apply Hne. destruct used; [reflexivity | discriminate].
    + intros x Hx. apply list_elem_of_fmap in Hx as (d & -> & Hd).
      apply amin_amax_bound, (potential_donors_elem X row j).
      unfold used in Hd. apply list_elem_of_filter in Hd as [_ Hd].
      apply elem_of_take in Hd as (i & Hd & _).
      apply list_elem_of_lookup_2 in Hd.
      rewrite merge_sort_Permutation in Hd. exact Hd.
Qed.

Lemma valid_features_all (X : nanarray) :
  (forall j, (j < length (hd [] X))%nat -> exists q, q ∈ present (feature X j)) ->
  valid_features X = seq 0 (length (hd [] X)).
Proof.
  intros Hall. unfold valid_features. apply filter_Forall_id.
  apply Forall_forall. intros j Hj. apply elem_of_seq in Hj.
  destruct (Hall j) as [q Hq]; [lia|].
  unfold present, feature in Hq.
  apply list_elem_of_omap in Hq as (x & Hx & Hq).
  apply list_elem_of_fmap in Hx as (r & -> & Hr).
  apply existsb_exists. exists r. split; [apply list_elem_of_In, Hr|].
  destruct (mjoin (r !! j)); [reflexivity | discriminate].
Qed.

(** The array the imputer returns, entry by entry. *)
Lemma knn_imputer_returns (n : nat) (X : nanarray) :
  (0 < n)%nat ->
  (0 < length (hd [] X))%nat ->
  (forall j, (j < length (hd [] X))%nat -> exists q, q ∈ present (feature X j)) ->
  exists Y,
    KNNImputer_fit_transform n X = Ok Y /\
    length Y = length X /\
    forall i row, X !! i = Some row ->
      exists out, Y !! i = Some out /\ length out = length (hd [] X) /\
        forall j, (j < length (hd [] X))%nat ->
          exists q, out !! j = Some (Some q) /\
            match mjoin (row !! j) with
            | Some v => q = v
            | None => amin (present (feature X j)) <= q <= amax (present (feature X j))
            end.
Proof.
  intros Hn Hcols Hall.
  pose proof (valid_features_all X Hall) as Hvalid.
  exists (map (fun row =>
            map (fun j => match mjoin (row !! j) with
                          | Some v => Some v
                          | None => impute_entry n X row j
                          end) (valid_features X)) X).
  split.
  { unfold KNNImputer_fit_transform.
    destruct X as [|[|a r] X']; [cbn in Hcols; lia | cbn in Hcols; lia | reflexivity]. }
  rewrite Hvalid.
  split; [apply length_map|].
  intros i row Hi. eexists. split; [rewrite list_lookup_fmap, Hi; reflexivity|].
  split; [rewrite length_map, length_seq; reflexivity|].
  intros j Hj. rewrite list_lookup_fmap, lookup_seq_lt by exact Hj. cbn.
  destruct (mjoin (row !! j)) as [v|]; [eauto|].
  destruct (Hall j Hj) as [q0 Hq0].
  destruct (impute_entry_bounds n X row j q0 Hn Hq0) as (q & -> & Hq). eauto.
Qed.



End KNNFills.

(** ** The KNN cell fills the numeric columns *)

Section KNNCellFills.

Import np sklearn pd Notebook.

Lemma numeric_columns_elem (df : DataFrame) (n : string) (v : list (option Q)) :
  getitem df n = Ok (Numeric v) -> n ∈ numeric_columns df.
Proof.
  intros H. unfold getitem in H.
  destruct (find_col (cols df) n) as [s|] eqn:E; [|discriminate H].
  injection H as ->. apply find_col_elem in E.
  unfold numeric_columns. apply list_elem_of_omap. exists (n, Numeric v).
  split; [exact E | reflexivity].
Qed.

Lemma numeric_columns_NoDup (df : DataFrame) :
  NoDup (column_names df) -> NoDup (numeric_columns df).
Proof.
  unfold column_names, numeric_columns.
  induction (cols df) as [|[n s] cs IH]; [constructor|].
  cbn [map fst]. intros Hnd. apply NoDup_cons in Hnd as [Hn Hnd].
  cbn [omap list_omap snd fst]. destruct s; cbn; try (apply IH; exact Hnd).
  apply NoDup_cons. split; [|apply IH; exact Hnd].
  intros Hin. apply Hn. apply list_elem_of_omap in Hin as ([n' s'] & Hin & Hs).
  apply list_elem_of_fmap. exists (n', s'). split; [|exact Hin].
  cbn in Hs. destruct s'; try discriminate Hs. injection Hs as <-. reflexivity.
Qed.

(** The numeric part of a table can be read as an array. *)
Lemma numeric_block_ok (df : DataFrame) :
  well_formed df = true ->
  exists sub X, getitems df (numeric_columns df) = Ok sub /\ to_numpy sub = Ok X.
Proof.
  intros Hwf. pose proof (well_formed_NoDup df Hwf) as Hnd.
  unfold getitems.
  destruct (sequence_all_ok (fun n => let* s := getitem df n in Ok (n, s))
              (numeric_columns df)) as (cs & Hcs & HF).
  { intros n Hn. destruct (numeric_columns_getitem df n Hnd Hn) as [v Hv].
    rewrite Hv. cbn. eauto. }
  rewrite Hcs. cbn [Py.bind]. exists (mkFrame (n_rows df) cs).
  unfold to_numpy. cbn [cols n_rows].
  destruct (sequence_all_ok (fun c : string * Series => as_numeric (snd c)) cs)
    as (columns & Hcolumns & _).
  { intros c Hc. apply list_elem_of_lookup in Hc as [j Hj].
    destruct (Forall2_lookup_r _ _ _ _ _ HF Hj) as (n & Hn & Hget).
    apply list_elem_of_lookup_2 in Hn.
    destruct (numeric_columns_getitem df n Hnd Hn) as [v Hv].
    rewrite Hv in Hget. cbn in Hget. injection Hget as <-. cbn. eauto. }
  rewrite Hcolumns. cbn [Py.bind]. eexists. split; reflexivity.
Qed.

(** Assigning as many columns as names, each as long as the table. *)
Lemma assign_columns_ok (names : list string) :
  forall (value : list (string * Series)) (df : DataFrame),
    length names = length value -> cols df <> [] ->
    (forall c, c ∈ value -> size (snd c) = n_rows df) ->
    exists df',
      assign_columns df names value = Ok df' /\
      n_rows df' = n_rows df /\ cols df' <> [] /\
      (forall col, col ∉ names -> find_col (cols df') col = find_col (cols df) col) /\
      (NoDup names -> forall j n c, names !! j = Some n -> value !! j = Some c ->
         find_col (cols df') n = Some (snd c)).
Proof.
  induction names as [|n names IH]; intros [|[n0 s] value] df Hlen Hcols Hsize;
    try discriminate Hlen.
  - exists df. split; [reflexivity|]. split; [reflexivity|]. split; [exact Hcols|].
    split; [reflexivity|]. intros _ j n c Hj. discriminate Hj.
  - cbn [assign_columns].
    assert (Hset : setitem df n s
                   = Ok (mkFrame (n_rows df) (update_col (cols df) n s))).
    { pose proof (Hsize (n0, s) ltac:(left)) as Hs. cbn [snd] in Hs.
      unfold setitem. destruct (cols df) as [|c0 cs] eqn:E; [congruence|].
      rewrite Hs, Nat.eqb_refl. reflexivity. }
    rewrite Hset. cbn [Py.bind].
    destruct (IH value (mkFrame (n_rows df) (update_col (cols df) n s)))
      as (df' & Hassign & Hrows & Hne & Hother & Hnames).
    + cbn in Hlen. lia.
    + cbn [cols]. destruct (cols df) as [|[c0 s0] cs]; [congruence|].
      cbn. destruct (String.eqb c0 n); discriminate.
    + intros c Hc. cbn [n_rows]. apply Hsize. right. exact Hc.
    + exists df'. split; [exact Hassign|]. split; [exact Hrows|]. split; [exact Hne|].
      cbn [cols n_rows] in *. split.
      * intros col Hcol. rewrite Hother by (intros H; apply Hcol; right; exact H).
        apply find_col_update_ne. intros ->. apply Hcol. left.
      * intros Hnd j n' c Hj Hc. apply NoDup_cons in Hnd as [Hn Hnd].
        destruct j as [|j]; cbn in Hj, Hc.
        -- injection Hj as <-. injection Hc as <-. cbn [snd].
           rewrite Hother by exact Hn. apply find_col_update_eq.
        -- apply (Hnames Hnd j n' c Hj Hc).
Qed.

Lemma feature_of_columns (columns : list (list (option Q))) (n : nat) (j : nat)
    (v : list (option Q)) :
  columns !! j = Some v -> length v = n ->
  feature (map (fun i => map (fun c => mjoin (c !! i)) columns) (seq 0 n)) j = v.
Proof.
  intros Hj Hlen. unfold feature. rewrite map_map. apply list_eq. intros i.
  rewrite list_lookup_fmap.
  destruct (decide (i < n)%nat) as [Hi|Hi].
  - rewrite lookup_seq_lt by exact Hi. cbn.
    rewrite list_lookup_fmap, Hj. cbn.
    destruct (lookup_lt_is_Some_2 v i) as [x Hx]; [lia|]. rewrite Hx.
    destruct x; reflexivity.
  - rewrite lookup_seq_ge by lia. cbn. symmetry. apply lookup_ge_None. lia.
Qed.

(** The statements of the KNN cell that compute the new table, on a
    table in which every numeric column has a present value. *)
Lemma knn_statements_fill (df : DataFrame) :
  well_formed df = true ->
  (0 < n_rows df)%nat ->
  numeric_columns df <> [] ->
  (forall n v, getitem df n = Ok (Numeric v) -> exists q, Some q ∈ v) ->
  exists sub X Y imputed df',
    getitems df (numeric_columns df) = Ok sub /\
    to_numpy sub = Ok X /\
    KNNImputer_fit_transform 3 X = Ok Y /\
    DataFrame_from_array Y (numeric_columns df) = Ok imputed /\
    setitems df (numeric_columns df) imputed = Ok df' /\
    (forall n v, getitem df n = Ok (Numeric v) ->
       exists v', getitem df' n = Ok (Numeric v') /\
                  missing_count (Numeric v') = 0%nat /\ length v' = length v) /\
    (forall col, col ∉ numeric_columns df -> getitem df' col = getitem df col).
Proof.
  intros Hwf Hrows Hnum Hpresent.
  pose proof (well_formed_NoDup df Hwf) as Hnd.
  destruct (numeric_block_ok df Hwf) as (sub & X & Hsub & HX).
  destruct (numeric_block df sub X Hwf Hsub HX) as (columns & Hlen & HXeq & Hcol).
  set (names := numeric_columns df) in *.
  assert (Hnames_pos : (0 < length names)%nat).
  { destruct names; [congruence | cbn; lia]. }
  assert (Hhd : length (hd [] X) = length columns).
  { rewrite HXeq, hd_tabulate by lia. apply length_map. }
  assert (HXlen : length X = n_rows df).
  { rewrite HXeq, length_map, length_seq. reflexivity. }
  assert (Hfeature : forall j, (j < length (hd [] X))%nat ->
                               exists q, q ∈ present (feature X j)).
  { intros j Hj.
    destruct (lookup_lt_is_Some_2 names j) as [n Hn]; [lia|].
    destruct (Hcol j n Hn) as (v & Hget & Hcolj & Hsize).
    destruct (Hpresent n v Hget) as [q Hq]. exists q.
    rewrite HXeq, (feature_of_columns columns (n_rows df) j v Hcolj Hsize).
    unfold present. apply list_elem_of_omap. exists (Some q). split; [exact Hq|reflexivity]. }
  destruct (knn_imputer_returns 3 X) as (Y & HY & HlenY & Hfilled);
    [lia | rewrite Hhd, Hlen; exact Hnames_pos | exact Hfeature |].
  destruct (KNNImputer_length _ _ _ HY) as [_ Hrowlen].
  rewrite (valid_features_all X Hfeature), length_seq in Hrowlen.
  assert (Himp : DataFrame_from_array Y names
                 = Ok (mkFrame (length Y)
                         (imap (fun j n => (n, Numeric (map (fun row => mjoin (row !! j)) Y)))
                               names))).
  { unfold DataFrame_from_array.
    rewrite (proj2 (forallb_forall _ Y)); [reflexivity|].
    intros out Hout. apply Nat.eqb_eq. rewrite (Hrowlen out) by (apply list_elem_of_In, Hout).
    lia. }
  set (value := imap (fun j n => (n, Numeric (map (fun row => mjoin (row !! j)) Y))) names)
    in *.
  destruct (assign_columns_ok names value df) as (df' & Hassign & _ & _ & Hother & Hnew).
  { unfold value. rewrite length_imap. reflexivity. }
  { intros E. unfold names, numeric_columns in Hnames_pos. rewrite E in Hnames_pos.
    cbn in Hnames_pos. lia. }
  { intros c Hc. unfold value in Hc. apply list_elem_of_lookup in Hc as [j Hj].
    rewrite list_lookup_imap in Hj.
    destruct (names !! j); [|discriminate Hj]. cbn in Hj. injection Hj as <-.
    cbn [snd size]. rewrite length_map. lia. }
  exists sub, X, Y, (mkFrame (length Y) value), df'.
  split; [exact Hsub|]. split; [exact HX|]. split; [exact HY|]. split; [exact Himp|].
  split; [|split].
  - unfold setitems. cbn [cols]. unfold value at 1. rewrite length_imap, Nat.eqb_refl.
    exact Hassign.
  - intros n v Hget.
    pose proof (numeric_columns_elem df n v Hget) as Hn. fold names in Hn.
    apply list_elem_of_lookup in Hn as [j Hj].
    destruct (Hcol j n Hj) as (v0 & Hget0 & Hcolj & Hsize).
    rewrite Hget in Hget0. injection Hget0 as <-.
    assert (Hval : value !! j = Some (n, Numeric (map (fun row => mjoin (row !! j)) Y))).
    { unfold value. rewrite list_lookup_imap, Hj. reflexivity. }
    eexists. split; [|split].
    + unfold getitem.
      rewrite (Hnew (numeric_columns_NoDup df Hnd) j n _ Hj Hval). reflexivity.
    + apply count_zero_Forall. cbn [isnull]. rewrite map_map.
      apply Forall_forall. intros b Hb.
      apply list_elem_of_fmap in Hb as (out & -> & Hout).
      apply list_elem_of_lookup in Hout as [i Hi].
      destruct (lookup_lt_is_Some_2 X i) as [row Hrow].
      { rewrite <- HlenY. eapply lookup_lt_Some, Hi. }
      destruct (Hfilled i row Hrow) as (out' & Hout' & _ & Hentries).
      rewrite Hi in Hout'. injection Hout' as <-.
      destruct (Hentries j) as (q & Hq & _).
      { rewrite Hhd, Hlen. eapply lookup_lt_Some, Hj. }
      rewrite Hq. reflexivity.
    + rewrite length_map. lia.
  - intros col Hcol'. unfold getitem. rewrite (Hother col Hcol'). reflexivity.
Qed.



End KNNCellFills.

(** ** Timestamps and weekdays *)

Section Calendar.

Import np sklearn pd Notebook.

Open Scope Z_scope.

Lemma digit_range (c : ascii) (d : Z) : digit c = Some d -> 0 <= d <= 9.
Proof.
  unfold digit. cbv zeta. destruct (_ && _)%bool eqn:E; [|intros [=]].
  intros [= <-]. apply andb_true_iff in E as [H1 H2].
  apply Nat.leb_le in H1, H2. lia.
Qed.

Lemma number_snoc (cs : list ascii) (c : ascii) :
  number (cs ++ [c]) = a ← number cs; d ← digit c; Some (10 * a + d).
Proof. unfold number. rewrite foldl_app. reflexivity. Qed.

Lemma number_range (cs : list ascii) (z : Z) :
  number cs = Some z -> 0 <= z < 10 ^ Z.of_nat (length cs).
Proof.
  revert z. induction cs as [|c cs IH] using rev_ind; intros z.
  - intros [= <-]. cbn. lia.
  - rewrite number_snoc, length_app. cbn [length].
    destruct (number cs) as [a|]; cbn; [|intros [=]].
    destruct (digit c) as [d|] eqn:Ed; cbn; [|intros [=]].
    intros [= <-]. specialize (IH a eq_refl). apply digit_range in Ed.
    replace (Z.of_nat (length cs + 1)) with (Z.of_nat (length cs) + 1) by lia.
    rewrite Z.pow_add_r by lia. lia.
Qed.

Lemma days_in_month_range (y m : Z) : 28 <= days_in_month y m <= 31.
Proof.
  unfold days_in_month.
  destruct (m =? 2); [destruct (is_leap y); lia|].
  destruct (_ || _)%bool; lia.
Qed.

Lemma weekday_range (t : Timestamp) : 0 <= weekday t <= 6.
Proof. unfold weekday. pose proof (Z.mod_pos_bound (day_number t + 3) 7). unfold day_number in *. lia. Qed.



(** From the last day of February to the first of March the count of
    days goes up by one, in leap years and in the others. *)
Lemma march_follows_february (y : Z) :
  days_from_civil y 3 1 = days_from_civil y 2 (days_in_month y 2) + 1.
Proof.
  unfold days_from_civil, days_in_month, is_leap.
  change (3 <=? 2) with false. change (2 <=? 2) with true.
  change (3 >? 2) with true. change (2 >? 2) with false. change (2 =? 2) with true.
  cbv iota.
  change ((153 * (3 - 3) + 2) / 5) with 0.
  change ((153 * (2 + 9) + 2) / 5) with 337.
  destruct (Z.eqb_spec (y mod 4) 0) as [H4|H4];
    destruct (Z.eqb_spec (y mod 100) 0) as [H100|H100];
    destruct (Z.eqb_spec (y mod 400) 0) as [H400|H400];
    cbn [negb andb orb];
    Z.div_mod_to_equations; lia.
Qed.

(** From the last day of any other month but December to the first of
    the next. *)
Lemma month_follows_month (y m : Z) :
  1 <= m < 12 -> m <> 2 ->
  days_from_civil y (m + 1) 1 = days_from_civil y m (days_in_month y m) + 1.
Proof.
  intros Hm H2.
  assert (Hcases : m = 1 \/ m = 3 \/ m = 4 \/ m = 5 \/ m = 6 \/ m = 7 \/
                   m = 8 \/ m = 9 \/ m = 10 \/ m = 11) by lia.
  destruct Hcases as [->|[->|[->|[->|[->|[->|[->|[->|[->| ->]]]]]]]]];
    unfold days_from_civil, days_in_month;
    repeat match goal with
           | |- context [?a <=? ?b] =>
               let v := eval vm_compute in (a <=? b) in change (a <=? b) with v
           | |- context [?a >? ?b] =>
               let v := eval vm_compute in (a >? b) in change (a >? b) with v
           | |- context [?a =? ?b] =>
               let v := eval vm_compute in (a =? b) in change (a =? b) with v
           end;
    cbn [orb]; cbv iota;
    repeat match goal with
           | |- context [(153 * ?e + 2) / 5] =>
               let v := eval vm_compute in ((153 * e + 2) / 5) in
               change ((153 * e + 2) / 5) with v
           end;
    lia.
Qed.

Lemma january_follows_december (y : Z) :
  days_from_civil (y + 1) 1 1 = days_from_civil y 12 (days_in_month y 12) + 1.
Proof.
  unfold days_from_civil, days_in_month.
  change (1 <=? 2) with true. change (12 <=? 2) with false.
  change (1 >? 2) with false. change (12 >? 2) with true.
  change (12 =? 2) with false. cbn [orb Z.eqb Pos.eqb]. cbv iota.
  change ((153 * (1 + 9) + 2) / 5) with 306.
  change ((153 * (12 - 3) + 2) / 5) with 275.
  replace (y + 1 - 1) with y by lia. lia.
Qed.

Lemma days_from_civil_next (t : Timestamp) :
  1 <= month t <= 12 ->
  1 <= day t <= days_in_month (year t) (month t) ->
  day_number (next_day t) = day_number t + 1.
Proof.
  intros Hm Hd. unfold next_day, day_number.
  destruct (Z.ltb_spec (day t) (days_in_month (year t) (month t))) as [Hlt|Hge].
  - cbn [year month day]. unfold days_from_civil. lia.
  - assert (Hlast : day t = days_in_month (year t) (month t)) by lia.
    rewrite Hlast. clear Hlast Hge Hd.
    destruct t as [y m d h n s]. cbn [year month day] in *.
    destruct (Z.ltb_spec m 12) as [Hlt|Hge]; cbn [year month day].
    + destruct (decide (m = 2)) as [->|Hne].
      * apply march_follows_february.
      * apply month_follows_month; [lia | exact Hne].
    + assert (m = 12) as -> by lia. apply january_follows_december.
Qed.

(** X14.  Consecutive days have consecutive weekdays: for every date of
    the calendar, the day after it (the next day of the month, or the
    first of the next month, or the first of January of the next year)
    is again a date of the calendar, and its [dt.weekday] is that of
    the date plus one, Monday following Sunday. *)
Theorem weekday_of_next_day (t : Timestamp) :
  valid_timestamp t = true ->
  valid_timestamp (next_day t) = true /\
  weekday (next_day t) = (weekday t + 1) mod 7.
Proof.
  intros Hvalid. unfold valid_timestamp in Hvalid.
  repeat (apply andb_true_iff in Hvalid as [Hvalid ?]).
  repeat match goal with H : (_ <=? _) = true |- _ => apply Z.leb_le in H end.
  split.
  - pose proof (days_in_month_range (year t) (month t)).
    unfold next_day.
    destruct (Z.ltb_spec (day t) (days_in_month (year t) (month t))).
    + unfold valid_timestamp. cbn [year month day hour minute second].
      repeat (apply andb_true_iff; split); apply Z.leb_le; lia.
    + destruct (Z.ltb_spec (month t) 12).
      * unfold valid_timestamp. cbn [year month day hour minute second].
        pose proof (days_in_month_range (year t) (month t + 1)).
        repeat (apply andb_true_iff; split); apply Z.leb_le; lia.
      * unfold valid_timestamp. cbn [year month day hour minute second].
        pose proof (days_in_month_range (year t + 1) 1).
        repeat (apply andb_true_iff; split); apply Z.leb_le; lia.
  - unfold weekday. fold (day_number (next_day t)). fold (day_number t).
    rewrite days_from_civil_next by lia.
    rewrite Zplus_mod_idemp_l. f_equal. lia.
Qed.

(** The last timestamp of the notebook is a Monday; the day after it is
    a Tuesday. *)
Lemma weekday_of_next_day_witness :
  valid_timestamp (next_day (mkTimestamp 2025 7 14 20 45 0)) = true /\
  weekday (next_day (mkTimestamp 2025 7 14 20 45 0))
  = (weekday (mkTimestamp 2025 7 14 20 45 0) + 1) mod 7.
Proof. apply (weekday_of_next_day (mkTimestamp 2025 7 14 20 45 0)). reflexivity. Defined.

End Calendar.

(** ** The split in general *)

Section SplitInGeneral.

Import np sklearn.

Context {G : Type} {rng : RandomState G}.

(** Rows and labels of equal number are indexed alike. *)
Lemma safe_indexing_zip {A B} (X : list A) (y : list B) (idx : list nat) :
  length X = length y ->
  zip (_safe_indexing X idx) (_safe_indexing y idx) = _safe_indexing (zip X y) idx.
Proof.
  intros Hlen. unfold _safe_indexing. induction idx as [|i idx IH]; [reflexivity|].
  cbn [omap list_omap]. rewrite lookup_zip_with.
  destruct (X !! i) as [x|] eqn:Ex, (y !! i) as [b|] eqn:Ey; cbn.
  - f_equal. exact IH.
  - apply lookup_lt_Some in Ex. apply lookup_ge_None in Ey. lia.
  - apply lookup_lt_Some in Ey. apply lookup_ge_None in Ex. lia.
  - exact IH.
Qed.

Lemma safe_indexing_pairs {A B} (X : list A) (y : list B) (idx : list nat) :
  length X = length y ->
  length (_safe_indexing X idx) = length (_safe_indexing y idx) /\
  forall i x b,
    _safe_indexing X idx !! i = Some x -> _safe_indexing y idx !! i = Some b ->
    exists j, j ∈ idx /\ X !! j = Some x /\ y !! j = Some b.
Proof.
  intros Hlen. pose proof (safe_indexing_zip X y idx Hlen) as Hzip. split.
  - apply (f_equal length) in Hzip. unfold _safe_indexing in *.
    clear Hzip. induction idx as [|i idx IH]; [reflexivity|]. cbn [omap list_omap].
    destruct (X !! i) as [x|] eqn:Ex, (y !! i) as [b|] eqn:Ey; cbn.
    + f_equal. exact IH.
    + apply lookup_lt_Some in Ex. apply lookup_ge_None in Ey. lia.
    + apply lookup_lt_Some in Ey. apply lookup_ge_None in Ex. lia.
    + exact IH.
  - intros i x b Hx Hb.
    assert (Hin : (x, b) ∈ _safe_indexing (zip X y) idx).
    { rewrite <- Hzip. eapply list_elem_of_lookup_2.
      rewrite lookup_zip_with, Hx. cbn. rewrite Hb. reflexivity. }
    unfold _safe_indexing in Hin. apply list_elem_of_omap in Hin as (j & Hj & Hlook).
    exists j. split; [exact Hj|].
    apply lookup_zip_with_Some in Hlook as (x' & b' & [= <- <-] & Hx' & Hb').
    split; assumption.
Qed.

(** X15.  [train_test_split] keeps each row with its label: it raises
    [ValueError] when [X] and [y] differ in length; when it returns,
    each part has as many rows as labels, and the row and the label at
    any position of a part are the row and the label of one and the
    same sample of the input. *)
Theorem train_test_split_keeps_pairs {A B} (X : list A) (y : list B)
    (test_size : Q) (stratify : list nat) (seed : Z) :
  (length y <> length X ->
   train_test_split X y test_size stratify seed = Raise ValueError)
  /\ (forall X_train X_test y_train y_test,
        train_test_split X y test_size stratify seed
        = Ok ((X_train, X_test), (y_train, y_test)) ->
        length X_train = length y_train /\ length X_test = length y_test /\
        (forall i x b, X_train !! i = Some x -> y_train !! i = Some b ->
           exists j, X !! j = Some x /\ y !! j = Some b) /\
        (forall i x b, X_test !! i = Some x -> y_test !! i = Some b ->
           exists j, X !! j = Some x /\ y !! j = Some b)).
Proof.
  unfold train_test_split. split.
  - intros Hne. apply Nat.eqb_neq in Hne. rewrite Hne. reflexivity.
  - intros X_train X_test y_train y_test H.
    destruct (Nat.eqb (length y) (length X)) eqn:Elen; [|discriminate H].
    apply Nat.eqb_eq in Elen. cbn [negb] in H.
    destruct (split_indices _ _ _ _) as [[train test]|e]; [|discriminate H].
    cbn in H. injection H as <- <- <- <-.
    destruct (safe_indexing_pairs X y train (eq_sym Elen)) as [Hl1 Hp1].
    destruct (safe_indexing_pairs X y test (eq_sym Elen)) as [Hl2 Hp2].
    split; [exact Hl1|]. split; [exact Hl2|]. split.
    + intros i x b Hx Hb. destruct (Hp1 i x b Hx Hb) as (j & _ & Hj). eauto.
    + intros i x b Hx Hb. destruct (Hp2 i x b Hx Hb) as (j & _ & Hj). eauto.
Qed.

(** What is assumed of the generator: [permutation g n] is a permutation
    of [range(n)]. *)
Hypothesis permutation_spec :
  forall (g : G) (n : nat), fst (permutation g n) ≡ₚ seq 0 n.

Lemma take_take_drop_submseteq {A} (n t : nat) (l : list A) :
  take n l ++ take t (drop n l) ⊆+ l.
Proof.
  rewrite <- (take_drop n l) at 3.
  apply submseteq_app; [reflexivity|].
  apply sublist_submseteq, sublist_take.
Qed.

(** [assign_classes] hands out samples of the classes, none twice. *)
Lemma assign_classes_submseteq (per_class : list (list nat * (nat * nat))) (g : G) :
  fst (fst (assign_classes g per_class)) ++ snd (fst (assign_classes g per_class))
  ⊆+ concat (map fst per_class).
Proof.
  revert g. induction per_class as [|[indices [n_i t_i]] rest IH]; intros g.
  - reflexivity.
  - cbn [assign_classes].
    pose proof (permutation_spec g (length indices)) as Hp.
    destruct (permutation g (length indices)) as [p g1]. cbn [fst] in Hp.
    specialize (IH g1).
    destruct (assign_classes g1 rest) as [[train test] g2]. cbn [fst snd] in *.
    pose proof (take_clip_Permutation indices p Hp) as Hperm.
    set (perm_indices := take_clip indices p) in *.
    cbn [map concat fst].
    transitivity ((take n_i perm_indices ++ take t_i (drop n_i perm_indices))
                  ++ (train ++ test)).
    + apply Permutation_submseteq.
      rewrite <- !app_assoc. apply Permutation_app_head.
      rewrite !app_assoc. apply Permutation_app_tail. apply Permutation_app_comm.
    + apply submseteq_app; [|exact IH].
      rewrite <- Hperm. apply take_take_drop_submseteq.
Qed.

Lemma elem_of_concat {A} (x : A) (ls : list (list A)) :
  x ∈ concat ls <-> exists l, x ∈ l /\ l ∈ ls.
Proof.
  induction ls as [|l ls IH]; cbn.
  - split; [intros H; inversion H | intros (l & _ & H); inversion H].
  - rewrite elem_of_app, IH. split.
    + intros [H|(l' & H & Hl')]; [exists l; split; [exact H | left]|].
      exists l'. split; [exact H | right; exact Hl'].
    + intros (l' & H & Hl'). apply elem_of_cons in Hl' as [->|Hl']; [left; exact H|].
      right. eauto.
Qed.

Lemma map_fst_zip_take {A B} (l : list A) (k : list B) :
  map fst (zip l k) = take (length k) l.
Proof.
  revert k. induction l as [|a l IH]; intros [|b k]; try reflexivity.
  cbn. f_equal. apply IH.
Qed.

Lemma class_indices_elem (y : list nat) (classes : list nat) (i : nat) :
  i ∈ concat (class_indices y classes) ->
  (i < length y)%nat /\ exists c, c ∈ classes /\ y !! i = Some c.
Proof.
  unfold class_indices. intros Hi.
  apply elem_of_concat in Hi as (l & Hi & Hl).
  apply list_elem_of_fmap in Hl as (c & -> & Hc).
  apply list_elem_of_filter in Hi as [Hy Hi].
  apply elem_of_seq in Hi. split; [lia|]. eauto.
Qed.

Lemma class_indices_NoDup (y : list nat) (classes : list nat) :
  NoDup classes -> NoDup (concat (class_indices y classes)).
Proof.
  induction 1 as [|c classes Hc _ IH]; [constructor|].
  unfold class_indices in *. cbn [map concat].
  apply NoDup_app. split; [apply NoDup_filter, NoDup_seq|]. split; [|exact IH].
  intros i Hi Hi'.
  apply list_elem_of_filter in Hi as [Hy _].
  apply class_indices_elem in Hi' as (_ & c' & Hc' & Hy').
  rewrite Hy in Hy'. injection Hy' as <-. contradiction.
Qed.

Lemma submseteq_NoDup {A} (l k : list A) : l ⊆+ k -> NoDup k -> NoDup l.
Proof.
  intros Hsub Hk. apply submseteq_Permutation in Hsub as [k' Hk'].
  rewrite Hk' in Hk. apply NoDup_app in Hk as [Hl _]. exact Hl.
Qed.

Lemma concat_take_sublist {A} (n : nat) (ls : list (list A)) :
  concat (take n ls) `sublist_of` concat ls.
Proof.
  rewrite <- (take_drop n ls) at 2. rewrite concat_app.
  apply sublist_inserts_r. reflexivity.
Qed.

(** X16.  The split never puts a sample on both sides: whatever the
    labels, the test share and the seed, and whatever permutations the
    generator delivers, when the stratified split returns, no sample
    index occurs twice in the training and the test indices taken
    together, and every index is one of the [n_samples] samples. *)
Theorem split_indices_disjoint (n_samples : nat) (test_size : Q)
    (stratify : list nat) (seed : Z) (train test : list nat) :
  split_indices n_samples test_size stratify seed = Ok (train, test) ->
  NoDup (train ++ test) /\
  (forall i, i ∈ train -> i ∉ test) /\
  Forall (fun i => i < n_samples)%nat (train ++ test).
Proof.
  unfold split_indices. intros H.
  destruct (Nat.eqb (length stratify) n_samples) eqn:Elen; [|discriminate H].
  apply Nat.eqb_eq in Elen. cbn [negb] in H.
  destruct (_validate_shuffle_split n_samples test_size) as [[n_train n_test]|e];
    [|discriminate H].
  cbn [Py.bind fst snd] in H. unfold StratifiedShuffleSplit_split in H.
  set (classes := merge_sort le (remove_dups stratify)) in *.
  repeat match type of H with
         | (if ?b then _ else _) = _ => destruct b; [discriminate H|]
         end.
  destruct (_approximate_mode _ n_train _) as [n_i g1].
  destruct (_approximate_mode _ n_test _) as [t_i g2].
  pose proof (assign_classes_submseteq
                (zip (class_indices stratify classes) (zip n_i t_i)) g2) as Hsub.
  destruct (assign_classes g2 _) as [[train0 test0] g3]. cbn [fst snd] in Hsub.
  pose proof (shuffled_Permutation permutation_spec g3 train0) as Htrain.
  destruct (shuffled g3 train0) as [train' g4]. cbn [fst] in Htrain.
  pose proof (shuffled_Permutation permutation_spec g4 test0) as Htest.
  destruct (shuffled g4 test0) as [test' g5]. cbn [fst] in Htest.
  injection H as <- <-.
  assert (Hall : train' ++ test' ⊆+ concat (class_indices stratify classes)).
  { rewrite Htrain, Htest. etransitivity; [exact Hsub|].
    rewrite map_fst_zip_take. apply sublist_submseteq, concat_take_sublist. }
  assert (Hnd : NoDup (train' ++ test')).
  { apply (submseteq_NoDup _ _ Hall), class_indices_NoDup.
    unfold classes. rewrite merge_sort_Permutation. apply NoDup_remove_dups. }
  split; [exact Hnd|]. split.
  - apply NoDup_app in Hnd as (_ & Hdisj & _). exact Hdisj.
  - apply Forall_forall. intros i Hi.
    assert (Hi' : i ∈ concat (class_indices stratify classes)).
    { eapply elem_of_submseteq; [exact Hi | exact Hall]. }
    apply class_indices_elem in Hi' as [Hlt _]. lia.
Qed.

End SplitInGeneral.

Section SplitExamples.

Import np sklearn.

(** Four samples of two classes, split in halves by the generator that
    shuffles nothing; and labels that are one short. *)
Lemma train_test_split_keeps_pairs_witness :
  @train_test_split unit identity_rng _ _ [10; 11; 12] [0; 1]%nat (1 # 2)
    [0; 1]%nat 42 = Raise ValueError
  /\ (exists j, [10; 11; 12; 13] !! j = Some 10 /\ [0; 0; 1; 1]%nat !! j = Some 0%nat).
Proof.
  split.
  - apply (proj1 (@train_test_split_keeps_pairs unit identity_rng _ _
                    [10; 11; 12] [0; 1]%nat (1 # 2) [0; 1]%nat 42)).
    cbn. lia.
  - destruct (proj2 (@train_test_split_keeps_pairs unit identity_rng _ _
                       [10; 11; 12; 13] [0; 0; 1; 1]%nat (1 # 2) [0; 0; 1; 1]%nat 42)
                [10; 12] [11; 13] [0; 1]%nat [0; 1]%nat)
      as (_ & _ & Htrain & _).
    + vm_compute. reflexivity.
    + apply (Htrain 0%nat 10 0%nat); reflexivity.
Defined.

Lemma split_indices_disjoint_witness :
  NoDup ([0; 2] ++ [1; 3])%nat /\
  (forall i : nat, i ∈ [0; 2]%nat -> i ∉ [1; 3]%nat) /\
  Forall (fun i => i < 4)%nat ([0; 2] ++ [1; 3])%nat.
Proof.
  apply (@split_indices_disjoint unit identity_rng) with
    (test_size := 1 # 2) (stratify := [0; 0; 1; 1]%nat) (seed := 42%Z).
  - intros g n. reflexivity.
  - vm_compute. reflexivity.
Defined.

End SplitExamples.

(** ** The accuracy score and the sizes of the split *)

Section Scores.

Import np sklearn.

Lemma Qnat_le (a b : nat) : (a <= b)%nat -> Qnat a <= Qnat b.
Proof. intros H. unfold Qnat. rewrite <- Zle_Qle. lia. Qed.

Lemma Qnat_inj (a b : nat) : Qnat a == Qnat b -> a = b.
Proof. unfold Qnat. rewrite inject_Z_injective. lia. Qed.

Lemma zip_all_equal (a b : list nat) :
  length a = length b ->
  Forall (fun p => fst p = snd p) (zip a b) -> b = a.
Proof.
  revert b. induction a as [|x a IH]; intros [|y b] Hlen Hall; try discriminate;
    [reflexivity|].
  cbn in Hall. apply Forall_cons in Hall as [Hxy Hall]. cbn in Hxy. subst y.
  f_equal. apply IH; [cbn in Hlen; lia | exact Hall].
Qed.

Lemma zip_diag_equal (a : list nat) : Forall (fun p => fst p = snd p) (zip a a).
Proof. induction a as [|x a IH]; cbn; constructor; [reflexivity | exact IH]. Qed.

(** X17.  The accuracy score is a share: [accuracy_score] raises
    [ValueError] when the two lists of labels differ in length; on two
    lists of the same length, not empty, it returns a score between 0
    and 1, which is 1 exactly when the predicted labels are the true
    ones. *)
Theorem accuracy_score_is_a_share (y_true y_pred : list nat) :
  (length y_true <> length y_pred ->
   accuracy_score y_true y_pred = Raise ValueError)
  /\ (y_true <> [] -> length y_true = length y_pred ->
      exists q, accuracy_score y_true y_pred = Ok q /\
        0 <= q <= 1 /\ (q == 1 <-> y_pred = y_true)).
Proof.
  unfold accuracy_score. split.
  - intros Hne. apply Nat.eqb_neq in Hne. rewrite Hne. reflexivity.
  - intros Hne Elen. rewrite (proj2 (Nat.eqb_eq _ _) Elen). cbn [negb].
    destruct y_true as [|a y_true'] eqn:Ey; [congruence|]. rewrite <- Ey in *.
    eexists. split; [reflexivity|].
    set (hits := filter (fun p => fst p = snd p) (zip y_true y_pred)).
    assert (Hzip : length (zip y_true y_pred) = length y_true).
    { rewrite length_zip_with. lia. }
    assert (Hle : (length hits <= length y_true)%nat).
    { rewrite <- Hzip. apply length_filter. }
    assert (Hn : 0 < Qnat (length y_true)).
    { apply Qnat_pos. rewrite Ey. cbn. lia. }
    pose proof (Qnat_le _ _ Hle) as Hq.
    assert (H0 : 0 <= Qnat (length hits)).
    { change 0 with (Qnat 0). apply Qnat_le. lia. }
    split; [split|].
    + apply Qle_shift_div_l; lra.
    + apply Qle_shift_div_r; lra.
    + split.
      * intros H1.
        assert (Heq : Qnat (length hits) == Qnat (length y_true)).
        { rewrite <- (Qmult_1_l (Qnat (length y_true))), <- H1. field. intros E. lra. }
        apply Qnat_inj in Heq. rewrite <- Hzip in Heq.
        apply filter_all in Heq.
        apply (zip_all_equal y_true y_pred Elen).
        unfold hits in Heq. rewrite <- Heq. apply Forall_forall.
        intros p Hp. apply list_elem_of_filter in Hp as [Hp _]. exact Hp.
      * intros ->. unfold hits.
        rewrite (filter_Forall_id _ _ (zip_diag_equal y_true)), Hzip.
        field. intros E. lra.
Qed.

(** A prediction that is one label short; and three of four labels
    predicted right. *)
Lemma accuracy_score_is_a_share_witness :
  accuracy_score [0; 1; 2]%nat [0; 1]%nat = Raise ValueError
  /\ exists q, accuracy_score [0; 1; 1; 2]%nat [0; 1; 1; 1]%nat = Ok q /\
       0 <= q <= 1 /\ (q == 1 <-> [0; 1; 1; 1]%nat = [0; 1; 1; 2]%nat).
Proof.
  split.
  - apply (proj1 (accuracy_score_is_a_share [0; 1; 2]%nat [0; 1]%nat)). cbn. lia.
  - apply (proj2 (accuracy_score_is_a_share [0; 1; 1; 2]%nat [0; 1; 1; 1]%nat)).
    + discriminate.
    + reflexivity.
Defined.



End Scores.
